(** * ZenseHome MQTT bridge: a shallow embedding of [zense_mqtt_bridge.py]

    The development follows the layout of the Python module:

    - Python built-ins on integers and text that the module relies on;
    - [scale_brightness] and the [Pending] record;
    - [ZenseClient]: the reconnecting, re-authenticating session client;
    - [Bridge]: MQTT ingress ([on_message]), the aggregator ([_accumulate]),
      the flush ([_execute]) and the publisher ([pub_state], [pub_discovery]).

    Conventions.  Python [int] is [Z].  Text is [string], read as a
    sequence of code points: each character is the code point of its number,
    so a text of this development is a Python [str] whose code points lie
    below 256 (ASCII, the alphabet of the controller's wire protocol, and the
    Latin-1 supplement).  The built-ins [str.strip], [str.isdigit],
    [str.lower], [str.upper] and [int(str)] are modelled on these texts,
    [int] with its limit of 4300 digits.  Texts with code points from 256 on
    are outside the development.
    Clock readings ([time.time()]) and the suppression window are exact
    rationals [Q].  Calls to [log] have no effect on the state and are left
    out. *)

From Stdlib Require Import ZArith QArith Qround String Ascii List Lia Permutation.
From stdpp Require Import base decidable option list gmap strings pretty.

Local Open Scope Z_scope.

(** ** Python built-ins on integers *)

(** [max(lo, min(hi, x))] *)
Definition clamp (lo hi x : Z) : Z := Z.max lo (Z.min hi x).

(** [round(q)] on a real value [q]: nearest integer, ties to the even one. *)
Definition py_round (q : Q) : Z :=
  let f := Qfloor q in
  match Qcompare (q - inject_Z f) (1 # 2) with
  | Lt => f
  | Gt => f + 1
  | Eq => if Z.even f then f else f + 1
  end.

(** ** Configuration constants *)

Definition BRIGHTNESS_SCALE : Z := 100.

(** ** [scale_brightness] *)

Definition scale_brightness (raw : Z) : Z :=
  if raw <? 0 then 0
  else if raw <=? BRIGHTNESS_SCALE then raw
  else
    let raw := Z.min raw 255 in
    py_round ((inject_Z raw / inject_Z 255) * inject_Z BRIGHTNESS_SCALE)%Q.

(** ** [Pending] and the pending map *)

Record Pending : Type := mkPending {
  off : bool;
  on : bool;
  level : option Z  (* level wins over on *)
}.

(** [Pending()] *)
Definition Pending_new : Pending := mkPending false false None.

Global Instance Pending_eq_dec : EqDecision Pending.
Proof. solve_decision. Defined.

(** A Python [dict] keeps its keys in insertion order, and assigning to a key
    that is present keeps that key's position; [list(d.items())] reads the
    entries in that order. *)
Section Dict.
Context {K V : Type} `{EqDecision K}.

Fixpoint dict_get (k : K) (d : list (K * V)) : option V :=
  match d with
  | [] => None
  | (k', v) :: d' => if decide (k = k') then Some v else dict_get k d'
  end.

Fixpoint dict_set (k : K) (v : V) (d : list (K * V)) : list (K * V) :=
  match d with
  | [] => [(k, v)]
  | (k', v') :: d' =>
      if decide (k = k') then (k, v) :: d' else (k', v') :: dict_set k v d'
  end.

End Dict.

(** ** [Bridge._accumulate]

    The pending map is the only part of the bridge that [_accumulate] reads
    or writes, so it is written here as a function on that map; the method on
    the whole bridge state is derived from it further down.  [kind] is the
    string of the queue tuple [(kind, did, val)]. *)

Definition accumulate_pending
    (kind : string) (did : Z) (val : option Z)
    (pending : list (Z * Pending)) : list (Z * Pending) :=
  if bool_decide (kind = "discover" ∨ kind = "refresh") then
    let p := default Pending_new (dict_get 0 pending) in
    let p :=
      if bool_decide (kind = "discover")
      then mkPending (off p) true (level p)
      else mkPending true (on p) (level p) in
    dict_set 0 p pending
  else
    let p := default Pending_new (dict_get did pending) in
    let p :=
      if bool_decide (kind = "off") then mkPending true false None
      else if bool_decide (kind = "on") then
        if negb (off p) && bool_decide (level p = None)
        then mkPending (off p) true (level p)
        else p
      else if bool_decide (kind = "level") then
        (* int(val or 0) *)
        let lvl := clamp 0 BRIGHTNESS_SCALE (default 0 val) in
        if lvl =? 0 then mkPending true false None
        else mkPending false false (Some lvl)
      else p in
    dict_set did p pending.

(** ** Python built-ins on text *)

Module Py.

(** [s[len(p):]] when [s.startswith(p)] *)
Fixpoint strip_prefix (p s : string) : option string :=
  match p, s with
  | EmptyString, _ => Some s
  | String a p', String b s' =>
      if decide (a = b) then strip_prefix p' s' else None
  | String _ _, EmptyString => None
  end.

(** [s.startswith(p)] *)
Definition startswith (p s : string) : bool :=
  bool_decide (is_Some (strip_prefix p s)).

(** [s.endswith(suf)] *)
Fixpoint endswith (suf s : string) : bool :=
  if decide (s = suf) then true
  else match s with
       | EmptyString => false
       | String _ s' => endswith suf s'
       end.

(** [s.partition(sep)] at the first occurrence of [sep]: the text before
    it and the text after it; [None] when [sep] does not occur. *)
Fixpoint find_first (sep s : string) : option (string * string) :=
  match strip_prefix sep s with
  | Some r => Some (EmptyString, r)
  | None =>
      match s with
      | EmptyString => None
      | String c s' =>
          match find_first sep s' with
          | Some (a, b) => Some (String c a, b)
          | None => None
          end
      end
  end.

(** [sub in s] *)
Definition contains (sub s : string) : bool :=
  bool_decide (is_Some (find_first sub s)).

(** [s.split(sep)] for a non-empty [sep].  Each round cuts at the first
    occurrence of [sep] and goes on with the rest, which is shorter, so
    [length s] rounds are always enough. *)
Fixpoint split_fuel (n : nat) (sep s : string) : list string :=
  match find_first sep s with
  | None => [s]
  | Some (a, b) =>
      match n with
      | O => [a; b]
      | S n' => a :: split_fuel n' sep b
      end
  end.

Definition split (sep s : string) : list string :=
  split_fuel (String.length s) sep s.

(** White space as [str.strip()] sees it: tab to carriage return, the four
    separators 28 to 31, the blank, and beyond ASCII the next-line control
    (133) and the no-break space (160). *)
Definition isspace (c : ascii) : bool :=
  let n := nat_of_ascii c in
  ((9 <=? n) && (n <=? 13) || (28 <=? n) && (n <=? 32)
   || (n =? 133) || (n =? 160))%nat.

(** White space as [int()] skips it at both ends of a numeral: the same,
    but for the separators 28 to 31, which [int] rejects. *)
Definition int_space (c : ascii) : bool :=
  let n := nat_of_ascii c in
  ((9 <=? n) && (n <=? 13) || (n =? 32) || (n =? 133) || (n =? 160))%nat.

Fixpoint lstrip (f : ascii → bool) (s : string) : string :=
  match s with
  | EmptyString => EmptyString
  | String c s' => if f c then lstrip f s' else s
  end.

Fixpoint rstrip (f : ascii → bool) (s : string) : string :=
  match s with
  | EmptyString => EmptyString
  | String c s' =>
      let r := rstrip f s' in
      if bool_decide (r = EmptyString) && f c then EmptyString
      else String c r
  end.

(** [s.strip()] *)
Definition strip (s : string) : string := rstrip isspace (lstrip isspace s).

(** [s.strip(chars)] for the one-character set ["'"] *)
Definition strip_quote (s : string) : string :=
  let q := fun c => bool_decide (c = "'"%char) in
  rstrip q (lstrip q s).

(** The capital letters are A to Z and, beyond ASCII, 192 to 222 but for
    the multiplication sign (215); each has its small letter 32 further on. *)
Definition lower_char (c : ascii) : ascii :=
  let n := nat_of_ascii c in
  if ((65 <=? n) && (n <=? 90)
      || (192 <=? n) && (n <=? 222) && negb (n =? 215))%nat
  then ascii_of_nat (n + 32) else c.

(** The small letters with a capital below 256 are a to z and 224 to 254
    but for the division sign (247).  The sharp s (223) has the two-letter
    capital SS.  The capitals of the micro sign (181) and of the y with
    diaeresis (255) lie beyond 255 and are not texts of this development:
    these two are left as they are, which changes no comparison of an
    upper-cased text with an ASCII word, the one use that the bridge makes of
    [upper]. *)
Definition upper_char (c : ascii) : string :=
  let n := nat_of_ascii c in
  if (n =? 223)%nat then "SS"
  else if ((97 <=? n) && (n <=? 122)
           || (224 <=? n) && (n <=? 254) && negb (n =? 247))%nat
  then String (ascii_of_nat (n - 32)) "" else String c "".

Fixpoint map_chars (f : ascii → ascii) (s : string) : string :=
  match s with
  | EmptyString => EmptyString
  | String c s' => String (f c) (map_chars f s')
  end.

(** [s.lower()] *)
Definition lower : string → string := map_chars lower_char.

(** [s.upper()] *)
Fixpoint upper (s : string) : string :=
  match s with
  | EmptyString => EmptyString
  | String c s' => upper_char c +:+ upper s'
  end.

(** The value of a decimal digit; below 256 these are 0 to 9. *)
Definition digit_val (c : ascii) : option Z :=
  let n := nat_of_ascii c in
  if ((48 <=? n) && (n <=? 57))%nat then Some (Z.of_nat n - 48) else None.

Fixpoint all_digits (s : string) : bool :=
  match s with
  | EmptyString => true
  | String c s' => bool_decide (is_Some (digit_val c)) && all_digits s'
  end.

(** The characters that [str.isdigit] accepts: the decimal digits, and the
    superscripts two (178), three (179) and one (185), which are digits
    without being decimal. *)
Definition isdigit_char (c : ascii) : bool :=
  let n := nat_of_ascii c in
  bool_decide (is_Some (digit_val c))
  || (n =? 178)%nat || (n =? 179)%nat || (n =? 185)%nat.

Fixpoint all_isdigit (s : string) : bool :=
  match s with
  | EmptyString => true
  | String c s' => isdigit_char c && all_isdigit s'
  end.

(** [s.isdigit()]: at least one character, and all of them digits. *)
Definition isdigit (s : string) : bool :=
  negb (bool_decide (s = EmptyString)) && all_isdigit s.

(** The digits of an integer literal: groups of digits, single
    underscores allowed between two digits. *)
Fixpoint int_digits (acc : Z) (after_digit : bool) (s : string) : option Z :=
  match s with
  | EmptyString => if after_digit then Some acc else None
  | String c s' =>
      match digit_val c with
      | Some d => int_digits (acc * 10 + d) true s'
      | None =>
          if bool_decide (c = "_"%char) && after_digit
          then int_digits acc false s'
          else None
      end
  end.

(** The limit on the number of digits that [int] converts
    ([sys.get_int_max_str_digits()]). *)
Definition int_max_str_digits : Z := 4300.

(** How many digits a text holds; leading zeros count. *)
Fixpoint digit_count (s : string) : Z :=
  match s with
  | EmptyString => 0
  | String c s' =>
      (if bool_decide (is_Some (digit_val c)) then 1 else 0) + digit_count s'
  end.

(** A numeral without its sign. *)
Definition int_body (s : string) : option Z :=
  if int_max_str_digits <? digit_count s then None
  else int_digits 0 false s.

(** [int(s)] in base ten; [None] stands for [ValueError]. *)
Definition int (s : string) : option Z :=
  match rstrip int_space (lstrip int_space s) with
  | String "-" r => Z.opp <$> int_body r
  | String "+" r => int_body r
  | r => int_body r
  end.

(** An integer that [int] and [str] convert: one of at most 4300 digits. *)
Definition fits (n : Z) : Prop := Z.abs n < 10 ^ int_max_str_digits.

(** [str(n)], for an integer that fits.  On a larger one [str] raises; no
    such integer arises in the bridge, where every device id comes out of
    [int] and every level out of a clamp. *)
Definition str (n : Z) : string := pretty n.

End Py.

(** ** The controller's end of the socket

    What the network and the controller do is the environment of the
    program.  It is a state machine [Net] with two transitions: opening a
    connection, and one request/response exchange.  An exchange says whether
    [sendall] raises and what the following calls of [recv] deliver; when
    that script is used up the peer has closed the connection and [recv]
    returns the empty byte string. *)

(** The two classes of exception that [send_command] tells apart:
    [OSError] (with [BrokenPipeError], [ConnectionResetError] and the socket
    timeout among its subclasses), and every other [Exception]. *)
Inductive exn : Type := OSError | OtherError.

Inductive recv_item : Type :=
  | Chunk (part : string)
  | RecvRaises (e : exn).

Record exchange : Type := mkExchange {
  sendall_raises : option exn;
  recv_script : list recv_item
}.

(** What a call that may raise produces. *)
Inductive outcome : Type :=
  | Ret (resp : string)
  | Raise (e : exn).

(** What the socket layer was asked to do, in order. *)
Inductive wire_event : Type :=
  | WClose
  | WConnect (ok : bool)
  | WSend (cmd : string).

Global Instance exn_eq_dec : EqDecision exn.
Proof. solve_decision. Defined.
Global Instance wire_event_eq_dec : EqDecision wire_event.
Proof. solve_decision. Defined.

(** [ZenseClient._recv]: accumulate parts until the end marker shows up in
    the buffer or the peer closes. *)
Fixpoint _recv (buf : string) (script : list recv_item) : outcome :=
  match script with
  | [] => Ret buf
  | RecvRaises e :: _ => Raise e
  | Chunk part :: rest =>
      if bool_decide (part = "") then Ret buf
      else
        let buf := buf +:+ part in
        if Py.contains "<<" buf then Ret buf else _recv buf rest
  end.

(** The environment: [net_connect] stands for [socket.socket(...)],
    [settimeout] and [connect((ip, port))], and is [true] when none of them
    raises; [net_exchange cmd] is the exchange that sending [cmd] starts. *)
Record Env (Net : Type) : Type := mkEnv {
  net_connect : Net → bool * Net;
  net_exchange : string → Net → exchange * Net
}.

Arguments mkEnv {Net}.
Arguments net_connect {Net}.
Arguments net_exchange {Net}.

(** The fields of the Python object; [sock] records whether [self.sock]
    holds a socket ([true]) or [None] ([false]).  [net] and [wire] are the
    environment and the record of what was asked of it. *)
Record ZenseClient (Net : Type) : Type := mkZenseClient {
  code : Z;
  sock : bool;
  logged_in : bool;
  net : Net;
  wire : list wire_event
}.

Arguments mkZenseClient {Net}.
Arguments code {Net}.
Arguments sock {Net}.
Arguments logged_in {Net}.
Arguments net {Net}.
Arguments wire {Net}.

Section ZenseClient.

Context {Net : Type} (E : Env Net).

Definition _close (c : ZenseClient Net) : ZenseClient Net :=
  {| code := code c;
     sock := false;
     logged_in := false;
     net := net c;
     wire := wire c ++ (if sock c then [WClose] else []) |}.

Definition _connect (c : ZenseClient Net) : bool * ZenseClient Net :=
  let c := _close c in
  let '(ok, n) := net_connect E (net c) in
  if ok then
    (true, {| code := code c; sock := true; logged_in := logged_in c;
              net := n; wire := wire c ++ [WConnect true] |})
  else
    (false, _close {| code := code c; sock := sock c;
                      logged_in := logged_in c;
                      net := n; wire := wire c ++ [WConnect false] |}).

(** [self.sock.sendall(cmd.encode())] then [self._recv()].  Without a
    socket the attribute access on [None] raises. *)
Definition _send_raw (cmd : string) (c : ZenseClient Net) : outcome * ZenseClient Net :=
  if sock c then
    let '(ex, n) := net_exchange E cmd (net c) in
    let c := {| code := code c; sock := sock c; logged_in := logged_in c;
                net := n; wire := wire c ++ [WSend cmd] |} in
    match sendall_raises ex with
    | Some e => (Raise e, c)
    | None => (_recv "" (recv_script ex), c)
    end
  else (Raise OtherError, c).

Definition login_cmd (c : ZenseClient Net) : string :=
  ">>Login " +:+ Py.str (code c) +:+ "<<".

Definition _login (c : ZenseClient Net) : bool * ZenseClient Net :=
  let '(ok, c) := _connect c in
  if negb ok then (false, c)
  else
    let '(r, c) := _send_raw (login_cmd c) c in
    match r with
    | Ret resp =>
        if Py.contains ">>Login Ok<<" resp then
          (true, {| code := code c; sock := sock c; logged_in := true;
                    net := net c; wire := wire c |})
        else (false, _close c)
    | Raise _ => (false, _close c)
    end.

(** One pass through the body of the [for attempt in range(retry + 1)]
    loop of [send_command]: either the method returns, or the handler for
    the [OSError] family has run and the loop continues. *)
Inductive attempt_result : Type :=
  | Return (resp : string)
  | Continue.

Definition attempt (cmd : string) (c : ZenseClient Net)
    : attempt_result * ZenseClient Net :=
  let '(ready, c) :=
    if negb (logged_in c) || negb (sock c) then _login c else (true, c) in
  if negb ready then (Return "", c)
  else
    let '(r, c) := _send_raw cmd c in
    match r with
    | Ret resp => (Return resp, c)
    | Raise OSError => (Continue, _close c)
    | Raise OtherError => (Return "", _close c)
    end.

Fixpoint attempts (n : nat) (cmd : string) (c : ZenseClient Net)
    : string * ZenseClient Net :=
  match n with
  | O => ("", c)
  | S n' =>
      match attempt cmd c with
      | (Return resp, c) => (resp, c)
      | (Continue, c) => attempts n' cmd c
      end
  end.

Definition send_command (cmd : string) (retry : nat) (c : ZenseClient Net)
    : string * ZenseClient Net :=
  attempts (retry + 1) cmd c.

(** The value of the keyword argument [retry] when it is left out. *)
Definition default_retry : nat := 1.

Definition set_off_cmd (did : Z) : string := ">>Set " +:+ Py.str did +:+ " 0<<".
Definition set_on_cmd (did : Z) : string :=
  ">>Set " +:+ Py.str did +:+ " " +:+ Py.str BRIGHTNESS_SCALE +:+ "<<".
Definition fade_cmd (did level : Z) : string :=
  ">>Fade " +:+ Py.str did +:+ " " +:+ Py.str level +:+ "<<".

Definition set_off (did : Z) : ZenseClient Net → string * ZenseClient Net :=
  send_command (set_off_cmd did) default_retry.

Definition set_on (did : Z) : ZenseClient Net → string * ZenseClient Net :=
  send_command (set_on_cmd did) default_retry.

Definition fade (did level : Z) : ZenseClient Net → string * ZenseClient Net :=
  let level := clamp 0 BRIGHTNESS_SCALE level in
  send_command (fade_cmd did level) default_retry.

(** [s.split(a)[1].split(b)[0]]; the index [1] exists whenever [a in s],
    which every caller has tested (lemma [split_second]). *)
Definition between (a b s : string) : string :=
  nth 0 (Py.split b (nth 1 (Py.split a s) "")) "".

Definition parse_level (resp : string) : option Z :=
  if Py.contains ">>Get " resp
  then Py.int (Py.strip (between ">>Get " "<<" resp))
  else None.

Definition get_level (did : Z) (c : ZenseClient Net) : option Z * ZenseClient Net :=
  let '(resp, c) := send_command (">>Get " +:+ Py.str did +:+ "<<") default_retry c in
  (parse_level resp, c).

(** The list comprehension [[int(x) for x in ids if x.isdigit()]] is not
    inside a [try]: when [int] raises on a token that passed [isdigit] (a
    superscript digit, or more than 4300 digits), the [ValueError] leaves
    [get_devices].  [None] stands for that. *)
Definition parse_devices (resp : string) : option (list Z) :=
  if Py.contains ">>Get Devices " resp then
    let part := between ">>Get Devices " "<<" resp in
    let ids := map Py.strip (Py.split "," part) in
    mapM Py.int (filter (fun x => Py.isdigit x = true) ids)
  else Some [].

Definition get_devices (c : ZenseClient Net)
    : option (list Z) * ZenseClient Net :=
  let '(resp, c) := send_command ">>Get Devices<<" default_retry c in
  (parse_devices resp, c).

Definition parse_name (did : Z) (resp : string) : string :=
  let fallback := "Device_" +:+ Py.str did in
  if Py.contains ">>Get Name " resp then
    let nm := Py.strip_quote (Py.strip (between ">>Get Name " "<<" resp)) in
    if negb (bool_decide (nm = "")) && negb (bool_decide (Py.lower nm = "timeout"))
    then nm
    else fallback
  else fallback.

Definition get_name (did : Z) (c : ZenseClient Net) : string * ZenseClient Net :=
  let '(resp, c) := send_command (">>Get Name " +:+ Py.str did +:+ "<<") default_retry c in
  (parse_name did resp, c).

End ZenseClient.

(** ** Configuration (read from the environment at start-up) *)

Record Config : Type := mkConfig {
  ZENSE_CODE : Z;
  CMD_GAP_SEC : Q;
  STATE_POLL_SEC : Z;
  LEVEL_ON_WINDOW_SEC : Q;
  DISCOVERY_PREFIX : string;
  BASE : string;
  DOMAIN : string;
  UID_PREFIX : string
}.

(** The values used when the environment sets none of the variables. *)
Definition default_config : Config :=
  {| ZENSE_CODE := 16713;
     CMD_GAP_SEC := 1 # 10;
     STATE_POLL_SEC := 600;
     LEVEL_ON_WINDOW_SEC := 1;
     DISCOVERY_PREFIX := "homeassistant";
     BASE := "homeassistant/zense_bridge";
     DOMAIN := "light";
     UID_PREFIX := "zensebridge_" |}.

Definition AVAIL_ON : string := "online".
Definition AVAIL_OFF : string := "offline".
Definition AVAIL_TOPIC (cfg : Config) : string := BASE cfg +:+ "/availability".

(** ** MQTT topics *)

Definition uid (cfg : Config) (did : Z) : string := UID_PREFIX cfg +:+ Py.str did.

Record Topics : Type := mkTopics {
  t_cmd : string;
  t_state : string;
  t_b_cmd : string;
  t_b_state : string;
  t_disc : string
}.

Definition topics (cfg : Config) (u : string) : Topics :=
  {| t_cmd := BASE cfg +:+ "/" +:+ u +:+ "/set";
     t_state := BASE cfg +:+ "/" +:+ u +:+ "/state";
     t_b_cmd := BASE cfg +:+ "/" +:+ u +:+ "/brightness/set";
     t_b_state := BASE cfg +:+ "/" +:+ u +:+ "/brightness/state";
     t_disc := DISCOVERY_PREFIX cfg +:+ "/" +:+ DOMAIN cfg +:+ "/" +:+ u +:+ "/config" |}.

(** ** The bridge *)

(** Values of the discovery payload handed to [json.dumps]. *)
Inductive json : Type :=
  | JStr (s : string)
  | JInt (n : Z)
  | JBool (b : bool).

(** What the bridge does that can be seen from outside it, in order: MQTT
    calls, pacing sleeps, and each call of a [ZenseClient] method together
    with what it returned.  [EvGetDevicesRaised] is the call of
    [get_devices] that a [ValueError] left: nothing catches it, so it ends
    the thread of the worker. *)
Inductive event : Type :=
  | EvPublish (topic payload : string) (retain : bool)
  | EvSubscribe (topic : string)
  | EvSleep (sec : Q)
  | EvGetDevices (ids : list Z)
  | EvGetDevicesRaised
  | EvGetName (did : Z) (nm : string)
  | EvGetLevel (did : Z) (lvl : option Z)
  | EvSetOff (did : Z) (resp : string)
  | EvFade (did level : Z) (resp : string)
  | EvSetOn (did : Z) (resp : string).

(** Library functions taken as given: [float_round s] is
    [int(round(float(s)))], [None] when [float] or [round] raises;
    [json_dumps] is [json.dumps] on the discovery payload. *)
Record PyLib : Type := mkPyLib {
  float_round : string → option Z;
  json_dumps : list (string * json) → string
}.

Record Bridge (Net : Type) : Type := mkBridge {
  cmd_q : list (string * Z * option Z);
  pending : list (Z * Pending);
  last_level_pub : gmap string Z;
  last_level_ts : gmap Z Q;
  z : ZenseClient Net;
  known : list Z;
  trace : list event
}.

Arguments mkBridge {Net}.
Arguments cmd_q {Net}.
Arguments pending {Net}.
Arguments last_level_pub {Net}.
Arguments last_level_ts {Net}.
Arguments z {Net}.
Arguments known {Net}.
Arguments trace {Net}.

Section Bridge.

Context {Net : Type} (E : Env Net) (cfg : Config) (L : PyLib).

Definition emit (evs : list event) (b : Bridge Net) : Bridge Net :=
  {| cmd_q := cmd_q b; pending := pending b;
     last_level_pub := last_level_pub b; last_level_ts := last_level_ts b;
     z := z b; known := known b; trace := trace b ++ evs |}.

Definition with_z (c : ZenseClient Net) (b : Bridge Net) : Bridge Net :=
  {| cmd_q := cmd_q b; pending := pending b;
     last_level_pub := last_level_pub b; last_level_ts := last_level_ts b;
     z := c; known := known b; trace := trace b |}.

Definition with_pending (pd : list (Z * Pending)) (b : Bridge Net) : Bridge Net :=
  {| cmd_q := cmd_q b; pending := pd;
     last_level_pub := last_level_pub b; last_level_ts := last_level_ts b;
     z := z b; known := known b; trace := trace b |}.

Definition with_known (ids : list Z) (b : Bridge Net) : Bridge Net :=
  {| cmd_q := cmd_q b; pending := pending b;
     last_level_pub := last_level_pub b; last_level_ts := last_level_ts b;
     z := z b; known := ids; trace := trace b |}.

Definition with_last_level_pub (m : gmap string Z) (b : Bridge Net) : Bridge Net :=
  {| cmd_q := cmd_q b; pending := pending b;
     last_level_pub := m; last_level_ts := last_level_ts b;
     z := z b; known := known b; trace := trace b |}.

Definition with_last_level_ts (m : gmap Z Q) (b : Bridge Net) : Bridge Net :=
  {| cmd_q := cmd_q b; pending := pending b;
     last_level_pub := last_level_pub b; last_level_ts := m;
     z := z b; known := known b; trace := trace b |}.

(** [self.cmd_q.put(item)] *)
Definition put (item : string * Z * option Z) (b : Bridge Net) : Bridge Net :=
  {| cmd_q := cmd_q b ++ [item]; pending := pending b;
     last_level_pub := last_level_pub b; last_level_ts := last_level_ts b;
     z := z b; known := known b; trace := trace b |}.

(** [Bridge.__init__], with the client not yet connected. *)
Definition Bridge_init (n : Net) : Bridge Net :=
  {| cmd_q := []; pending := []; last_level_pub := ∅; last_level_ts := ∅;
     z := mkZenseClient (ZENSE_CODE cfg) false false n [];
     known := []; trace := [] |}.

Definition pub (topic payload : string) (retain : bool) : Bridge Net → Bridge Net :=
  emit [EvPublish topic payload retain].

Definition pub_avail (online : bool) : Bridge Net → Bridge Net :=
  pub (AVAIL_TOPIC cfg) (if online then AVAIL_ON else AVAIL_OFF) true.

Definition pub_state (did level : Z) (b : Bridge Net) : Bridge Net :=
  let lvl := clamp 0 BRIGHTNESS_SCALE level in
  let u := uid cfg did in
  if bool_decide (last_level_pub b !! u = Some lvl) then b
  else
    let b := with_last_level_pub (<[u := lvl]> (last_level_pub b)) b in
    let t := topics cfg u in
    let b := pub (t_state t) (if 0 <? lvl then "ON" else "OFF") true b in
    pub (t_b_state t) (Py.str lvl) true b.

Definition discovery_payload (u name_str : string) : list (string * json) :=
  let t := topics cfg u in
  [ ("name", JStr (name_str +:+ " (Zense)"));
    ("unique_id", JStr u);
    ("command_topic", JStr (t_cmd t));
    ("state_topic", JStr (t_state t));
    ("brightness_command_topic", JStr (t_b_cmd t));
    ("brightness_state_topic", JStr (t_b_state t));
    ("brightness_scale", JInt BRIGHTNESS_SCALE);
    ("payload_on", JStr "ON");
    ("payload_off", JStr "OFF");
    ("availability_topic", JStr (AVAIL_TOPIC cfg));
    ("payload_available", JStr AVAIL_ON);
    ("payload_not_available", JStr AVAIL_OFF);
    ("optimistic", JBool false);
    ("qos", JInt 0) ].

Definition pub_discovery (did : Z) (name_str : string) : Bridge Net → Bridge Net :=
  let u := uid cfg did in
  pub (t_disc (topics cfg u)) (json_dumps L (discovery_payload u name_str)) true.

Definition on_connect (b : Bridge Net) : Bridge Net :=
  let b := emit [EvSubscribe "homeassistant/status";
                 EvSubscribe (BASE cfg +:+ "/+/set");
                 EvSubscribe (BASE cfg +:+ "/+/brightness/set")] b in
  let b := pub_avail true b in
  put ("discover", 0, None) b.

(** [_to_int] on the decoded payload, which is always a [str]. *)
Definition _to_int (v : string) : option Z :=
  let s := Py.strip v in
  if bool_decide (s = "") then None else float_round L s.

(** [on_message]; [topic] is [msg.topic], [payload] the decoded
    [msg.payload], and [now] what [time.time()] returns in this call (it is
    read at most once on every path). *)
Definition on_message (topic payload : string) (now : Q) (b : Bridge Net) : Bridge Net :=
  let payload := Py.strip payload in
  if bool_decide (topic = "homeassistant/status") && bool_decide (payload = "online")
  then put ("discover", 0, None) b
  else
    let parts := Py.split "/" topic in
    if (length parts <? 4)%nat then b
    else
      let u := nth 2 parts "" in
      match Py.strip_prefix (UID_PREFIX cfg) u with
      | None => b
      | Some rest =>
          match Py.int rest with
          | None => b
          | Some did =>
              if Py.endswith "/brightness/set" topic then
                match _to_int payload with
                | None => b
                | Some raw =>
                    let br := scale_brightness raw in
                    let b := with_last_level_ts (<[did := now]> (last_level_ts b)) b in
                    put ("level", did, Some br) b
                end
              else if Py.endswith "/set" topic then
                let up := Py.upper payload in
                if bool_decide (up = "OFF") then put ("off", did, None) b
                else if bool_decide (up = "ON") then
                  let ts := default 0%Q (last_level_ts b !! did) in
                  if Qle_bool (now - ts) (LEVEL_ON_WINDOW_SEC cfg) then b
                  else put ("on", did, None) b
                else b
              else b
          end
      end.

(** One round of [poller_loop], after its sleep. *)
Definition poller_tick (b : Bridge Net) : Bridge Net :=
  match known b with
  | [] => b
  | _ :: _ => put ("refresh", 0, None) b
  end.

Definition _accumulate (kind : string) (did : Z) (val : option Z)
    (b : Bridge Net) : Bridge Net :=
  with_pending (accumulate_pending kind did val (pending b)) b.

(** [_drain]: at most 200 non-blocking [get]s. *)
Fixpoint drain (n : nat) (b : Bridge Net) : Bridge Net :=
  match n with
  | O => b
  | S n' =>
      match cmd_q b with
      | [] => b
      | (kind, did, val) :: q =>
          let b := {| cmd_q := q; pending := pending b;
                      last_level_pub := last_level_pub b;
                      last_level_ts := last_level_ts b;
                      z := z b; known := known b; trace := trace b |} in
          drain n' (_accumulate kind did val b)
      end
  end.

Definition _drain : Bridge Net → Bridge Net := drain 200.

(** The body of [for did in ids] in the discovery branch of [_execute]. *)
Definition discover_one (b : Bridge Net) (did : Z) : Bridge Net :=
  let '(nm, c) := get_name E did (z b) in
  let b := emit [EvGetName did nm] (with_z c b) in
  let b := pub_discovery did nm b in
  emit [EvSleep (CMD_GAP_SEC cfg)] b.

(** The body of [for did in self.known] in the refresh branch. *)
Definition refresh_one (b : Bridge Net) (did : Z) : Bridge Net :=
  let '(lvl, c) := get_level E did (z b) in
  let b := emit [EvGetLevel did lvl] (with_z c b) in
  let b := match lvl with
           | Some l => pub_state did l b
           | None => b
           end in
  emit [EvSleep (CMD_GAP_SEC cfg)] b.

(** The body of [for did, p in items]. *)
Definition execute_item (b : Bridge Net) (item : Z * Pending) : Bridge Net :=
  let '(did, p) := item in
  if did =? 0 then b
  else if off p then
    let '(resp, c) := set_off E did (z b) in
    let b := emit [EvSetOff did resp] (with_z c b) in
    let b := if bool_decide (resp = "") then b else pub_state did 0 b in
    emit [EvSleep (CMD_GAP_SEC cfg)] b
  else
    match level p with
    | Some l =>
        let '(resp, c) := fade E did l (z b) in
        let b := emit [EvFade did l resp] (with_z c b) in
        let b := if bool_decide (resp = "") then b else pub_state did l b in
        emit [EvSleep (CMD_GAP_SEC cfg)] b
    | None =>
        if on p then
          let '(resp, c) := set_on E did (z b) in
          let b := emit [EvSetOn did resp] (with_z c b) in
          let b := if bool_decide (resp = "") then b
                   else pub_state did BRIGHTNESS_SCALE b in
          emit [EvSleep (CMD_GAP_SEC cfg)] b
        else b
    end.

Definition do_discover (items : list (Z * Pending)) : bool :=
  existsb (fun '(did, p) => (did =? 0) && on p) items.

Definition do_refresh (items : list (Z * Pending)) : bool :=
  existsb (fun '(did, p) => (did =? 0) && off p) items.

(** The discovery branch; the flag is [false] when the [ValueError] of
    [get_devices] leaves it. *)
Definition execute_discover (b : Bridge Net) : bool * Bridge Net :=
  let '(r, c) := get_devices E (z b) in
  match r with
  | None => (false, emit [EvGetDevicesRaised] (with_z c b))
  | Some ids =>
      let b := emit [EvGetDevices ids] (with_z c b) in
      (true, match ids with
             | [] => b
             | _ :: _ => foldl discover_one (with_known ids b) ids
             end)
  end.

Definition execute_refresh (b : Bridge Net) : Bridge Net :=
  match known b with
  | [] => b
  | _ :: _ => foldl refresh_one b (known b)
  end.

(** The two fleet steps of [_execute], after the snapshot of the pending
    map: discovery, then refresh unless the discovery raised. *)
Definition execute_fleet (items : list (Z * Pending)) (b : Bridge Net)
    : bool * Bridge Net :=
  let '(ok, b) := if do_discover items then execute_discover b else (true, b) in
  if ok then (true, if do_refresh items then execute_refresh b else b)
  else (false, b).

(** [_execute]; a [ValueError] out of the discovery leaves it at once,
    with the pending map already cleared. *)
Definition _execute (b : Bridge Net) : Bridge Net :=
  let items := pending b in
  let '(ok, b) := execute_fleet items (with_pending [] b) in
  if ok then foldl execute_item b items else b.

(** The flush is left by the [ValueError]: the discovery is flagged and
    [get_devices] raises. *)
Definition flush_raises (b : Bridge Net) : bool :=
  do_discover (pending b) && bool_decide ((get_devices E (z b)).1 = None).

(** The thread of the worker has ended: an exception left [worker_loop]. *)
Definition worker_dead (b : Bridge Net) : bool :=
  existsb (fun e => match e with EvGetDevicesRaised => true | _ => false end)
          (trace b).

(** One round of [worker_loop] once an item is in the queue; [late] are
    the intents that producers enqueue during the debounce sleep. *)
Definition worker_round (late : list (string * Z * option Z)) (b : Bridge Net)
    : Bridge Net :=
  match cmd_q b with
  | [] => b
  | (kind, did, val) :: q =>
      let b := {| cmd_q := q ++ late; pending := pending b;
                  last_level_pub := last_level_pub b;
                  last_level_ts := last_level_ts b;
                  z := z b; known := known b; trace := trace b |} in
      _execute (_drain (_accumulate kind did val b))
  end.

End Bridge.

(** ** Intents for one device, and the precedence table of the aggregator *)

Inductive intent : Type :=
  | IOff
  | IOn
  | ILevel (v : Z).

Global Instance intent_eq_dec : EqDecision intent.
Proof. solve_decision. Defined.

(** The queue tuple [(kind, did, val)] that carries an intent. *)
Definition intent_kind (i : intent) : string :=
  match i with
  | IOff => "off"
  | IOn => "on"
  | ILevel _ => "level"
  end.

Definition intent_val (i : intent) : option Z :=
  match i with
  | ILevel v => Some v
  | _ => None
  end.

(** Merging a sequence of intents for device [did], in arrival order. *)
Definition accumulate_intents (did : Z) (l : list intent)
    (pending : list (Z * Pending)) : list (Z * Pending) :=
  foldl (fun pd i => accumulate_pending (intent_kind i) did (intent_val i) pd)
        pending l.

(** The precedence table as the specification words it, one row per
    incoming intent:
    - Off: off=true; on=false; level=null;
    - On: on=true only if off is currently false and level is currently null;
    - Level(v), v clamped to [0,100]: if v==0 treat identically to Off,
      else level=v; on=false; off=false. *)
Definition table_rule (p : Pending) (i : intent) : Pending :=
  match i with
  | IOff => mkPending true false None
  | IOn =>
      match off p, level p with
      | false, None => mkPending false true None
      | _, _ => p
      end
  | ILevel v =>
      let v := clamp 0 100 v in
      if decide (v = 0) then mkPending true false None
      else mkPending false false (Some v)
  end.

(** The last Off or Level intent of a sequence, if there is one. *)
Definition last_directive (l : list intent) : option intent :=
  foldl (fun acc i => match i with IOn => acc | _ => Some i end) None l.

Definition has_on (l : list intent) : bool :=
  existsb (fun i => bool_decide (i = IOn)) l.

(** Last writer wins: what a whole sequence leaves pending. *)
Definition verdict (l : list intent) : Pending :=
  match last_directive l with
  | None => mkPending false (has_on l) None
  | Some i => table_rule Pending_new i
  end.

(** ** A scripted controller

    A concrete environment for examples: the outcomes of the successive
    connection attempts and of the successive exchanges are listed in
    advance.  When a list is used up, connecting fails and an exchange finds
    the peer closed. *)

Record Script : Type := mkScript {
  connects : list bool;
  exchanges : list exchange
}.

Definition script_connect (s : Script) : bool * Script :=
  match connects s with
  | [] => (false, s)
  | ok :: rest => (ok, mkScript rest (exchanges s))
  end.

Definition script_exchange (cmd : string) (s : Script) : exchange * Script :=
  match exchanges s with
  | [] => (mkExchange None [], s)
  | ex :: rest => (ex, mkScript (connects s) rest)
  end.

Definition script_env : Env Script := mkEnv script_connect script_exchange.

(** An exchange in which the controller answers [resp] in one piece. *)
Definition answers (resp : string) : exchange := mkExchange None [Chunk resp].


(** ** Occurrences of a marker in a text *)

(** [sep] occurs somewhere in [s]. *)
Definition occurs (sep s : string) : Prop :=
  ∃ a b, s = a +:+ sep +:+ b.

(** [a] is the text of [s] before the first occurrence of [sep], and [b] the
    text after that occurrence. *)
Definition first_cut (sep s a b : string) : Prop :=
  s = a +:+ sep +:+ b
  ∧ ∀ a' b', s = a' +:+ sep +:+ b' → (String.length a ≤ String.length a')%nat.

(** [a] is the text of [s] up to the first occurrence of [sep], or all of
    [s] when [sep] does not occur in it. *)
Definition up_to (sep s a : string) : Prop :=
  (∃ b, first_cut sep s a b) ∨ (¬ occurs sep s ∧ a = s).

(** A client that has never connected, facing a controller that accepts the
    login and then answers a name query without the end marker before it
    closes the connection. *)
Definition unterminated_name_client : ZenseClient Script :=
  mkZenseClient 16713 false false
    (mkScript [true] [answers ">>Login Ok<<"; answers ">>Get Name Kitchen"]) [].

(** ** Reading the record of socket calls *)

Definition is_connect (e : wire_event) : bool :=
  match e with WConnect _ => true | _ => false end.

(** How many connection attempts a stretch of socket calls holds. *)
Definition connects_in (ev : list wire_event) : nat :=
  length (filter (fun e => is_connect e = true) ev).

(** The commands handed to [sendall] in a stretch of socket calls, in
    order. *)
Definition sends_in (ev : list wire_event) : list string :=
  omap (fun e => match e with WSend cmd => Some cmd | _ => None end) ev.

(** The command that [_execute] sends for a pending entry of a concrete
    device: Off before Fade before On. *)
Definition item_cmd (did : Z) (p : Pending) : string :=
  if off p then set_off_cmd did
  else match level p with
       | Some l => fade_cmd did (clamp 0 BRIGHTNESS_SCALE l)
       | None => set_on_cmd did
       end.

(** An entry holds a directive when one of its three fields is set. *)
Definition has_directive (p : Pending) : Prop :=
  off p = true ∨ is_Some (level p) ∨ on p = true.






(** The last character of a text. *)
Fixpoint str_last (s : string) : option ascii :=
  match s with
  | EmptyString => None
  | String c EmptyString => Some c
  | String _ s' => str_last s'
  end.

Definition is_digit_char (c : ascii) : Prop := is_Some (Py.digit_val c).

(** ** Reading the record of bridge events *)

(** The brightness payloads published for device [did], in order: what was
    sent on the brightness-state topic of the device. *)
Definition levels_published (cfg : Config) (did : Z) (tr : list event)
    : list string :=
  omap (fun e =>
          match e with
          | EvPublish t payload _ =>
              if decide (t = t_b_state (topics cfg (uid cfg did)))
              then Some payload else None
          | _ => None
          end) tr.

(** No two neighbours of the list are equal. *)
Fixpoint no_repeat (l : list string) : Prop :=
  match l with
  | x :: l' =>
      match l' with
      | y :: _ => x ≠ y ∧ no_repeat l'
      | [] => True
      end
  | [] => True
  end.

(** The device that a control operation is addressed to. *)
Definition op_target (e : event) : option Z :=
  match e with
  | EvSetOff did _ | EvFade did _ _ | EvSetOn did _ => Some did
  | _ => None
  end.

(** The control operations addressed to [did] in a stretch of events. *)
Definition ops_for (did : Z) (tr : list event) : list event :=
  filter (fun e => op_target e = Some did) tr.

(** The one control operation that a pending entry calls for, with the
    response it got: Off before Fade before On. *)
Definition op_event (did : Z) (p : Pending) (resp : string) : event :=
  if off p then EvSetOff did resp
  else match level p with
       | Some l => EvFade did l resp
       | None => EvSetOn did resp
       end.

(** Events of the discovery step: the device query, a name query, or a
    publication on a discovery topic. *)
Definition is_discovery_event (cfg : Config) (e : event) : Prop :=
  match e with
  | EvGetDevices _ | EvGetName _ _ => True
  | EvPublish t _ _ => ∃ u, t = t_disc (topics cfg u)
  | _ => False
  end.

(** A publication of the state of device [did]. *)
Definition is_state_publish (cfg : Config) (did : Z) (e : event) : Prop :=
  match e with
  | EvPublish t _ _ =>
      t = t_state (topics cfg (uid cfg did))
      ∨ t = t_b_state (topics cfg (uid cfg did))
  | _ => False
  end.

(** The level that a confirmed operation leaves the device at: 0 after
    Off, the level after Fade, the full scale after On. *)
Definition item_level (p : Pending) : Z :=
  if off p then 0
  else match level p with
       | Some l => l
       | None => BRIGHTNESS_SCALE
       end.

(** The two publications that make the state of device [did] known as
    [lvl]. *)
Definition state_pair (cfg : Config) (did lvl : Z) : list event :=
  let l := clamp 0 BRIGHTNESS_SCALE lvl in
  let t := topics cfg (uid cfg did) in
  [EvPublish (t_state t) (if 0 <? l then "ON" else "OFF") true;
   EvPublish (t_b_state t) (Py.str l) true].

(** What an entry of the snapshot contributes to the flush.  The fleet
    entry and an entry without a directive contribute nothing.  An entry of a
    concrete device contributes its one control operation, then the
    publications of its state, then the pacing sleep.  There are no
    publications when the response is empty; when there are some, they are
    the pair for the level that the operation leaves the device at. *)
Definition item_segment (cfg : Config) (item : Z * Pending) (seg : list event)
    : Prop :=
  let '(did, p) := item in
  if decide (did ≠ 0 ∧ has_directive p) then
    ∃ resp pubs,
      seg = op_event did p resp :: pubs ++ [EvSleep (CMD_GAP_SEC cfg)]
      ∧ Forall (is_state_publish cfg did) pubs
      ∧ (resp = "" → pubs = [])
      ∧ (pubs = [] ∨ pubs = state_pair cfg did (item_level p))
  else seg = [].

(** The name queries for [did] in a stretch of events. *)
Definition is_name_query (did : Z) (e : event) : bool :=
  match e with EvGetName d _ => bool_decide (d = did) | _ => false end.

Definition name_queries (did : Z) (tr : list event) : list event :=
  filter (fun e => is_name_query did e = true) tr.

(** The publications on [topic] in a stretch of events. *)
Definition is_publish_on (topic : string) (e : event) : bool :=
  match e with EvPublish t _ _ => bool_decide (t = topic) | _ => false end.

Definition publications_on (topic : string) (tr : list event) : list event :=
  filter (fun e => is_publish_on topic e = true) tr.

(** The events of a flush after [prefix], the events before it. *)
Definition events_since {A} (prefix whole : list A) : list A :=
  drop (length prefix) whole.

(** The invariant of the publisher: for every device the published levels
    never repeat, and the last of them is the one on record. *)
Definition publisher_inv (cfg : Config) {Net} (b : Bridge Net) : Prop :=
  ∀ did,
    no_repeat (levels_published cfg did (trace b))
    ∧ last (levels_published cfg did (trace b))
      = Py.str <$> (last_level_pub b !! uid cfg did).

(** The fields that a flush step leaves alone. *)
Definition flush_frame {Net} (b b' : Bridge Net) : Prop :=
  cmd_q b' = cmd_q b ∧ pending b' = pending b
  ∧ last_level_ts b' = last_level_ts b ∧ known b' = known b.

(** Events of the refresh step: a level query, a publication of the state
    of some device, or a pacing sleep. *)
Definition is_refresh_event (cfg : Config) (e : event) : Prop :=
  match e with
  | EvGetLevel _ _ | EvSleep _ => True
  | EvPublish _ _ _ => ∃ did, is_state_publish cfg did e
  | _ => False
  end.

(** ** A worked flush

    Library functions for examples: integer payloads only, and a constant
    in place of the JSON text. *)
Definition example_lib : PyLib := mkPyLib Py.int (fun _ => "{}").

(** A bridge whose pending map asks for a discovery, Off for device 3 and
    Fade(40) for device 5, facing a controller that answers every request. *)
Definition flush_example : Bridge Script :=
  mkBridge []
    [(0, mkPending false true None);
     (3, mkPending true false None);
     (5, mkPending false false (Some 40))]
    ∅ ∅
    (mkZenseClient 16713 false false
       (mkScript [true]
          [answers ">>Login Ok<<";
           answers ">>Get Devices 3, 5<<";
           answers ">>Get Name 'Kitchen'<<";
           answers ">>Get Name Timeout<<";
           answers ">>Set 3 0 Ok<<";
           answers ">>Fade 5 40 Ok<<"]) [])
    [7] [].

(** The superscript two: a digit for [str.isdigit], and no numeral for
    [int]. *)
Definition superscript_two : ascii := "178"%char.

(** A bridge whose pending map asks for a discovery and for Off for
    device 3, facing a controller that accepts the login, lists its devices
    with a superscript two among the ids, and would confirm the Off. *)
Definition bad_list_example : Bridge Script :=
  mkBridge []
    [(0, mkPending false true None);
     (3, mkPending true false None)]
    ∅ ∅
    (mkZenseClient 16713 false false
       (mkScript [true]
          [answers ">>Login Ok<<";
           answers (">>Get Devices 1," +:+ String superscript_two ",3<<");
           answers ">>Set 3 0 Ok<<"]) [])
    [7] [].

(** A bridge that knows devices 7 and 9 and is asked to discover, facing a
    controller that cannot be reached. *)
Definition unreachable_example : Bridge Script :=
  mkBridge [] [(0, mkPending false true None)] ∅ ∅
    (mkZenseClient 16713 false false (mkScript [false] []) [])
    [7; 9] [].

(** ** Runs of the bridge

    The entry points that the threads of the bridge run: the MQTT callbacks
    [on_connect] and [on_message], one round of the poller, and one round of
    the worker.  The worker is the only thread that touches the pending map,
    the client, the known devices and the record of published levels; the
    callbacks and the poller only add to the queue (and [on_message] to the
    level timestamps, which the worker never reads), so a run of the program
    is a sequence of these steps.  Once an exception has left [worker_loop]
    its thread is gone, and a round of the worker does nothing. *)
Inductive bridge_op : Type :=
  | OpConnect
  | OpMessage (topic payload : string) (now : Q)
  | OpPoll
  | OpWorker (late : list (string * Z * option Z)).

Definition run_op {Net} (E : Env Net) (cfg : Config) (L : PyLib)
    (b : Bridge Net) (o : bridge_op) : Bridge Net :=
  match o with
  | OpConnect => on_connect cfg b
  | OpMessage topic payload now => on_message cfg L topic payload now b
  | OpPoll => poller_tick b
  | OpWorker late =>
      if worker_dead b then b else worker_round E cfg L late b
  end.

Definition run {Net} (E : Env Net) (cfg : Config) (L : PyLib)
    (ops : list bridge_op) (b : Bridge Net) : Bridge Net :=
  foldl (run_op E cfg L) b ops.

(** ** Decoding MQTT messages *)

(** The device id that [on_message] reads out of a topic: the third of at
    least four [/]-separated parts, after the uid prefix. *)
Definition decode_did (cfg : Config) (topic : string) : option Z :=
  let parts := Py.split "/" topic in
  if (length parts <? 4)%nat then None
  else match Py.strip_prefix (UID_PREFIX cfg) (nth 2 parts "") with
       | None => None
       | Some rest => Py.int rest
       end.

(** The message is a brightness command for [did] with a numeric payload:
    the messages that [on_message] turns into a Level intent for [did]. *)
Definition level_message_for (cfg : Config) (L : PyLib) (did : Z)
    (topic payload : string) : bool :=
  bool_decide (decode_did cfg topic = Some did)
  && Py.endswith "/brightness/set" topic
  && bool_decide (is_Some (_to_int L (Py.strip payload))).

(** The message is an ON command for [did]. *)
Definition on_message_for (cfg : Config) (did : Z) (topic payload : string)
    : bool :=
  bool_decide (decode_did cfg topic = Some did)
  && negb (Py.endswith "/brightness/set" topic)
  && Py.endswith "/set" topic
  && bool_decide (Py.upper (Py.strip payload) = "ON").

(** The clock reading of the most recent Level intent for [did] in a run. *)
Definition last_level_time (cfg : Config) (L : PyLib) (did : Z)
    (ops : list bridge_op) : option Q :=
  foldl (fun acc o =>
           match o with
           | OpMessage topic payload now =>
               if level_message_for cfg L did topic payload then Some now
               else acc
           | _ => acc
           end) None ops.

(** A run in which Fade(40) for device 5 is requested at time 100 and
    flushed, facing a controller that answers. *)
Definition level_run : list bridge_op :=
  [OpMessage "homeassistant/zense_bridge/zensebridge_5/brightness/set" "40" 100;
   OpWorker []].

Definition level_run_net : Script :=
  mkScript [true] [answers ">>Login Ok<<"; answers ">>Fade 5 40 Ok<<"].

(** ** Further readings of the records *)

(** The text that a list of received parts adds up to. *)
Fixpoint concat_str (parts : list string) : string :=
  match parts with
  | [] => ""
  | p :: rest => p +:+ concat_str rest
  end.

(** What a client operation may cost on the socket: at most [nc] connection
    attempts and [ns] calls of [sendall], the access code untouched. *)
Definition wire_effort {Net} (c c' : ZenseClient Net) (nc ns : nat) : Prop :=
  code c' = code c
  ∧ ∃ ev, wire c' = wire c ++ ev
         ∧ (connects_in ev ≤ nc)%nat ∧ (length (sends_in ev) ≤ ns)%nat.

(** The session is either fully open (socket and login) or fully closed. *)
Definition session_settled {Net} (c : ZenseClient Net) : Prop :=
  sock c = logged_in c.

(** A client with a session open, facing a controller that sends its answer
    in three pieces and some more text after it. *)
Definition piecewise_script : list recv_item :=
  [Chunk ">>Get "; Chunk "42"; Chunk "<<>>"; Chunk "late"].

(** The characters of a text, in order. *)
Fixpoint chars (s : string) : list ascii :=
  match s with
  | EmptyString => []
  | String c s' => c :: chars s'
  end.

(** [sep.join(parts)] *)
Fixpoint join (sep : string) (parts : list string) : string :=
  match parts with
  | [] => ""
  | [p] => p
  | p :: rest => p +:+ sep +:+ join sep rest
  end.

(** The five topics of a device, by role. *)
Inductive role : Type := RCmd | RState | RBCmd | RBState | RDisc.

Definition topic_of (cfg : Config) (r : role) (did : Z) : string :=
  let t := topics cfg (uid cfg did) in
  match r with
  | RCmd => t_cmd t
  | RState => t_state t
  | RBCmd => t_b_cmd t
  | RBState => t_b_state t
  | RDisc => t_disc t
  end.

(** The layout of topics that [on_message] relies on when it reads the
    device out of the third part of a topic: [BASE] has exactly two parts,
    and the uid prefix holds no [/]. *)
Definition two_part_base (cfg : Config) : Prop :=
  ∃ a b, BASE cfg = a +:+ "/" +:+ b
         ∧ ("/"%char ∉ chars a) ∧ ("/"%char ∉ chars b)
         ∧ ("/"%char ∉ chars (UID_PREFIX cfg)).

(** A configuration with a base topic of a single part. *)
Definition flat_config : Config :=
  {| ZENSE_CODE := 16713;
     CMD_GAP_SEC := 1 # 10;
     STATE_POLL_SEC := 600;
     LEVEL_ON_WINDOW_SEC := 1;
     DISCOVERY_PREFIX := "homeassistant";
     BASE := "zense";
     DOMAIN := "light";
     UID_PREFIX := "zensebridge_" |}.


(** ** Batches of queue tuples *)

(** [_accumulate] over a batch of queue tuples, in arrival order. *)
Definition accumulate_batch (batch : list (string * Z * option Z))
    (pending : list (Z * Pending)) : list (Z * Pending) :=
  foldl (fun pd item => accumulate_pending item.1.1 item.1.2 item.2 pd)
        pending batch.

(** At most one directive is pending, and a pending level lies between 1
    and the brightness scale. *)
Definition exclusive (p : Pending) : Prop :=
  match level p with
  | Some l => 1 ≤ l ≤ BRIGHTNESS_SCALE ∧ off p = false ∧ on p = false
  | None => off p = false ∨ on p = false
  end.

(** The pending map holds one entry per key, and the entry of every
    concrete device is exclusive. *)
Definition pending_ok (pd : list (Z * Pending)) : Prop :=
  NoDup (pd.*1) ∧ ∀ did p, (did, p) ∈ pd → did ≠ 0 → exclusive p.



(** A queue tuple that leaves the discovery flag of the fleet entry as it
    is: anything but an Off or a Level addressed to device 0. *)
Definition spares_discovery (item : string * Z * option Z) : Prop :=
  item.1.2 = 0 → item.1.1 ≠ "off" ∧ item.1.1 ≠ "level".


(** The bridge as [_execute] finds it when [worker_loop] has taken [item]
    from the queue [item :: q] and [late] has arrived during the debounce
    sleep. *)
Definition after_drain {Net} (item : string * Z * option Z)
    (q late : list (string * Z * option Z)) (b : Bridge Net) : Bridge Net :=
  {| cmd_q := drop 200 (q ++ late);
     pending := accumulate_batch (item :: take 200 (q ++ late)) (pending b);
     last_level_pub := last_level_pub b; last_level_ts := last_level_ts b;
     z := z b; known := known b; trace := trace b |}.

(** A controller that accepts the login, lists device 5, names it and
    confirms one Fade. *)
Definition queue_net : Script :=
  mkScript [true]
    [answers ">>Login Ok<<"; answers ">>Get Devices 5<<";
     answers ">>Get Name 'Lamp'<<"; answers ">>Fade 5 40 Ok<<"].

(** A bridge right after [on_connect], with a brightness command and an ON
    for device 5 behind the discovery request in its queue. *)
Definition queue_example : Bridge Script :=
  put ("on", 5, None)
    (put ("level", 5, Some 40)
       (on_connect default_config (Bridge_init default_config queue_net))).

(** A client that has never connected, facing a controller that accepts the
    login and confirms one Fade. *)
Definition fresh_client : ZenseClient Script :=
  mkZenseClient 16713 false false level_run_net [].

(** ** What the threads may touch *)

Definition is_worker_op (o : bridge_op) : bool :=
  match o with OpWorker _ => true | _ => false end.

(** From [b] to [b'] the queue has only grown, and the state that belongs
    to the worker is as it was. *)
Definition only_enqueues {Net} (b b' : Bridge Net) : Prop :=
  z b' = z b ∧ known b' = known b ∧ pending b' = pending b
  ∧ last_level_pub b' = last_level_pub b
  ∧ ∃ items, cmd_q b' = cmd_q b ++ items.

(** ** The flush, entry by entry *)






(** A numeral of 4301 digits, one more than [int] converts. *)
Definition long_numeral : string := Nat.iter 4301 (String "1") "".
(** * Properties *)

(** ** Dictionaries *)

Section DictFacts.
Context {K V : Type} `{EqDecision K}.
Implicit Types (k : K) (v : V) (d : list (K * V)).

Lemma dict_get_set_eq k v d : dict_get k (dict_set k v d) = Some v.
Proof.
induction d as [|[k' v'] d IH]; simpl.
- by rewrite decide_True.
- destruct (decide (k = k')) as [->|Hne]; simpl.
  + by rewrite decide_True.
  + by rewrite decide_False.
Qed.

Lemma dict_get_set_ne k k' v d :
k ≠ k' → dict_get k' (dict_set k v d) = dict_get k' d.
Proof.
intros Hne. induction d as [|[k0 v0] d IH]; simpl.
- by rewrite decide_False.
- destruct (decide (k = k0)) as [->|Hk]; simpl.
  + by rewrite !decide_False.
  + destruct (decide (k' = k0)); done.
Qed.

Lemma dict_set_keys_NoDup k v d :
NoDup (d.*1) → NoDup ((dict_set k v d).*1).
Proof.
induction d as [|[k' v'] d IH]; simpl; intros Hnd.
- apply NoDup_singleton.
- inversion Hnd as [|? ? Hnotin Hnd']; subst.
  destruct (decide (k = k')) as [->|Hk]; simpl.
  + by constructor.
  + constructor; [|by apply IH].
    intros Hin. apply Hnotin. clear -Hin Hk.
    induction d as [|[k0 v0] d IH]; simpl in *.
    * apply list_elem_of_singleton in Hin. congruence.
    * destruct (decide (k = k0)) as [->|]; simpl in *; [done|].
      apply elem_of_cons in Hin as [->|Hin]; [left|right; auto].
Qed.
End DictFacts.

(** ** [scale_brightness] *)

Lemma scale_brightness_upper_range :
  Forall (fun r =>
            scale_brightness r = (200 * r + 255) / 510
            ∧ 2 * Z.abs (255 * scale_brightness r - 100 * r) ≤ 250)
         (seqZ 101 155).
Proof. apply (bool_decide_unpack _). vm_compute. reflexivity. Qed.

(** C6.  [scale_brightness] sends 255 to 100 and 128 to 50; an input in
    [0, 100] is returned unchanged; a negative input gives 0; an input above
    100 is first cut down to 255 and then rescaled by [round(raw*100/255)],
    the integer nearest to that quotient: the two differ by at most
    125/255, so the rounding is never a tie, nor close to one. *)
Theorem scale_brightness_spec :
  scale_brightness 255 = 100
  ∧ scale_brightness 128 = 50
  ∧ (∀ raw, 0 ≤ raw ≤ 100 → scale_brightness raw = raw)
  ∧ (∀ raw, raw < 0 → scale_brightness raw = 0)
  ∧ (∀ raw, 100 < raw →
       let r := Z.min raw 255 in
       scale_brightness raw = py_round (inject_Z r * 100 / 255)%Q
       ∧ scale_brightness raw = scale_brightness r
       ∧ 2 * Z.abs (255 * scale_brightness raw - 100 * r) ≤ 250).
Proof.
  split; [reflexivity|]. split; [reflexivity|].
  split; [|split].
  - intros raw [H0 H1]. unfold scale_brightness, BRIGHTNESS_SCALE.
    destruct (Z.ltb_spec raw 0); [lia|].
    destruct (Z.leb_spec raw 100); [done|lia].
  - intros raw H. unfold scale_brightness.
    destruct (Z.ltb_spec raw 0); [done|lia].
  - intros raw H r.
    assert (Hr : 101 ≤ r < 101 + 155) by (unfold r; lia).
    assert (Heq : scale_brightness raw = scale_brightness r).
    { unfold scale_brightness, BRIGHTNESS_SCALE.
      destruct (Z.ltb_spec raw 0); [lia|].
      destruct (Z.leb_spec raw 100); [lia|].
      destruct (Z.ltb_spec r 0); [lia|].
      destruct (Z.leb_spec r 100); [lia|].
      fold r. replace (Z.min r 255) with r by lia. done. }
    pose proof scale_brightness_upper_range as Hall.
    rewrite Forall_forall in Hall.
    destruct (Hall r) as [_ Hnear]; [by apply elem_of_seqZ|].
    split; [|split; [done|by rewrite Heq]].
    rewrite Heq. unfold scale_brightness, BRIGHTNESS_SCALE.
    destruct (Z.ltb_spec r 0); [lia|].
    destruct (Z.leb_spec r 100); [lia|].
    replace (Z.min r 255) with r by lia.
    unfold py_round.
    assert (E : (inject_Z r / inject_Z 255 * inject_Z 100 == inject_Z r * 100 / 255)%Q)
      by (unfold inject_Z; field).
    rewrite (Qfloor_comp _ _ E).
    by rewrite E.
Qed.

Lemma scale_brightness_spec_witness :
  scale_brightness 42 = 42 ∧ scale_brightness (-7) = 0
  ∧ scale_brightness 300 = scale_brightness 255.
Proof.
  destruct scale_brightness_spec as (_ & _ & Hid & Hneg & Hup).
  split; [apply Hid; lia|]. split; [apply Hneg; lia|].
  destruct (Hup 300) as (_ & H & _); [lia|]. exact H.
Defined.

(** ** The aggregator *)

Lemma intent_kind_not_fleet i :
  bool_decide (intent_kind i = "discover" ∨ intent_kind i = "refresh") = false.
Proof. by destruct i. Qed.

(** One merge step is one row of the table, applied to the entry of the
    device (a fresh [Pending()] when there is none). *)
Lemma accumulate_pending_table did i pd :
  accumulate_pending (intent_kind i) did (intent_val i) pd
  = dict_set did (table_rule (default Pending_new (dict_get did pd)) i) pd.
Proof.
  unfold accumulate_pending. rewrite intent_kind_not_fleet.
  f_equal. destruct i as [| |v]; simpl.
  - done.
  - destruct (default Pending_new (dict_get did pd)) as [o n [l|]];
      destruct o, n; done.
  - unfold BRIGHTNESS_SCALE.
    destruct (Z.eqb_spec (clamp 0 100 v) 0) as [E|E].
    + by rewrite decide_True.
    + by rewrite decide_False.
Qed.

Lemma accumulate_intents_get did l pd :
  dict_get did (accumulate_intents did l pd)
  = match l with
    | [] => dict_get did pd
    | _ :: _ => Some (foldl table_rule (default Pending_new (dict_get did pd)) l)
    end.
Proof.
  revert pd. induction l as [|i l IH]; intros pd; [done|].
  unfold accumulate_intents in *. simpl.
  rewrite IH, accumulate_pending_table, dict_get_set_eq. simpl.
  by destruct l.
Qed.

Lemma accumulate_intents_other did did' l pd :
  did ≠ did' →
  dict_get did' (accumulate_intents did l pd) = dict_get did' pd.
Proof.
  intros Hne. revert pd. induction l as [|i l IH]; intros pd; [done|].
  unfold accumulate_intents in *. simpl.
  by rewrite IH, accumulate_pending_table, dict_get_set_ne.
Qed.

Lemma last_directive_snoc l i :
  last_directive (l ++ [i])
  = match i with IOn => last_directive l | _ => Some i end.
Proof. unfold last_directive. by rewrite foldl_app. Qed.

Lemma has_on_snoc l i :
  has_on (l ++ [i]) = has_on l || bool_decide (i = IOn).
Proof. unfold has_on. rewrite existsb_app. simpl. by rewrite orb_false_r. Qed.

Lemma last_directive_not_on l : last_directive l ≠ Some IOn.
Proof.
  induction l as [|i l IH] using rev_ind; [done|].
  rewrite last_directive_snoc. by destruct i.
Qed.

Lemma table_rule_new_directive i :
  i ≠ IOn → off (table_rule Pending_new i) = true
            ∨ is_Some (level (table_rule Pending_new i)).
Proof.
  destruct i as [| |v]; simpl; [by left|done|]. intros _.
  destruct (decide (clamp 0 100 v = 0)); simpl; [by left|by right].
Qed.

Lemma foldl_table_rule_verdict l :
  foldl table_rule Pending_new l = verdict l.
Proof.
  induction l as [|i l IH] using rev_ind; [done|].
  rewrite foldl_app. simpl. rewrite IH. unfold verdict.
  rewrite last_directive_snoc, has_on_snoc.
  destruct i as [| |v]; simpl; [done| |done].
  destruct (last_directive l) as [j|] eqn:Hj; simpl.
  - assert (Hne : j ≠ IOn) by (intros ->; by eapply last_directive_not_on).
    destruct (table_rule_new_directive j Hne) as [Hoff|[x Hx]].
    + by rewrite Hoff.
    + rewrite Hx. by destruct (off (table_rule Pending_new j)).
  - by rewrite orb_true_r.
Qed.

Lemma has_on_Permutation l l' : Permutation l l' → has_on l = has_on l'.
Proof.
  intros HP. unfold has_on.
  apply eq_true_iff_eq. rewrite !existsb_exists.
  split; intros (x & Hin & Hx); exists x; split; try done.
  - by eapply Permutation_in.
  - eapply Permutation_in; [|done]. by symmetry.
Qed.

(** C7.  Whatever is pending, merging a Level intent whose clamped value is
    0 leaves exactly the pending map that merging an Off intent for the same
    device leaves: the entry of the device becomes off=true, on=false,
    level=null. *)
Theorem level_zero_is_off (pd : list (Z * Pending)) (did : Z) (val : option Z) :
  clamp 0 BRIGHTNESS_SCALE (default 0 val) = 0 →
  accumulate_pending "level" did val pd = accumulate_pending "off" did None pd
  ∧ dict_get did (accumulate_pending "level" did val pd)
    = Some (mkPending true false None).
Proof.
  intros Hz. unfold accumulate_pending. simpl. rewrite Hz. simpl.
  split; [done|]. by rewrite dict_get_set_eq.
Qed.

Lemma level_zero_is_off_witness :
  accumulate_pending "level" 7 (Some (-3)) [(7, mkPending false true None)]
  = accumulate_pending "off" 7 None [(7, mkPending false true None)]
  ∧ dict_get 7 (accumulate_pending "level" 7 (Some (-3))
                                   [(7, mkPending false true None)])
    = Some (mkPending true false None).
Proof. apply (level_zero_is_off _ 7 (Some (-3))). reflexivity. Defined.

(** C1, as the specification states it, fails: the two arrival orders of one
    Off and one Level(50) for device 5 leave different pending states (the
    later of the two wins), although the sequence holds a single Level. *)
Lemma arrival_order_matters :
  Permutation [IOff; ILevel 50] [ILevel 50; IOff]
  ∧ dict_get 5 (accumulate_intents 5 [IOff; ILevel 50] [])
    = Some (mkPending false false (Some 50))
  ∧ dict_get 5 (accumulate_intents 5 [ILevel 50; IOff] [])
    = Some (mkPending true false None)
  ∧ accumulate_intents 5 [IOff; ILevel 50] []
    ≠ accumulate_intents 5 [ILevel 50; IOff] [].
Proof.
  split; [apply perm_swap|]. split; [reflexivity|]. split; [reflexivity|].
  vm_compute. discriminate.
Qed.

(** C1, amended.  For a device with nothing pending, merging a non-empty
    sequence of Off/On/Level intents leaves the state that the rows of the
    precedence table give when applied in arrival order.  That state is
    decided by the last Off or Level intent of the sequence: Off, or a Level
    that clamps to 0, leaves off=true, on=false, level=null; any other Level
    leaves its clamped value with on=false, off=false; without any Off or
    Level the state has on=true exactly when an On arrived.  Hence two
    arrival orders of the same intents that agree on their last Off-or-Level
    intent leave the same state, and entries of other devices are not
    touched. *)
Theorem accumulate_last_writer_wins
    (did : Z) (l l' : list intent) (pd : list (Z * Pending)) :
  l ≠ [] →
  dict_get did pd = None →
  dict_get did (accumulate_intents did l pd)
    = Some (foldl table_rule Pending_new l)
  ∧ foldl table_rule Pending_new l = verdict l
  ∧ (Permutation l l' → last_directive l = last_directive l' →
     dict_get did (accumulate_intents did l' pd)
     = dict_get did (accumulate_intents did l pd))
  ∧ (∀ did', did ≠ did' →
     dict_get did' (accumulate_intents did l pd) = dict_get did' pd).
Proof.
  intros Hl Hnone. repeat split.
  - rewrite accumulate_intents_get, Hnone. by destruct l.
  - apply foldl_table_rule_verdict.
  - intros HP Hlast.
    assert (Hl' : l' ≠ []).
    { intros ->. apply Permutation_sym, Permutation_nil in HP. done. }
    rewrite !accumulate_intents_get, Hnone. simpl.
    destruct l as [|i l]; [done|]. destruct l' as [|i' l']; [done|].
    f_equal. rewrite !foldl_table_rule_verdict. unfold verdict.
    rewrite Hlast. by rewrite (has_on_Permutation _ _ HP).
  - intros did' Hne. by apply accumulate_intents_other.
Qed.

Lemma accumulate_last_writer_wins_witness :
  dict_get 5 (accumulate_intents 5 [ILevel 30; IOn; IOff; ILevel 50] [])
    = Some (foldl table_rule Pending_new [ILevel 30; IOn; IOff; ILevel 50])
  ∧ foldl table_rule Pending_new [ILevel 30; IOn; IOff; ILevel 50]
    = mkPending false false (Some 50)
  ∧ dict_get 5 (accumulate_intents 5 [IOn; IOff; ILevel 30; ILevel 50] [])
    = dict_get 5 (accumulate_intents 5 [ILevel 30; IOn; IOff; ILevel 50] []).
Proof.
  destruct (accumulate_last_writer_wins 5
              [ILevel 30; IOn; IOff; ILevel 50]
              [IOn; IOff; ILevel 30; ILevel 50] [])
    as (H1 & H2 & H3 & _); [discriminate|reflexivity|].
  split; [exact H1|]. split; [rewrite H2; reflexivity|].
  apply H3; [|reflexivity].
  apply (perm_trans (l' := [IOn; ILevel 30; IOff; ILevel 50])).
  - apply perm_swap.
  - apply perm_skip, perm_swap.
Defined.

(** ** Text *)

Example split_demo :
  Py.split "/" "homeassistant/zense_bridge/zensebridge_5/set"
  = ["homeassistant"; "zense_bridge"; "zensebridge_5"; "set"].
Proof. reflexivity. Qed.
Example split_demo2 : Py.split "<<" "a<<<b<<" = ["a"; "<b"; ""].
Proof. reflexivity. Qed.
Example strip_demo :
  Py.strip_quote (Py.strip "  'Kitchen lamp' ") = "Kitchen lamp".
Proof. reflexivity. Qed.
Example int_demo :
  Py.int " -1_000 " = Some (-1000) ∧ Py.int "1__0" = None
  ∧ Py.int "007" = Some 7 ∧ Py.int "" = None ∧ Py.int "-" = None.
Proof. repeat split. Qed.
Example str_demo :
  Py.str 105 = "105" ∧ Py.str (-3) = "-3" ∧ Py.upper "oN" = "ON"
  ∧ Py.endswith "/set" "a/b/set" = true ∧ Py.contains "<<" "abc<" = false.
Proof. repeat split; vm_compute; reflexivity. Qed.

(** Where [strip], [isdigit] and [int] part ways: [isdigit] accepts the
    superscript two and [int] refuses it; [strip] removes the separator 28
    and [int] does not skip it; [int] refuses a numeral of 4301 digits;
    [upper] writes the sharp s as two letters. *)
Example int_refuses :
  Py.isdigit (String superscript_two "") = true
  ∧ Py.int (String superscript_two "") = None
  ∧ Py.strip (String "028" "7") = "7"
  ∧ Py.int (String "028" "7") = None
  ∧ Py.isdigit long_numeral = true
  ∧ Py.int long_numeral = None
  ∧ Py.upper (String "223" "") = "SS".
Proof. repeat split; vm_compute; reflexivity. Qed.

Section Text.
Implicit Types (s p sep a b r : string).

Lemma str_app_nil_l s : "" +:+ s = s.
Proof. done. Qed.

Lemma str_app_cons c a b : String c a +:+ b = String c (a +:+ b).
Proof. done. Qed.

Lemma str_app_nil_r s : s +:+ "" = s.
Proof. induction s as [|c s IH]; [done|]. by rewrite str_app_cons, IH. Qed.

Lemma str_app_assoc a b r : (a +:+ b) +:+ r = a +:+ (b +:+ r).
Proof. induction a as [|c a IH]; [done|]. by rewrite !str_app_cons, IH. Qed.

Lemma str_length_app a b :
  String.length (a +:+ b) = (String.length a + String.length b)%nat.
Proof. induction a as [|c a IH]; [done|]. rewrite str_app_cons. simpl. by rewrite IH. Qed.

Lemma strip_prefix_Some p s r : Py.strip_prefix p s = Some r ↔ s = p +:+ r.
Proof.
  revert s. induction p as [|c p IH]; intros s; simpl.
  - rewrite str_app_nil_l. split; congruence.
  - destruct s as [|d s]; [by rewrite str_app_cons|].
    rewrite str_app_cons. destruct (decide (c = d)) as [->|Hne].
    + rewrite IH. split; congruence.
    + split; [done|]. intros [=]. done.
Qed.

Lemma strip_prefix_app p r : Py.strip_prefix p (p +:+ r) = Some r.
Proof. by apply strip_prefix_Some. Qed.

Lemma find_first_Some sep s a b :
  Py.find_first sep s = Some (a, b) → first_cut sep s a b.
Proof.
  revert a b. induction s as [|c s IH]; intros a b; simpl.
  - destruct (Py.strip_prefix sep "") as [r|] eqn:E; [|done].
    intros [= <- <-]. apply strip_prefix_Some in E.
    split; [by rewrite str_app_nil_l|]. intros; simpl; lia.
  - destruct (Py.strip_prefix sep (String c s)) as [r|] eqn:E.
    + intros [= <- <-]. apply strip_prefix_Some in E.
      split; [by rewrite str_app_nil_l|]. intros; simpl; lia.
    + destruct (Py.find_first sep s) as [[a0 b0]|] eqn:F; [|done].
      intros [= <- <-]. destruct (IH _ _ eq_refl) as [Hs Hmin].
      split; [by rewrite str_app_cons, <-Hs|].
      intros a' b' Ha'. destruct a' as [|c' a'].
      * rewrite str_app_nil_l in Ha'. apply strip_prefix_Some in Ha'. congruence.
      * rewrite str_app_cons in Ha'. injection Ha' as _ Ha'.
        simpl. specialize (Hmin _ _ Ha'). lia.
Qed.

Lemma find_first_None sep s : Py.find_first sep s = None ↔ ¬ occurs sep s.
Proof.
  split.
  - induction s as [|c s IH]; simpl.
    + destruct (Py.strip_prefix sep "") eqn:E; [done|].
      intros _ (a & b & H). destruct a as [|c a]; [|by rewrite str_app_cons in H].
      rewrite str_app_nil_l in H. apply strip_prefix_Some in H. congruence.
    + destruct (Py.strip_prefix sep (String c s)) eqn:E; [done|].
      destruct (Py.find_first sep s) as [[a0 b0]|] eqn:F; [done|].
      intros _ (a & b & H). destruct a as [|c' a].
      * rewrite str_app_nil_l in H. apply strip_prefix_Some in H. congruence.
      * rewrite str_app_cons in H. injection H as _ H.
        apply IH; [done|]. by exists a, b.
  - intros Hno. destruct (Py.find_first sep s) as [[a b]|] eqn:F; [|done].
    destruct Hno. apply find_first_Some in F as [-> _]. by exists a, b.
Qed.

Lemma first_cut_unique sep s a b a' b' :
  first_cut sep s a b → first_cut sep s a' b' → a = a' ∧ b = b'.
Proof.
  intros [H1 M1] [H2 M2].
  pose proof (M1 _ _ H2) as L1. pose proof (M2 _ _ H1) as L2.
  assert (Hlen : String.length a = String.length a') by lia.
  clear M1 M2 L1 L2. subst s. revert a' H2 Hlen.
  induction a as [|c a IH]; intros [|c' a'] H2 Hlen; try done.
  - rewrite !str_app_nil_l in H2. by apply (inj (String.append sep)) in H2.
  - rewrite !str_app_cons in H2. injection H2 as -> H2. simpl in Hlen.
    destruct (IH a') as [-> ->]; [done|lia|done].
Qed.

Lemma find_first_cut sep s a b :
  first_cut sep s a b → Py.find_first sep s = Some (a, b).
Proof.
  intros Hcut. destruct (Py.find_first sep s) as [[a' b']|] eqn:F.
  - apply find_first_Some in F.
    by destruct (first_cut_unique _ _ _ _ _ _ Hcut F) as [-> ->].
  - apply find_first_None in F. destruct F. destruct Hcut as [-> _]. by exists a, b.
Qed.

Lemma contains_occurs sep s : Py.contains sep s = true ↔ occurs sep s.
Proof.
  unfold Py.contains. rewrite bool_decide_eq_true.
  destruct (Py.find_first sep s) as [[a b]|] eqn:F.
  - split; [|by eauto]. intros _. apply find_first_Some in F as [-> _]. by exists a, b.
  - apply find_first_None in F. split; [by intros [? ?]|done].
Qed.

Lemma split_fuel_enough sep n m s :
  sep ≠ "" → (String.length s ≤ n)%nat → (String.length s ≤ m)%nat →
  Py.split_fuel n sep s = Py.split_fuel m sep s.
Proof.
  intros Hsep. revert m s. induction n as [|n IH]; intros m s Hn Hm.
  - destruct s; [|simpl in Hn; lia].
    destruct m; simpl; destruct sep; done.
  - destruct m as [|m].
    + destruct s; [|simpl in Hm; lia]. simpl; destruct sep; done.
    + simpl. destruct (Py.find_first sep s) as [[a b]|] eqn:F; [|done].
      f_equal. apply find_first_Some in F as [-> _].
      rewrite !str_length_app in Hn, Hm.
      assert (0 < String.length sep)%nat by (destruct sep; [done|simpl; lia]).
      apply IH; lia.
Qed.

Lemma split_cut sep s a b :
  sep ≠ "" → first_cut sep s a b → Py.split sep s = a :: Py.split sep b.
Proof.
  intros Hsep Hcut. unfold Py.split.
  pose proof (find_first_cut _ _ _ _ Hcut) as F. destruct Hcut as [-> _].
  assert (0 < String.length sep)%nat by (destruct sep; [done|simpl; lia]).
  destruct (String.length (a +:+ sep +:+ b)) as [|n] eqn:Hlen.
  - rewrite !str_length_app in Hlen. lia.
  - simpl. rewrite F. f_equal. apply split_fuel_enough; [done| |done].
    rewrite !str_length_app in Hlen. lia.
Qed.

Lemma split_absent sep s : ¬ occurs sep s → Py.split sep s = [s].
Proof.
  intros Hno. apply find_first_None in Hno. unfold Py.split.
  destruct (String.length s); simpl; by rewrite Hno.
Qed.

Lemma split_head sep s a :
  sep ≠ "" → up_to sep s a → nth 0 (Py.split sep s) "" = a.
Proof.
  intros Hsep [[b Hcut]|[Hno ->]].
  - by rewrite (split_cut _ _ _ _ Hsep Hcut).
  - by rewrite split_absent.
Qed.

(** The index [1] of [s.split(sep)] exists whenever [sep in s]. *)
Lemma split_second sep s :
  sep ≠ "" → Py.contains sep s = true → is_Some (Py.split sep s !! 1%nat).
Proof.
  intros Hsep Hc. unfold Py.contains in Hc. apply bool_decide_eq_true in Hc.
  destruct Hc as [[a b] F]. apply find_first_Some in F.
  rewrite (split_cut _ _ _ _ Hsep F). simpl.
  unfold Py.split. destruct (String.length b); simpl;
    destruct (Py.find_first sep b) as [[? ?]|]; simpl; eauto.
Qed.

Lemma between_cut p e s pre rest seg body :
  p ≠ "" → e ≠ "" →
  first_cut p s pre rest → up_to p rest seg → up_to e seg body →
  between p e s = body.
Proof.
  intros Hp He Hcut Hseg Hbody. unfold between.
  rewrite (split_cut _ _ _ _ Hp Hcut). simpl.
  by rewrite (split_head _ _ _ Hp Hseg), (split_head _ _ _ He Hbody).
Qed.

End Text.

(** ** Parsing the controller's replies *)

Lemma up_to_exists sep s : ∃ a, up_to sep s a.
Proof.
  destruct (Py.find_first sep s) as [[a b]|] eqn:F.
  - exists a. left. exists b. by apply find_first_Some.
  - exists s. right. split; [by apply find_first_None|done].
Qed.

Lemma first_cut_exists sep s : occurs sep s → ∃ a b, first_cut sep s a b.
Proof.
  intros Hocc. destruct (Py.find_first sep s) as [[a b]|] eqn:F.
  - exists a, b. by apply find_first_Some.
  - apply find_first_None in F. done.
Qed.

Lemma parse_name_absent did resp :
  ¬ occurs ">>Get Name " resp → parse_name did resp = "Device_" +:+ Py.str did.
Proof.
  intros Hno. unfold parse_name.
  destruct (Py.contains ">>Get Name " resp) eqn:E; [|done].
  apply contains_occurs in E. done.
Qed.

Lemma parse_name_present did resp pre rest seg body :
  first_cut ">>Get Name " resp pre rest →
  up_to ">>Get Name " rest seg →
  up_to "<<" seg body →
  parse_name did resp
  = if bool_decide (Py.strip_quote (Py.strip body) ≠ ""
                    ∧ Py.lower (Py.strip_quote (Py.strip body)) ≠ "timeout")
    then Py.strip_quote (Py.strip body)
    else "Device_" +:+ Py.str did.
Proof.
  intros Hcut Hseg Hbody. unfold parse_name.
  assert (Hc : Py.contains ">>Get Name " resp = true).
  { apply contains_occurs. destruct Hcut as [-> _]. by eexists _, _. }
  rewrite Hc.
  rewrite (between_cut ">>Get Name " "<<" resp pre rest seg body) by done.
  simpl. set (name := Py.strip_quote (Py.strip body)).
  assert (negb (bool_decide (name = ""))
          && negb (bool_decide (Py.lower name = "timeout"))
          = bool_decide (name ≠ "" ∧ Py.lower name ≠ "timeout")) as ->; [|done].
  apply eq_true_iff_eq.
  by rewrite andb_true_iff, !negb_true_iff, !bool_decide_eq_false,
    bool_decide_eq_true.
Qed.

(** C9, as the specification states it, fails: a reply that carries the
    prefix but is cut off before the end marker is not turned into the
    fallback name; the text after the prefix is returned as the name. *)
Lemma get_name_without_end_marker :
  (send_command script_env (">>Get Name " +:+ Py.str 5 +:+ "<<")
     default_retry unterminated_name_client).1 = ">>Get Name Kitchen"
  ∧ ¬ occurs "<<" ">>Get Name Kitchen"
  ∧ (get_name script_env 5 unterminated_name_client).1 = "Kitchen"
  ∧ "Kitchen" ≠ "Device_" +:+ Py.str 5.
Proof.
  split; [vm_compute; reflexivity|].
  split; [|split; [vm_compute; reflexivity|vm_compute; discriminate]].
  rewrite <-contains_occurs. vm_compute. discriminate.
Qed.

(** C9, amended.  [get_name(did)] looks only for the prefix.  Without it
    the result is the fallback name "Device_{did}".  With it, the name is the
    text that follows the first occurrence of the prefix, cut at the next
    occurrence of the prefix and then at the first end marker when there is
    one (a missing end marker is not a failure: the text then runs to the end
    of the reply), with surrounding white space and then surrounding quote
    characters removed.  That name is returned when it is non-empty and is
    not "timeout" in any letter case; otherwise the result is the fallback
    name.  The method always returns one of the two. *)
Theorem get_name_parsed
    {Net : Type} (E : Env Net) (did : Z) (c c' : ZenseClient Net)
    (resp : string) :
  send_command E (">>Get Name " +:+ Py.str did +:+ "<<") default_retry c
  = (resp, c') →
  ∃ nm,
    get_name E did c = (nm, c')
    ∧ (¬ occurs ">>Get Name " resp → nm = "Device_" +:+ Py.str did)
    ∧ (occurs ">>Get Name " resp →
       ∃ pre rest seg body,
         first_cut ">>Get Name " resp pre rest
         ∧ up_to ">>Get Name " rest seg
         ∧ up_to "<<" seg body)
    ∧ (∀ pre rest seg body,
         first_cut ">>Get Name " resp pre rest →
         up_to ">>Get Name " rest seg →
         up_to "<<" seg body →
         let name := Py.strip_quote (Py.strip body) in
         (name ≠ "" → Py.lower name ≠ "timeout" → nm = name)
         ∧ (name = "" ∨ Py.lower name = "timeout" →
            nm = "Device_" +:+ Py.str did)).
Proof.
  intros Hsend. exists (parse_name did resp). split; [|split; [|split]].
  - unfold get_name. by rewrite Hsend.
  - apply parse_name_absent.
  - intros Hocc. destruct (first_cut_exists _ _ Hocc) as (pre & rest & Hcut).
    destruct (up_to_exists ">>Get Name " rest) as [seg Hseg].
    destruct (up_to_exists "<<" seg) as [body Hbody].
    by exists pre, rest, seg, body.
  - intros pre rest seg body Hcut Hseg Hbody name.
    rewrite (parse_name_present _ _ _ _ _ _ Hcut Hseg Hbody). fold name.
    destruct (decide (name ≠ "" ∧ Py.lower name ≠ "timeout")) as [Hn|Hn].
    + rewrite bool_decide_eq_true_2 by done. split; [done|]. tauto.
    + rewrite bool_decide_eq_false_2 by done. split; [|done]. tauto.
Qed.

Lemma get_name_parsed_witness :
  send_command script_env (">>Get Name " +:+ Py.str 5 +:+ "<<") default_retry
    unterminated_name_client
  = (">>Get Name Kitchen",
     (send_command script_env (">>Get Name " +:+ Py.str 5 +:+ "<<")
        default_retry unterminated_name_client).2)
  ∧ ∃ nm,
      get_name script_env 5 unterminated_name_client
      = (nm, (send_command script_env (">>Get Name " +:+ Py.str 5 +:+ "<<")
                default_retry unterminated_name_client).2)
      ∧ (occurs ">>Get Name " ">>Get Name Kitchen" →
         ∃ pre rest seg body,
           first_cut ">>Get Name " ">>Get Name Kitchen" pre rest
           ∧ up_to ">>Get Name " rest seg ∧ up_to "<<" seg body).
Proof.
  assert (H : send_command script_env (">>Get Name " +:+ Py.str 5 +:+ "<<")
                default_retry unterminated_name_client
              = (">>Get Name Kitchen",
                 (send_command script_env
                    (">>Get Name " +:+ Py.str 5 +:+ "<<")
                    default_retry unterminated_name_client).2))
    by (vm_compute; reflexivity).
  split; [exact H|].
  destruct (get_name_parsed script_env 5 unterminated_name_client _ _ H)
    as (nm & Hget & _ & Hcut & _).
  exists nm. by split.
Defined.

(** ** The session client *)

Section ClientFacts.
Context {Net : Type} (E : Env Net).
Implicit Types (c : ZenseClient Net) (cmd : string).



(** With a session open, a command whose send raises an error of the
    [OSError] family sends the loop round again, the session closed. *)
Lemma attempt_in_session_raises cmd c c0 :
  sock c = true → logged_in c = true →
  _send_raw E cmd c = (Raise OSError, c0) →
  attempt E cmd c = (Continue, _close c0).
Proof.
  intros Hs Hl Hraw. unfold attempt. rewrite Hs, Hl.
  change (negb true || negb true) with false. cbv iota beta.
  by rewrite Hraw.
Qed.



End ClientFacts.

(** ** The publisher and the flush *)

Section BridgeFacts.
Context {Net : Type} (E : Env Net) (cfg : Config) (L : PyLib).
Implicit Types (b : Bridge Net) (did : Z) (p : Pending).

(** What an entry of a concrete device makes [_execute] do: the one client
    call, given by its command and by the event that records it, and the
    level to publish when the call is confirmed. *)
Lemma execute_item_directive b did p :
  did ≠ 0 → has_directive p →
  ∃ (mk : string → event) (lvl : Z),
    (mk = EvSetOff did ∧ off p = true ∧ lvl = 0
     ∨ (∃ l, mk = EvFade did l ∧ off p = false ∧ level p = Some l ∧ lvl = l)
     ∨ mk = EvSetOn did ∧ off p = false ∧ level p = None ∧ on p = true
       ∧ lvl = BRIGHTNESS_SCALE)
    ∧ execute_item E cfg b (did, p)
      = let '(resp, c) := send_command E (item_cmd did p) default_retry (z b) in
        let b := emit [mk resp] (with_z c b) in
        let b := if bool_decide (resp = "") then b else pub_state cfg did lvl b in
        emit [EvSleep (CMD_GAP_SEC cfg)] b.
Proof.
  intros Hdid Hdir. unfold execute_item, item_cmd.
  destruct (Z.eqb_spec did 0) as [|_]; [done|].
  destruct (off p) eqn:Hoff.
  - exists (EvSetOff did), 0. split; [by left|done].
  - destruct (level p) as [l|] eqn:Hlvl.
    + exists (EvFade did l), l. split; [right; left; by exists l|done].
    + destruct Hdir as [?|[[? ?]|Hon]]; [congruence|congruence|]. rewrite Hon.
      exists (EvSetOn did), BRIGHTNESS_SCALE. split; [by right; right|done].
Qed.


End BridgeFacts.




(** ** Topics and identifiers *)

Section TopicFacts.
Implicit Types (s a b : string) (d : Z).

Lemma str_last_app a b : b ≠ "" → str_last (a +:+ b) = str_last b.
Proof.
  intros Hb. induction a as [|c a IH]; [done|].
  rewrite str_app_cons. simpl. rewrite IH.
  destruct (a +:+ b) eqn:E; [|done].
  destruct a; [|done]. rewrite str_app_nil_l in E. done.
Qed.

Lemma str_app_inv_r a b s : a +:+ s = b +:+ s → a = b.
Proof.
  revert b. induction a as [|c a IH]; intros [|c' b] H.
  - done.
  - apply (f_equal String.length) in H.
    rewrite str_app_nil_l, str_length_app in H. simpl in H. lia.
  - apply (f_equal String.length) in H.
    rewrite str_app_nil_l, str_length_app in H. simpl in H. lia.
  - rewrite !str_app_cons in H. injection H as -> H. f_equal. by apply IH.
Qed.

Lemma pretty_N_go_prepends (x : N) s : ∃ t, pretty_N_go x s = t +:+ s.
Proof.
  revert s. induction (N.lt_wf_0 x) as [x _ IH]; intros s.
  destruct (decide (x = 0)%N) as [->|Hx].
  - exists "". by rewrite pretty_N_go_0.
  - rewrite pretty_N_go_step by lia.
    destruct (IH (x `div` 10)%N) with (s := String (pretty_N_char (x `mod` 10)) s)
      as [t Ht]; [apply N.div_lt; lia|].
    rewrite Ht. exists (t +:+ String (pretty_N_char (x `mod` 10)) "").
    by rewrite str_app_assoc.
Qed.

Lemma pretty_N_char_digit (x : N) : is_digit_char (pretty_N_char x).
Proof.
  unfold pretty_N_char, is_digit_char.
  repeat case_match; vm_compute; eauto.
Qed.

Lemma pretty_N_last (x : N) : ∃ c, str_last (pretty x) = Some c ∧ is_digit_char c.
Proof.
  unfold pretty, pretty_N. case_decide as Hx.
  - exists "0"%char. split; [done|]. vm_compute. eauto.
  - rewrite pretty_N_go_step by lia.
    destruct (pretty_N_go_prepends (x `div` 10)%N
                (String (pretty_N_char (x `mod` 10)) "")) as [t ->].
    rewrite str_last_app by done. eexists. split; [done|].
    apply pretty_N_char_digit.
Qed.

Lemma str_last_digit d : ∃ c, str_last (Py.str d) = Some c ∧ is_digit_char c.
Proof.
  unfold Py.str, pretty, pretty_Z. destruct d as [|p|p].
  - exists "0"%char. split; [done|]. vm_compute. eauto.
  - apply (pretty_N_last (N.pos p)).
  - destruct (pretty_N_last (N.pos p)) as (c & Hc & Hd).
    exists c. split; [|done]. rewrite str_last_app; [done|].
    intros E. change (pretty p) with (pretty (N.pos p)) in E. by rewrite E in Hc.
Qed.

Lemma str_nonempty d : Py.str d ≠ "".
Proof. destruct (str_last_digit d) as (c & Hc & _). by intros E; rewrite E in Hc. Qed.

Lemma str_inj d d' : Py.str d = Py.str d' → d = d'.
Proof. apply (inj pretty). Qed.

Lemma uid_inj cfg d d' : uid cfg d = uid cfg d' → d = d'.
Proof. unfold uid. intros H. apply (inj (String.append _)) in H. by apply str_inj. Qed.

End TopicFacts.

Section TopicSeparation.
Variable cfg : Config.
Implicit Types (u : string) (d : Z).

Lemma str_last_suffix a suf c : str_last suf = Some c → str_last (a +:+ suf) = Some c.
Proof. intros H. rewrite str_last_app; [done|]. by intros ->. Qed.

Lemma b_state_last u : str_last (t_b_state (topics cfg u)) = Some "e"%char.
Proof. simpl. by do 3 apply str_last_suffix. Qed.

Lemma state_last u : str_last (t_state (topics cfg u)) = Some "e"%char.
Proof. simpl. by do 3 apply str_last_suffix. Qed.

Lemma disc_last u : str_last (t_disc (topics cfg u)) = Some "g"%char.
Proof. simpl. by do 5 apply str_last_suffix. Qed.

Lemma disc_ne_b_state u u' : t_disc (topics cfg u) ≠ t_b_state (topics cfg u').
Proof.
  intros H. apply (f_equal str_last) in H.
  by rewrite disc_last, b_state_last in H.
Qed.

Lemma disc_ne_state u u' : t_disc (topics cfg u) ≠ t_state (topics cfg u').
Proof.
  intros H. apply (f_equal str_last) in H.
  by rewrite disc_last, state_last in H.
Qed.

Lemma avail_ne_b_state u : AVAIL_TOPIC cfg ≠ t_b_state (topics cfg u).
Proof.
  intros H. apply (f_equal str_last) in H. rewrite b_state_last in H.
  unfold AVAIL_TOPIC in H. by rewrite (str_last_suffix _ _ "y"%char) in H.
Qed.

Lemma b_state_inj d d' :
  t_b_state (topics cfg (uid cfg d)) = t_b_state (topics cfg (uid cfg d')) →
  d = d'.
Proof.
  simpl. intros H.
  apply (inj (String.append _)) in H. apply (inj (String.append _)) in H.
  apply str_app_inv_r in H. by apply uid_inj in H.
Qed.

Lemma disc_inj d d' :
  t_disc (topics cfg (uid cfg d)) = t_disc (topics cfg (uid cfg d')) → d = d'.
Proof.
  simpl. intros H.
  do 4 apply (inj (String.append _)) in H.
  apply str_app_inv_r in H. by apply uid_inj in H.
Qed.

Lemma state_ne_b_state d d' :
  t_state (topics cfg (uid cfg d')) ≠ t_b_state (topics cfg (uid cfg d)).
Proof.
  simpl. intros H.
  apply (inj (String.append _)) in H. apply (inj (String.append _)) in H.
  change "/brightness/state" with ("/brightness" +:+ "/state") in H.
  rewrite <-str_app_assoc in H. apply str_app_inv_r in H.
  unfold uid in H. rewrite str_app_assoc in H.
  apply (inj (String.append _)) in H.
  apply (f_equal str_last) in H.
  rewrite (str_last_suffix _ "/brightness" "s"%char) in H by done.
  destruct (str_last_digit d') as (c & Hc & Hd). rewrite Hc in H.
  injection H as ->. by destruct Hd as [? [=]].
Qed.

End TopicSeparation.

(** ** The publisher *)

Lemma no_repeat_snoc l x : no_repeat (l ++ [x]) ↔ no_repeat l ∧ last l ≠ Some x.
Proof.
  induction l as [|y l IH]; simpl; [naive_solver|].
  destruct l as [|y' l]; simpl in *.
  - split; [intros [? _]; split; [done|congruence]|].
    intros [_ ?]. split; [congruence|done].
  - rewrite IH. tauto.
Qed.

Section Publisher.
Context {Net : Type} (cfg : Config).
Implicit Types (b : Bridge Net) (did : Z).

Lemma levels_published_app did tr1 tr2 :
  levels_published cfg did (tr1 ++ tr2)
  = levels_published cfg did tr1 ++ levels_published cfg did tr2.
Proof. apply omap_app. Qed.

(** A step that leaves the record of published levels alone and publishes
    nothing on a brightness-state topic keeps the invariant. *)
Lemma publisher_inv_quiet b b' evs :
  last_level_pub b' = last_level_pub b →
  trace b' = trace b ++ evs →
  (∀ did, levels_published cfg did evs = []) →
  publisher_inv cfg b → publisher_inv cfg b'.
Proof.
  intros Hm Ht Hq Hinv did. rewrite Ht, Hm, levels_published_app, Hq, app_nil_r.
  apply Hinv.
Qed.

(** The events of one call of [pub_state]: none when the level is the one
    on record, else the two publications of the new state. *)
Lemma pub_state_events did lvl b :
  let l := clamp 0 BRIGHTNESS_SCALE lvl in
  let t := topics cfg (uid cfg did) in
  cmd_q (pub_state cfg did lvl b) = cmd_q b
  ∧ pending (pub_state cfg did lvl b) = pending b
  ∧ last_level_ts (pub_state cfg did lvl b) = last_level_ts b
  ∧ z (pub_state cfg did lvl b) = z b
  ∧ known (pub_state cfg did lvl b) = known b
  ∧ (last_level_pub b !! uid cfg did = Some l ∧ pub_state cfg did lvl b = b
     ∨ last_level_pub b !! uid cfg did ≠ Some l
       ∧ last_level_pub (pub_state cfg did lvl b)
         = <[uid cfg did := l]> (last_level_pub b)
       ∧ trace (pub_state cfg did lvl b)
         = trace b ++ [EvPublish (t_state t) (if 0 <? l then "ON" else "OFF") true;
                       EvPublish (t_b_state t) (Py.str l) true]).
Proof.
  intros l t. unfold pub_state. fold l. case_bool_decide as Hl.
  - repeat split. by left.
  - repeat split. right. repeat split; [done|].
    simpl. by rewrite <-(assoc_L (++)).
Qed.

Lemma pub_state_publishes did lvl b :
  ∃ pubs, trace (pub_state cfg did lvl b) = trace b ++ pubs
         ∧ Forall (is_state_publish cfg did) pubs.
Proof.
  destruct (pub_state_events did lvl b)
    as (_ & _ & _ & _ & _ & [[_ ->]|(_ & _ & ->)]).
  - exists []. by rewrite app_nil_r.
  - eexists. split; [done|].
    constructor; [by left|]. constructor; [by right|]. constructor.
Qed.

Lemma pub_state_inv did lvl b :
  publisher_inv cfg b → publisher_inv cfg (pub_state cfg did lvl b).
Proof.
  intros Hinv.
  destruct (pub_state_events did lvl b)
    as (_ & _ & _ & _ & _ & [[_ ->]|(Hne & Hm & Ht)]); [done|].
  intros did'. rewrite Ht, Hm, levels_published_app.
  destruct (Hinv did') as [Hnr Hlast]. simpl.
  rewrite decide_False by apply state_ne_b_state.
  destruct (decide (did = did')) as [<-|Hdd].
  - rewrite decide_True by done. rewrite lookup_insert_eq. simpl.
    rewrite last_snoc. split; [|done].
    apply no_repeat_snoc. split; [done|]. rewrite Hlast.
    destruct (last_level_pub b !! uid cfg did) as [l0|]; simpl; [|done].
    intros [= E]. apply str_inj in E. by subst l0.
  - rewrite decide_False by (intros E; by apply b_state_inj in E).
    rewrite app_nil_r, lookup_insert_ne; [done|].
    intros E. by apply uid_inj in E.
Qed.

Lemma pub_discovery_inv (L : PyLib) did nm b :
  publisher_inv cfg b → publisher_inv cfg (pub_discovery cfg L did nm b).
Proof.
  intros Hinv.
  eapply (publisher_inv_quiet b _ [_]); [done|reflexivity| |done].
  intros did'. simpl. by rewrite decide_False by apply disc_ne_b_state.
Qed.

Lemma pub_avail_inv online b :
  publisher_inv cfg b → publisher_inv cfg (pub_avail cfg online b).
Proof.
  intros Hinv.
  eapply (publisher_inv_quiet b _ [_]); [done|reflexivity| |done].
  intros did'. simpl. by rewrite decide_False by apply avail_ne_b_state.
Qed.

End Publisher.

(** ** The flush *)

Section Flush.
Context {Net : Type} (E : Env Net) (cfg : Config) (L : PyLib).
Implicit Types (b : Bridge Net) (did : Z) (p : Pending).

Lemma flush_frame_refl b : flush_frame b b.
Proof. by repeat split. Qed.

Lemma flush_frame_trans b1 b2 b3 :
  flush_frame b1 b2 → flush_frame b2 b3 → flush_frame b1 b3.
Proof. unfold flush_frame. intros (?&?&?&?) (?&?&?&?). repeat split; congruence. Qed.

Lemma state_publish_not_discovery did e :
  is_state_publish cfg did e → ¬ is_discovery_event cfg e.
Proof.
  destruct e; simpl; try done. intros [->| ->] [u Hu]; symmetry in Hu.
  - by apply disc_ne_state in Hu.
  - by apply disc_ne_b_state in Hu.
Qed.

Lemma state_publish_no_target did e : is_state_publish cfg did e → op_target e = None.
Proof. by destruct e. Qed.

Lemma discover_one_eq b did :
  discover_one E cfg L b did
  = emit [EvGetName did (get_name E did (z b)).1;
          EvPublish (t_disc (topics cfg (uid cfg did)))
            (json_dumps L (discovery_payload cfg (uid cfg did)
                                             (get_name E did (z b)).1)) true;
          EvSleep (CMD_GAP_SEC cfg)]
         (with_z (get_name E did (z b)).2 b).
Proof.
  unfold discover_one. destruct (get_name E did (z b)) as [nm c]. simpl.
  unfold pub_discovery, pub, emit, with_z. simpl. f_equal.
  by rewrite <-!(assoc_L (++)).
Qed.

Lemma discover_one_inv b did :
  publisher_inv cfg b → publisher_inv cfg (discover_one E cfg L b did).
Proof.
  intros Hinv. rewrite discover_one_eq.
  eapply (publisher_inv_quiet cfg b _ _); [done|reflexivity| |done].
  intros did'. simpl. by rewrite decide_False by apply disc_ne_b_state.
Qed.

Lemma refresh_one_step b did :
  flush_frame b (refresh_one E cfg b did)
  ∧ (publisher_inv cfg b → publisher_inv cfg (refresh_one E cfg b did))
  ∧ ∃ evs, trace (refresh_one E cfg b did) = trace b ++ evs
          ∧ Forall (is_refresh_event cfg) evs.
Proof.
  unfold refresh_one. destruct (get_level E did (z b)) as [[l|] c].
  - set (b1 := emit [EvGetLevel did (Some l)] (with_z c b)).
    destruct (pub_state_events cfg did l b1) as (Hq & Hp & Hts & _ & Hk & _).
    destruct (pub_state_publishes cfg did l b1) as (pubs & Ht & Hpubs).
    split; [|split].
    + repeat split; simpl; [rewrite Hq|rewrite Hp|rewrite Hts|rewrite Hk]; done.
    + intros Hinv.
      eapply (publisher_inv_quiet cfg (pub_state cfg did l b1) _ [_]);
        [done|reflexivity|done|].
      apply pub_state_inv.
      by eapply (publisher_inv_quiet cfg b b1 [_]); [done|reflexivity|done|].
    + exists (EvGetLevel did (Some l) :: pubs ++ [EvSleep (CMD_GAP_SEC cfg)]).
      split.
      * simpl. rewrite Ht. simpl. by rewrite <-!(assoc_L (++)).
      * constructor; [done|]. apply Forall_app. split; [|by repeat constructor].
        eapply Forall_impl; [done|]. intros [] ?; simpl in *; try done. by exists did.
  - split; [by repeat split|]. split.
    + intros Hinv.
      eapply (publisher_inv_quiet cfg b _ [_; _]);
        [done|simpl; by rewrite <-(assoc_L (++))|done|done].
    + eexists [_; _]. split; [simpl; by rewrite <-(assoc_L (++))|].
      by repeat constructor.
Qed.

Lemma refresh_phase ids b :
  flush_frame b (foldl (refresh_one E cfg) b ids)
  ∧ (publisher_inv cfg b → publisher_inv cfg (foldl (refresh_one E cfg) b ids))
  ∧ ∃ evs, trace (foldl (refresh_one E cfg) b ids) = trace b ++ evs
          ∧ Forall (is_refresh_event cfg) evs.
Proof.
  revert b. induction ids as [|did ids IH]; intros b; simpl.
  - split; [apply flush_frame_refl|]. split; [done|].
    exists []. by rewrite app_nil_r.
  - destruct (refresh_one_step b did) as (Hf1 & Hi1 & evs1 & Ht1 & He1).
    destruct (IH (refresh_one E cfg b did)) as (Hf2 & Hi2 & evs2 & Ht2 & He2).
    split; [by eapply flush_frame_trans|]. split; [auto|].
    exists (evs1 ++ evs2). rewrite Ht2, Ht1, <-(assoc_L (++)).
    split; [done|]. by apply Forall_app.
Qed.

Lemma execute_item_step b item :
  flush_frame b (execute_item E cfg b item)
  ∧ (publisher_inv cfg b → publisher_inv cfg (execute_item E cfg b item))
  ∧ ∃ seg, trace (execute_item E cfg b item) = trace b ++ seg
          ∧ item_segment cfg item seg.
Proof.
  destruct item as [did p]. unfold item_segment.
  destruct (decide (did ≠ 0 ∧ has_directive p)) as [[Hdid Hdir]|Hno].
  - destruct (execute_item_directive E cfg b did p Hdid Hdir)
      as (mk & lvl & Hmk & ->).
    destruct (send_command E (item_cmd did p) default_retry (z b)) as [resp c].
    set (b1 := emit [mk resp] (with_z c b)).
    assert (Hop : mk resp = op_event did p resp).
    { unfold op_event.
      destruct Hmk as [(-> & -> & _)|[(l & -> & -> & -> & _)|(-> & -> & -> & _)]];
        done. }
    case_bool_decide as Hresp.
    + split; [by repeat split|]. split.
      * intros Hinv.
        eapply (publisher_inv_quiet cfg b _ [_; _]); [done| | |done].
        -- simpl. by rewrite <-(assoc_L (++)).
        -- intros did'. simpl.
           destruct Hmk as [(-> & _)|[(l & -> & _)|(-> & _)]]; done.
      * exists [mk resp; EvSleep (CMD_GAP_SEC cfg)].
        split; [simpl; by rewrite <-(assoc_L (++))|].
        exists resp, []. rewrite Hop.
        split; [done|]. split; [constructor|]. split; [done|by left].
    + assert (Hlvl : lvl = item_level p).
      { unfold item_level.
        destruct Hmk as [(_ & -> & ->)|[(l & _ & -> & -> & ->)
                                       |(_ & -> & -> & _ & ->)]]; done. }
      destruct (pub_state_events cfg did lvl b1)
        as (Hq & Hp & Hts & _ & Hk & Hcase).
      assert (Hpub : ∃ pubs, trace (pub_state cfg did lvl b1) = trace b1 ++ pubs
                             ∧ Forall (is_state_publish cfg did) pubs
                             ∧ (pubs = [] ∨ pubs = state_pair cfg did lvl)).
      { destruct Hcase as [[_ ->]|(_ & _ & ->)].
        - exists []. rewrite app_nil_r. split; [done|]. split; [constructor|by left].
        - eexists. split; [done|]. split; [|by right].
          constructor; [by left|]. constructor; [by right|]. constructor. }
      destruct Hpub as (pubs & Ht & Hpubs & Hpair). rewrite Hlvl in Hpair.
      split; [|split].
      * repeat split; simpl; [rewrite Hq|rewrite Hp|rewrite Hts|rewrite Hk]; done.
      * intros Hinv.
        eapply (publisher_inv_quiet cfg (pub_state cfg did lvl b1) _ [_]);
          [done|reflexivity|done|].
        apply pub_state_inv.
        eapply (publisher_inv_quiet cfg b b1 [_]); [done|reflexivity| |done].
        intros did'. simpl.
        destruct Hmk as [(-> & _)|[(l & -> & _)|(-> & _)]]; done.
      * exists (mk resp :: pubs ++ [EvSleep (CMD_GAP_SEC cfg)]). split.
        -- simpl. rewrite Ht. simpl. by rewrite <-!(assoc_L (++)).
        -- exists resp, pubs. rewrite Hop.
           split; [done|]. split; [done|]. split; [done|done].
  - assert (execute_item E cfg b (did, p) = b) as ->.
    { unfold execute_item. destruct (Z.eqb_spec did 0) as [|Hd]; [done|].
      destruct (off p) eqn:Ho; [destruct Hno; split; [done|by left]|].
      destruct (level p) eqn:Hl;
        [destruct Hno; split; [done|right; left; by rewrite Hl]|].
      destruct (on p) eqn:Hn; [destruct Hno; split; [done|by right; right]|].
      done. }
    split; [apply flush_frame_refl|]. split; [done|].
    exists []. by rewrite app_nil_r.
Qed.

Lemma device_phase items b :
  flush_frame b (foldl (execute_item E cfg) b items)
  ∧ (publisher_inv cfg b → publisher_inv cfg (foldl (execute_item E cfg) b items))
  ∧ ∃ segs, trace (foldl (execute_item E cfg) b items) = trace b ++ concat segs
           ∧ Forall2 (item_segment cfg) items segs.
Proof.
  revert b. induction items as [|item items IH]; intros b; simpl.
  - split; [apply flush_frame_refl|]. split; [done|].
    exists []. split; [by rewrite app_nil_r|constructor].
  - destruct (execute_item_step b item) as (Hf1 & Hi1 & seg & Ht1 & Hs1).
    destruct (IH (execute_item E cfg b item)) as (Hf2 & Hi2 & segs & Ht2 & Hs2).
    split; [by eapply flush_frame_trans|]. split; [auto|].
    exists (seg :: segs). rewrite Ht2, Ht1, <-(assoc_L (++)).
    split; [done|]. by constructor.
Qed.

End Flush.

Section Execute.
Context {Net : Type} (E : Env Net) (cfg : Config) (L : PyLib).
Implicit Types (b : Bridge Net) (did : Z) (p : Pending).

Lemma discover_phase ids b :
  flush_frame b (foldl (discover_one E cfg L) b ids)
  ∧ (publisher_inv cfg b →
     publisher_inv cfg (foldl (discover_one E cfg L) b ids))
  ∧ ∃ evs, trace (foldl (discover_one E cfg L) b ids) = trace b ++ evs
          ∧ Forall (fun e => op_target e = None) evs.
Proof.
  revert b. induction ids as [|did ids IH]; intros b; simpl.
  - split; [apply flush_frame_refl|]. split; [done|].
    exists []. by rewrite app_nil_r.
  - destruct (IH (discover_one E cfg L b did)) as (Hf & Hi & evs & Ht & He).
    split; [|split].
    + eapply flush_frame_trans; [|done]. rewrite discover_one_eq. by repeat split.
    + intros Hinv. by apply Hi, discover_one_inv.
    + rewrite Ht, discover_one_eq. simpl. rewrite <-(assoc_L (++)).
      eexists. split; [done|]. simpl. by repeat constructor.
Qed.

(** The discovery step of a flush: the device query comes first; the known
    devices are replaced when, and only when, the answer is not empty.  When
    the query raises, nothing else happens. *)
Lemma execute_discover_raised b :
  (get_devices E (z b)).1 = None →
  execute_discover E cfg L b
  = (false, emit [EvGetDevicesRaised] (with_z (get_devices E (z b)).2 b)).
Proof.
  unfold execute_discover. destruct (get_devices E (z b)) as [r c]. simpl.
  by intros ->.
Qed.

Lemma execute_discover_step b ids :
  (get_devices E (z b)).1 = Some ids →
  let b' := (execute_discover E cfg L b).2 in
  (execute_discover E cfg L b).1 = true
  ∧ cmd_q b' = cmd_q b ∧ pending b' = pending b
  ∧ last_level_ts b' = last_level_ts b
  ∧ known b' = match ids with [] => known b | _ :: _ => ids end
  ∧ (publisher_inv cfg b → publisher_inv cfg b')
  ∧ ∃ evs, trace b' = trace b ++ EvGetDevices ids :: evs
          ∧ Forall (fun e => op_target e = None) evs
          ∧ (ids = [] → evs = []).
Proof.
  intros Hget b'. unfold b', execute_discover.
  destruct (get_devices E (z b)) as [r c]. simpl in Hget. subst r.
  destruct ids as [|i l]; simpl.
  - do 5 (split; [done|]). split.
    + intros Hinv.
      by eapply (publisher_inv_quiet cfg b _ [_]); [done|reflexivity|done|].
    + exists []. split; [done|]. split; [constructor|done].
  - set (b1 := with_known (i :: l) (emit [EvGetDevices (i :: l)] (with_z c b))).
    destruct (discover_phase (i :: l) b1)
      as ((Hq & Hp & Hts & Hk) & Hi & evs & Ht & He).
    simpl in Hq, Hp, Hts, Hk, Hi, Ht.
    do 5 (split; [done|]). split.
    + intros Hinv. apply Hi.
      by eapply (publisher_inv_quiet cfg b b1 [_]); [done|reflexivity|done|].
    + exists evs. rewrite Ht, <-(assoc_L (++)). done.
Qed.

Lemma refresh_event_facts e :
  is_refresh_event cfg e → op_target e = None ∧ ¬ is_discovery_event cfg e.
Proof.
  destruct e; simpl; try done; try tauto. intros [did Hd]. split; [done|].
  by apply (state_publish_not_discovery cfg did (EvPublish topic payload retain)).
Qed.

Lemma op_event_target did p resp : op_target (op_event did p resp) = Some did.
Proof. unfold op_event. destruct (off p); [done|]. by destruct (level p). Qed.

Lemma op_event_not_discovery did p resp : ¬ is_discovery_event cfg (op_event did p resp).
Proof.
  unfold op_event. destruct (off p); [simpl; tauto|].
  destruct (level p); simpl; tauto.
Qed.

Lemma item_segment_not_discovery item seg :
  item_segment cfg item seg → Forall (fun e => ¬ is_discovery_event cfg e) seg.
Proof.
  destruct item as [did p]. unfold item_segment. case_decide; [|by intros ->].
  intros (resp & pubs & -> & Hpubs & _).
  constructor; [apply op_event_not_discovery|].
  apply Forall_app. split; [|repeat constructor; simpl; tauto].
  eapply Forall_impl; [done|]. intros e. apply state_publish_not_discovery.
Qed.

Lemma segments_not_discovery items segs :
  Forall2 (item_segment cfg) items segs →
  Forall (fun e => ¬ is_discovery_event cfg e) (concat segs).
Proof.
  induction 1 as [|item seg items segs Hs _ IH]; simpl; [done|].
  apply Forall_app. split; [by eapply item_segment_not_discovery|done].
Qed.

Lemma ops_for_app did tr1 tr2 :
  ops_for did (tr1 ++ tr2) = ops_for did tr1 ++ ops_for did tr2.
Proof. apply filter_app. Qed.

Lemma ops_for_none did tr :
  Forall (fun e => op_target e = None) tr → ops_for did tr = [].
Proof.
  induction 1 as [|e tr He _ IH]; [done|].
  unfold ops_for in *. rewrite filter_cons_False; [done|]. by rewrite He.
Qed.

Lemma item_segment_ops did item seg :
  item_segment cfg item seg →
  (item.1 ≠ did → ops_for did seg = [])
  ∧ (item.1 = did → did ≠ 0 → has_directive item.2 →
     ∃ resp, ops_for did seg = [op_event did item.2 resp]).
Proof.
  destruct item as [d p]. unfold item_segment. simpl. case_decide as Hd.
  - intros (resp & pubs & -> & Hpubs & _).
    assert (Hrest : ops_for did (pubs ++ [EvSleep (CMD_GAP_SEC cfg)]) = []).
    { apply ops_for_none, Forall_app. split; [|by repeat constructor].
      eapply Forall_impl; [done|]. intros e. apply state_publish_no_target. }
    split.
    + intros Hne. unfold ops_for in *. rewrite filter_cons_False; [done|].
      rewrite op_event_target. congruence.
    + intros -> _ _. exists resp. unfold ops_for in *.
      rewrite filter_cons_True by apply op_event_target. by rewrite Hrest.
  - intros ->. split; [done|]. intros -> ? ?. destruct Hd. done.
Qed.

Lemma segments_ops_absent did items segs :
  Forall2 (item_segment cfg) items segs →
  did ∉ items.*1 → ops_for did (concat segs) = [].
Proof.
  induction 1 as [|item seg items segs Hs _ IH]; simpl; [done|].
  intros Hnot. apply not_elem_of_cons in Hnot as [Hne Hnot].
  rewrite ops_for_app, IH by done.
  destruct (item_segment_ops did _ _ Hs) as [-> _]; done.
Qed.

Lemma segments_ops did p items segs :
  Forall2 (item_segment cfg) items segs →
  NoDup (items.*1) → (did, p) ∈ items → did ≠ 0 → has_directive p →
  ∃ resp, ops_for did (concat segs) = [op_event did p resp].
Proof.
  induction 1 as [|item seg items segs Hs Hrest IH]; simpl.
  - intros _ Hin. by apply elem_of_nil in Hin.
  - intros Hnd Hin Hdid Hdir. apply NoDup_cons in Hnd as [Hfresh Hnd].
    rewrite ops_for_app. apply elem_of_cons in Hin as [<-|Hin].
    + destruct (item_segment_ops did _ _ Hs) as [_ Hone].
      destruct (Hone eq_refl Hdid Hdir) as [resp ->].
      exists resp. by rewrite (segments_ops_absent did items segs).
    + destruct (IH Hnd Hin Hdid Hdir) as [resp ->]. exists resp.
      destruct (item_segment_ops did _ _ Hs) as [-> _]; [done|].
      intros Heq. apply Hfresh. rewrite Heq.
      by apply (list_elem_of_fmap_2 fst) in Hin.
Qed.

Lemma flush_raises_true b :
  flush_raises E b = true
  ↔ do_discover (pending b) = true ∧ (get_devices E (z b)).1 = None.
Proof.
  unfold flush_raises. rewrite andb_true_iff, bool_decide_eq_true. done.
Qed.

Lemma flush_raises_false b :
  flush_raises E b = false →
  do_discover (pending b) = true → ∃ ids, (get_devices E (z b)).1 = Some ids.
Proof.
  unfold flush_raises. intros Hf Hd. rewrite Hd in Hf. simpl in Hf.
  apply bool_decide_eq_false in Hf.
  destruct (get_devices E (z b)).1 as [ids|]; [by exists ids|done].
Qed.

(** A flush that the [ValueError] leaves: the snapshot is taken and the map
    cleared, the device query is made, and that is all. *)
Lemma execute_raised b :
  flush_raises E b = true →
  _execute E cfg L b
  = emit [EvGetDevicesRaised]
         (with_z (get_devices E (z b)).2 (with_pending [] b)).
Proof.
  intros [Hd Hget]%flush_raises_true. unfold _execute, execute_fleet.
  rewrite Hd. by rewrite (execute_discover_raised (with_pending [] b) Hget).
Qed.

(** The fleet steps of a flush that returns: the snapshot is taken and the
    map cleared; then comes the discovery step when it is flagged, then the
    refresh step. *)
Lemma execute_fleet_shape b :
  flush_raises E b = false →
  let fl := execute_fleet E cfg L (pending b) (with_pending [] b) in
  fl.1 = true
  ∧ ∃ disc refr,
      trace fl.2 = trace b ++ disc ++ refr
      ∧ pending fl.2 = []
      ∧ cmd_q fl.2 = cmd_q b
      ∧ last_level_ts fl.2 = last_level_ts b
      ∧ (publisher_inv cfg b → publisher_inv cfg fl.2)
      ∧ (if do_discover (pending b) then
           ∃ ids evs, (get_devices E (z b)).1 = Some ids
                  ∧ disc = EvGetDevices ids :: evs
                  ∧ (ids = [] → evs = [])
                  ∧ trace (execute_discover E cfg L (with_pending [] b)).2
                    = trace b ++ disc
                  ∧ known fl.2 = match ids with
                                 | [] => known b
                                 | _ :: _ => ids
                                 end
         else disc = [] ∧ known fl.2 = known b)
      ∧ Forall (fun e => op_target e = None) disc
      ∧ Forall (is_refresh_event cfg) refr.
Proof.
  intros Hret. unfold execute_fleet.
  set (b0 := with_pending [] b).
  set (b1 := if do_discover (pending b)
             then (execute_discover E cfg L b0).2 else b0).
  set (b2 := if do_refresh (pending b) then execute_refresh E cfg b1 else b1).
  assert (Hok : (if do_discover (pending b) then execute_discover E cfg L b0
                 else (true, b0)) = (true, b1)).
  { unfold b1. destruct (do_discover (pending b)) eqn:Hd; [|done].
    destruct (flush_raises_false b Hret Hd) as [ids Hget].
    destruct (execute_discover_step b0 ids Hget) as (Hfl & _).
    destruct (execute_discover E cfg L b0) as [ok bd]. simpl in *. by subst. }
  rewrite Hok. fold b2. cbv zeta. simpl. split; [done|].
  assert (H1 : ∃ disc, trace b1 = trace b ++ disc
             ∧ pending b1 = [] ∧ cmd_q b1 = cmd_q b
             ∧ last_level_ts b1 = last_level_ts b
             ∧ (publisher_inv cfg b → publisher_inv cfg b1)
             ∧ (if do_discover (pending b) then
                  ∃ ids evs, (get_devices E (z b)).1 = Some ids
                    ∧ disc = EvGetDevices ids :: evs
                    ∧ (ids = [] → evs = [])
                    ∧ trace (execute_discover E cfg L b0).2 = trace b ++ disc
                    ∧ known b1 = match ids with
                                 | [] => known b
                                 | _ :: _ => ids
                                 end
                else disc = [] ∧ known b1 = known b)
             ∧ Forall (fun e => op_target e = None) disc).
  { assert (Hb0 : publisher_inv cfg b → publisher_inv cfg b0).
    { intros Hinv. eapply (publisher_inv_quiet cfg b b0 []); [done| |done|done].
      by rewrite app_nil_r. }
    unfold b1. destruct (do_discover (pending b)) eqn:Hd.
    - destruct (flush_raises_false b Hret Hd) as [ids Hget].
      destruct (execute_discover_step b0 ids Hget)
        as (_ & Hq & Hp & Hts & Hk & Hi & evs & Ht & He & Hnil).
      exists (EvGetDevices ids :: evs).
      split; [exact Ht|]. do 3 (split; [done|]).
      split; [auto|]. split; [by exists ids, evs|]. by constructor.
    - exists []. rewrite app_nil_r. do 4 (split; [done|]).
      split; [done|]. split; [done|constructor]. }
  destruct H1 as (disc & Ht1 & Hp1 & Hq1 & Hts1 & Hi1 & Hd1 & Ho1).
  assert (H2 : flush_frame b1 b2
             ∧ (publisher_inv cfg b1 → publisher_inv cfg b2)
             ∧ ∃ refr, trace b2 = trace b1 ++ refr
                     ∧ Forall (is_refresh_event cfg) refr).
  { unfold b2. destruct (do_refresh (pending b)).
    - unfold execute_refresh. destruct (known b1) as [|k ks] eqn:Hk.
      + split; [apply flush_frame_refl|]. split; [done|].
        exists []. by rewrite app_nil_r.
      + apply refresh_phase.
    - split; [apply flush_frame_refl|]. split; [done|].
      exists []. by rewrite app_nil_r. }
  destruct H2 as ((Hq2 & Hp2 & Hts2 & Hk2) & Hi2 & refr & Ht2 & Hr2).
  exists disc, refr.
  split; [by rewrite Ht2, Ht1, <-!(assoc_L (++))|].
  split; [congruence|]. split; [congruence|]. split; [congruence|].
  split; [auto|]. split; [|done].
  destruct (do_discover (pending b)).
  - destruct Hd1 as (ids & evs & ? & ? & ? & ? & ?). exists ids, evs.
    do 4 (split; [done|]). congruence.
  - destruct Hd1. split; [done|congruence].
Qed.

(** A flush that returns is its fleet steps followed by the entries of the
    snapshot, in their order. *)
Lemma execute_returns b :
  flush_raises E b = false →
  _execute E cfg L b
  = foldl (execute_item E cfg)
          (execute_fleet E cfg L (pending b) (with_pending [] b)).2 (pending b).
Proof.
  intros Hret. destruct (execute_fleet_shape b Hret) as (Hok & _).
  unfold _execute.
  destruct (execute_fleet E cfg L (pending b) (with_pending [] b)) as [ok fl].
  simpl in *. by subst ok.
Qed.

(** The shape of a flush that returns: the fleet steps, then one segment
    for every entry of the snapshot, in the order of the snapshot. *)
Lemma execute_shape b :
  flush_raises E b = false →
  ∃ disc refr segs,
    trace (_execute E cfg L b) = trace b ++ disc ++ refr ++ concat segs
    ∧ pending (_execute E cfg L b) = []
    ∧ cmd_q (_execute E cfg L b) = cmd_q b
    ∧ last_level_ts (_execute E cfg L b) = last_level_ts b
    ∧ (publisher_inv cfg b → publisher_inv cfg (_execute E cfg L b))
    ∧ (if do_discover (pending b) then
         ∃ ids evs, (get_devices E (z b)).1 = Some ids
                ∧ disc = EvGetDevices ids :: evs
                ∧ (ids = [] → evs = [])
                ∧ trace (execute_discover E cfg L (with_pending [] b)).2
                  = trace b ++ disc
                ∧ known (_execute E cfg L b)
                  = match ids with
                    | [] => known b
                    | _ :: _ => ids
                    end
       else disc = [] ∧ known (_execute E cfg L b) = known b)
    ∧ Forall (fun e => op_target e = None) disc
    ∧ Forall (is_refresh_event cfg) refr
    ∧ Forall2 (item_segment cfg) (pending b) segs.
Proof.
  intros Hret. rewrite (execute_returns b Hret).
  destruct (execute_fleet_shape b Hret)
    as (_ & disc & refr & Ht2 & Hp2 & Hq2 & Hts2 & Hi2 & Hd2 & Ho2 & Hr2).
  set (b2 := (execute_fleet E cfg L (pending b) (with_pending [] b)).2) in *.
  destruct (device_phase E cfg (pending b) b2)
    as ((Hq3 & Hp3 & Hts3 & Hk3) & Hi3 & segs & Ht3 & Hs3).
  exists disc, refr, segs.
  split; [by rewrite Ht3, Ht2, <-!(assoc_L (++))|].
  split; [congruence|]. split; [congruence|]. split; [congruence|].
  split; [auto|]. split; [|done].
  destruct (do_discover (pending b)).
  - destruct Hd2 as (ids & evs & ? & ? & ? & ? & ?). exists ids, evs.
    do 4 (split; [done|]). congruence.
  - destruct Hd2. split; [done|congruence].
Qed.

(** What every flush does, returning or not: it leaves nothing pending,
    leaves the queue and the level timestamps alone, keeps the invariant of
    the publisher and only adds to the record of events. *)
Lemma execute_frame b :
  pending (_execute E cfg L b) = []
  ∧ cmd_q (_execute E cfg L b) = cmd_q b
  ∧ last_level_ts (_execute E cfg L b) = last_level_ts b
  ∧ (publisher_inv cfg b → publisher_inv cfg (_execute E cfg L b))
  ∧ ∃ evs, trace (_execute E cfg L b) = trace b ++ evs.
Proof.
  destruct (flush_raises E b) eqn:Hr.
  - rewrite (execute_raised b Hr). simpl. do 3 (split; [done|]). split.
    + intros Hinv.
      by eapply (publisher_inv_quiet cfg b _ [_]); [done|reflexivity|done|].
    + by eexists.
  - destruct (execute_shape b Hr)
      as (disc & refr & segs & Ht & Hp & Hq & Hts & Hi & _).
    do 4 (split; [done|]). by eexists.
Qed.

End Execute.

Lemma events_since_app {A} (tr evs : list A) : events_since tr (tr ++ evs) = evs.
Proof. apply drop_app_length. Qed.

(** C3.  A flush does not serve its devices when the controller's device
    list holds a token that [isdigit] accepts and [int] refuses.  With a
    discovery and Off for device 3 pending, and a controller that lists its
    devices as [1,²,3], the flush clears the pending map, the [ValueError]
    of [get_devices] leaves it, and device 3 gets no operation at all,
    although the controller would have confirmed it: the command is never
    sent.  The thread of the worker is gone, so no later round makes up for
    it: an Off for device 3 that arrives afterwards stays in the queue. *)
Theorem flush_dies_on_bad_device_list :
  let b := bad_list_example in
  let b' := _execute script_env default_config example_lib b in
  do_discover (pending b) = true
  ∧ (3, mkPending true false None) ∈ pending b
  ∧ (get_devices script_env (z b)).1 = None
  ∧ pending b' = []
  ∧ events_since (trace b) (trace b') = [EvGetDevicesRaised]
  ∧ ops_for 3 (events_since (trace b) (trace b')) = []
  ∧ sends_in (wire (z b')) = [">>Login 16713<<"; ">>Get Devices<<"]
  ∧ worker_dead b' = true
  ∧ run script_env default_config example_lib
      [OpMessage "homeassistant/zense_bridge/zensebridge_3/set" "OFF" 100;
       OpWorker []] b'
    = put ("off", 3, None) b'.
Proof.
  cbv zeta. split; [reflexivity|].
  split; [apply elem_of_cons; right; apply elem_of_cons; by left|].
  assert (Hget : (get_devices script_env (z bad_list_example)).1 = None)
    by (vm_compute; reflexivity).
  split; [exact Hget|].
  assert (Hr : flush_raises script_env bad_list_example = true).
  { apply flush_raises_true. by split. }
  rewrite (execute_raised script_env default_config example_lib _ Hr).
  split; [reflexivity|]. split; [by vm_compute|]. split; [by vm_compute|].
  split; [by vm_compute|]. split; [reflexivity|]. by vm_compute.
Qed.

Example flush_example_trace :
  trace (_execute script_env default_config example_lib flush_example)
  = [EvGetDevices [3; 5];
     EvGetName 3 "Kitchen";
     EvPublish "homeassistant/light/zensebridge_3/config" "{}" true;
     EvSleep (1 # 10);
     EvGetName 5 "Device_5";
     EvPublish "homeassistant/light/zensebridge_5/config" "{}" true;
     EvSleep (1 # 10);
     EvSetOff 3 ">>Set 3 0 Ok<<";
     EvPublish "homeassistant/zense_bridge/zensebridge_3/state" "OFF" true;
     EvPublish "homeassistant/zense_bridge/zensebridge_3/brightness/state" "0" true;
     EvSleep (1 # 10);
     EvFade 5 40 ">>Fade 5 40 Ok<<";
     EvPublish "homeassistant/zense_bridge/zensebridge_5/state" "ON" true;
     EvPublish "homeassistant/zense_bridge/zensebridge_5/brightness/state" "40" true;
     EvSleep (1 # 10)]
  ∧ known (_execute script_env default_config example_lib flush_example) = [3; 5]
  ∧ sends_in (wire (z (_execute script_env default_config example_lib flush_example)))
    = [">>Login 16713<<"; ">>Get Devices<<"; ">>Get Name 3<<"; ">>Get Name 5<<";
       ">>Set 3 0<<"; ">>Fade 5 40<<"].
Proof. vm_compute. repeat split. Qed.


Section Discovery.
Context {Net : Type} (E : Env Net) (cfg : Config) (L : PyLib).
Implicit Types (b : Bridge Net) (did : Z).

Lemma name_queries_none did tr :
  Forall (fun e => ¬ is_discovery_event cfg e) tr → name_queries did tr = [].
Proof.
  induction 1 as [|e tr He _ IH]; [done|].
  unfold name_queries in *. rewrite filter_cons_False; [done|].
  destruct e; simpl in *; try done; tauto.
Qed.

Lemma publications_on_none u tr :
  Forall (fun e => ¬ is_discovery_event cfg e) tr →
  publications_on (t_disc (topics cfg u)) tr = [].
Proof.
  induction 1 as [|e tr He _ IH]; [done|].
  unfold publications_on in *. rewrite filter_cons_False; [done|].
  destruct e; simpl in *; try done.
  rewrite bool_decide_eq_true. intros ->. apply He. by exists u.
Qed.

(** What follows the discovery step in a flush holds no discovery event. *)
Lemma execute_after_discovery b ids :
  do_discover (pending b) = true →
  (get_devices E (z b)).1 = Some ids →
  ∃ rest,
    trace (_execute E cfg L b)
    = trace (execute_discover E cfg L (with_pending [] b)).2 ++ rest
    ∧ Forall (fun e => ¬ is_discovery_event cfg e) rest
    ∧ known (_execute E cfg L b)
      = match ids with
        | [] => known b
        | _ :: _ => ids
        end.
Proof.
  intros Hdd Hget.
  assert (Hret : flush_raises E b = false).
  { unfold flush_raises. rewrite Hget, Hdd. done. }
  destruct (execute_shape E cfg L b Hret)
    as (disc & refr & segs & Ht & _ & _ & _ & _ & Hd & _ & Hr & Hs).
  rewrite Hdd in Hd. destruct Hd as (ids' & evs & Hget' & -> & _ & Htd & Hk).
  assert (ids' = ids) as -> by congruence.
  exists (refr ++ concat segs). split; [|split; [|done]].
  - by rewrite Ht, Htd, <-!(assoc_L (++)).
  - apply Forall_app. split; [|by eapply segments_not_discovery].
    eapply Forall_impl; [exact Hr|].
    intros e He. apply refresh_event_facts in He. tauto.
Qed.

End Discovery.



(** ** The list of device ids *)

Section Devices.
Implicit Types (s tok : string) (c : ascii).

Lemma digit_code c d :
  Py.digit_val c = Some d → (48 ≤ nat_of_ascii c ≤ 57)%nat.
Proof.
  unfold Py.digit_val.
  destruct (48 <=? nat_of_ascii c)%nat eqn:H1; [|done].
  destruct (nat_of_ascii c <=? 57)%nat eqn:H2; [|done].
  apply Nat.leb_le in H1, H2. done.
Qed.

Lemma digit_not_space c : is_Some (Py.digit_val c) → Py.isspace c = false.
Proof.
  intros [d Hd%digit_code]. unfold Py.isspace.
  repeat match goal with
         | |- context [(?a <=? ?b)%nat] => destruct (Nat.leb_spec a b)
         | |- context [(?a =? ?b)%nat] => destruct (Nat.eqb_spec a b)
         end; simpl; first [done|lia].
Qed.

Lemma digit_not_int_space c :
  is_Some (Py.digit_val c) → Py.int_space c = false.
Proof.
  intros [d Hd%digit_code]. unfold Py.int_space.
  repeat match goal with
         | |- context [(?a <=? ?b)%nat] => destruct (Nat.leb_spec a b)
         | |- context [(?a =? ?b)%nat] => destruct (Nat.eqb_spec a b)
         end; simpl; first [done|lia].
Qed.

Lemma rstrip_keeps (f : ascii → bool) s :
  (∀ c, c ∈ chars s → f c = false) → Py.rstrip f s = s.
Proof.
  induction s as [|c s IH]; [done|]. simpl. intros Hf.
  rewrite IH by (intros c' Hc'; apply Hf; by right).
  by rewrite (Hf c (list_elem_of_here _ _)), andb_false_r.
Qed.

Lemma all_digits_chars s c :
  Py.all_digits s = true → c ∈ chars s → is_Some (Py.digit_val c).
Proof.
  induction s as [|c' s IH]; simpl; [by intros _ ?%elem_of_nil|].
  intros [Hc Hs]%andb_true_iff [->|Hin]%elem_of_cons; [|by apply IH].
  by apply bool_decide_eq_true in Hc.
Qed.

Lemma rstrip_digits s : Py.all_digits s = true → Py.rstrip Py.isspace s = s.
Proof.
  intros Hs. apply rstrip_keeps. intros c Hc.
  by apply digit_not_space, (all_digits_chars s).
Qed.

Lemma strip_digits s : Py.all_digits s = true → Py.strip s = s.
Proof.
  intros Hs. unfold Py.strip. destruct s as [|c s]; [done|].
  pose proof Hs as Hs'. simpl in Hs'.
  apply andb_true_iff in Hs' as [Hc _]. apply bool_decide_eq_true in Hc.
  simpl Py.lstrip. rewrite (digit_not_space c Hc). by apply rstrip_digits.
Qed.

(** [int] finds no white space to skip around a text of digits. *)
Lemma int_strip_digits s :
  Py.all_digits s = true → Py.rstrip Py.int_space (Py.lstrip Py.int_space s) = s.
Proof.
  intros Hs. destruct s as [|c s]; [done|].
  pose proof Hs as Hs'. simpl in Hs'.
  apply andb_true_iff in Hs' as [Hc _]. apply bool_decide_eq_true in Hc.
  simpl Py.lstrip. rewrite (digit_not_int_space c Hc).
  apply rstrip_keeps. intros c' Hc'.
  by apply digit_not_int_space, (all_digits_chars (String c s)).
Qed.

Lemma int_digits_all s acc after :
  Py.all_digits s = true → s ≠ "" ∨ after = true →
  is_Some (Py.int_digits acc after s).
Proof.
  revert acc after. induction s as [|c s IH]; intros acc after Hs Hne; simpl.
  - destruct Hne as [Hn| ->]; [done|eauto].
  - simpl in Hs. apply andb_true_iff in Hs as [Hc Hs].
    apply bool_decide_eq_true in Hc. destruct Hc as [d Hd]. rewrite Hd.
    apply IH; [done|by right].
Qed.

(** A text that starts with a digit carries no sign. *)
Lemma int_unsigned c s :
  is_Some (Py.digit_val c) →
  Py.rstrip Py.int_space (Py.lstrip Py.int_space (String c s)) = String c s →
  Py.int (String c s) = Py.int_body (String c s).
Proof.
  intros Hc Hstrip. unfold Py.int. rewrite Hstrip.
  destruct c as [[] [] [] [] [] [] [] []]; try reflexivity;
    exfalso; destruct Hc as [d Hd]; vm_compute in Hd; discriminate.
Qed.

(** The digits of a text of digits are its characters. *)
Lemma digit_count_all_digits s :
  Py.all_digits s = true → Py.digit_count s = Z.of_nat (String.length s).
Proof.
  induction s as [|c s IH]; [done|]. simpl Py.all_digits.
  intros [Hc Hs]%andb_true_iff. cbn [Py.digit_count String.length].
  rewrite Hc, IH by done. lia.
Qed.

(** [int] converts a text of decimal digits that is not empty and has no
    more than 4300 of them, and raises on a longer one. *)
Lemma int_all_digits tok :
  Py.all_digits tok = true → tok ≠ "" →
  Py.int tok
  = if Py.int_max_str_digits <? Z.of_nat (String.length tok) then None
    else Py.int_digits 0 false tok.
Proof.
  intros Hall Hne. destruct tok as [|c s]; [done|].
  pose proof Hall as Hall'. simpl in Hall'.
  apply andb_true_iff in Hall' as [Hc _]. apply bool_decide_eq_true in Hc.
  rewrite (int_unsigned c s Hc (int_strip_digits _ Hall)).
  unfold Py.int_body. by rewrite (digit_count_all_digits _ Hall).
Qed.

Lemma parse_devices_absent resp :
  ¬ occurs ">>Get Devices " resp → parse_devices resp = Some [].
Proof.
  intros Hno. unfold parse_devices.
  destruct (Py.contains ">>Get Devices " resp) eqn:Hc; [|done].
  by apply contains_occurs in Hc.
Qed.

Lemma parse_devices_digit_tokens resp ids id :
  parse_devices resp = Some ids → id ∈ ids →
  ∃ tok, Py.isdigit tok = true ∧ Py.int tok = Some id.
Proof.
  unfold parse_devices. destruct (Py.contains ">>Get Devices " resp).
  - intros Hm%mapM_Some Hin.
    apply list_elem_of_lookup in Hin as [i Hi].
    destruct (Forall2_lookup_r _ _ _ _ _ Hm Hi) as (tok & Htok & Hint).
    exists tok. split; [|done].
    apply list_elem_of_lookup_2, list_elem_of_filter in Htok. tauto.
  - intros [= <-] Hin. by apply elem_of_nil in Hin.
Qed.

End Devices.

(** C10.  In a flush with the discovery flag set in which [get_devices]
    returns the empty list, the list of known devices is the one from before
    the flush, and the events of the flush, after the device query that
    opens them, hold no discovery event: no name query and no publication on
    a discovery topic.  [get_devices] returns the empty list whenever the
    response lacks the prefix (an empty response among them), and every id it
    returns is the value that [int] gives to a token that passes
    [isdigit]. *)
Theorem empty_discovery_keeps_known
    {Net : Type} (E : Env Net) (cfg : Config) (L : PyLib) (b : Bridge Net)
    (c' : ZenseClient Net) :
  do_discover (pending b) = true →
  get_devices E (z b) = (Some [], c') →
  known (_execute E cfg L b) = known b
  ∧ (∃ rest,
       events_since (trace b) (trace (_execute E cfg L b))
       = EvGetDevices [] :: rest
       ∧ Forall (fun e => ¬ is_discovery_event cfg e) rest)
  ∧ (∀ did,
       name_queries did (events_since (trace b) (trace (_execute E cfg L b)))
       = [])
  ∧ (∀ u,
       publications_on (t_disc (topics cfg u))
         (events_since (trace b) (trace (_execute E cfg L b))) = [])
  ∧ (∀ c, ¬ occurs ">>Get Devices "
              (send_command E ">>Get Devices<<" default_retry c).1 →
          (get_devices E c).1 = Some [])
  ∧ (∀ c ids id, (get_devices E c).1 = Some ids → id ∈ ids →
             ∃ tok, Py.isdigit tok = true ∧ Py.int tok = Some id).
Proof.
  intros Hdd Hget.
  destruct (execute_after_discovery E cfg L b [] Hdd)
    as (rest & Ht & Hrest & Hk); [by rewrite Hget|].
  assert (Htd : trace (execute_discover E cfg L (with_pending [] b)).2
                = trace b ++ [EvGetDevices []]).
  { unfold execute_discover. simpl z. by rewrite Hget. }
  assert (Hnew : events_since (trace b) (trace (_execute E cfg L b))
                 = EvGetDevices [] :: rest).
  { by rewrite Ht, Htd, <-(assoc_L (++)), events_since_app. }
  split; [done|]. split; [by exists rest|]. rewrite Hnew.
  split; [|split; [|split]].
  - intros did. unfold name_queries. rewrite filter_cons_False by done.
    by apply (name_queries_none cfg).
  - intros u. unfold publications_on. rewrite filter_cons_False by done.
    by apply publications_on_none.
  - intros c Hno. unfold get_devices.
    destruct (send_command E ">>Get Devices<<" default_retry c) as [resp c2].
    simpl in *. by apply parse_devices_absent.
  - intros c ids id Hids Hin. unfold get_devices in Hids.
    destruct (send_command E ">>Get Devices<<" default_retry c) as [resp c2].
    simpl in Hids. by apply (parse_devices_digit_tokens resp ids id).
Qed.

Lemma empty_discovery_keeps_known_witness :
  do_discover (pending unreachable_example) = true
  ∧ get_devices script_env (z unreachable_example)
    = (Some [], (get_devices script_env (z unreachable_example)).2)
  ∧ known (_execute script_env default_config example_lib unreachable_example)
    = [7; 9].
Proof.
  assert (Hd : do_discover (pending unreachable_example) = true) by reflexivity.
  assert (Hg : get_devices script_env (z unreachable_example)
               = (Some [], (get_devices script_env (z unreachable_example)).2))
    by (vm_compute; reflexivity).
  split; [exact Hd|]. split; [exact Hg|].
  apply (empty_discovery_keeps_known script_env default_config example_lib
           unreachable_example _ Hd Hg).
Defined.

(** ** Runs *)

Section Runs.
Context {Net : Type} (E : Env Net) (cfg : Config) (L : PyLib).
Implicit Types (b : Bridge Net) (did : Z).

Lemma on_message_quiet topic payload now b :
  trace (on_message cfg L topic payload now b) = trace b
  ∧ last_level_pub (on_message cfg L topic payload now b) = last_level_pub b.
Proof. unfold on_message. repeat case_match; done. Qed.

Lemma drain_quiet n b :
  trace (drain n b) = trace b ∧ last_level_pub (drain n b) = last_level_pub b.
Proof.
  revert b. induction n as [|n IH]; intros b; simpl; [done|].
  destruct (cmd_q b) as [|[[kind did] val] q]; [done|].
  by rewrite !(proj1 (IH _)), !(proj2 (IH _)).
Qed.

Lemma quiet_inv b b' :
  trace b' = trace b → last_level_pub b' = last_level_pub b →
  publisher_inv cfg b → publisher_inv cfg b'.
Proof.
  intros Ht Hm. apply (publisher_inv_quiet cfg b b' []); [done| |done].
  by rewrite app_nil_r.
Qed.

Lemma run_op_inv b o :
  publisher_inv cfg b → publisher_inv cfg (run_op E cfg L b o).
Proof.
  intros Hinv. destruct o as [|topic payload now| |late]; simpl.
  - unfold on_connect. eapply quiet_inv; [| |apply pub_avail_inv]; try done.
    eapply (publisher_inv_quiet cfg b _ [_; _; _]); [done|reflexivity|done|done].
  - destruct (on_message_quiet topic payload now b). by eapply quiet_inv.
  - unfold poller_tick. by destruct (known b).
  - destruct (worker_dead b); [done|].
    unfold worker_round. destruct (cmd_q b) as [|[[kind did] val] q]; [done|].
    apply execute_frame. unfold _drain.
    eapply quiet_inv; [apply drain_quiet|apply drain_quiet|]. done.
Qed.

Lemma run_inv ops b :
  publisher_inv cfg b → publisher_inv cfg (run E cfg L ops b).
Proof.
  revert b. induction ops as [|o ops IH]; intros b Hinv; [done|].
  apply IH. by apply run_op_inv.
Qed.

Lemma init_inv (n : Net) : publisher_inv cfg (Bridge_init cfg n).
Proof. intros did. simpl. by rewrite lookup_empty. Qed.

End Runs.

(** C5.  In every state that a run of the bridge reaches from its start, and
    for every device, the brightness levels published so far never hold the
    same level twice in a row.  A call of [pub_state] whose clamped level is
    the level last published for that device changes nothing, so it
    publishes nothing; and whatever call of [pub_state] comes next, the
    published levels still never repeat. *)
Theorem published_levels_never_repeat
    {Net : Type} (E : Env Net) (cfg : Config) (L : PyLib) (n : Net)
    (ops : list bridge_op) (did : Z) :
  no_repeat (levels_published cfg did
               (trace (run E cfg L ops (Bridge_init cfg n))))
  ∧ (∀ lvl,
       last (levels_published cfg did
               (trace (run E cfg L ops (Bridge_init cfg n))))
       = Some (Py.str (clamp 0 BRIGHTNESS_SCALE lvl)) →
       pub_state cfg did lvl (run E cfg L ops (Bridge_init cfg n))
       = run E cfg L ops (Bridge_init cfg n))
  ∧ (∀ did' lvl,
       no_repeat (levels_published cfg did
                    (trace (pub_state cfg did' lvl
                              (run E cfg L ops (Bridge_init cfg n)))))).
Proof.
  pose proof (run_inv E cfg L ops _ (init_inv cfg n)) as Hinv.
  set (b := run E cfg L ops (Bridge_init cfg n)) in *.
  split; [apply Hinv|]. split.
  - intros lvl Hlast. destruct (Hinv did) as [_ Hrec]. rewrite Hrec in Hlast.
    unfold pub_state. rewrite bool_decide_eq_true_2; [done|].
    destruct (last_level_pub b !! uid cfg did) as [l0|]; [|done].
    simpl in Hlast. injection Hlast as Hl. apply str_inj in Hl. by subst.
  - intros did' lvl. by apply pub_state_inv.
Qed.

Lemma published_levels_never_repeat_witness :
  last (levels_published default_config 5
          (trace (run script_env default_config example_lib level_run
                    (Bridge_init default_config level_run_net))))
  = Some (Py.str (clamp 0 BRIGHTNESS_SCALE 40))
  ∧ pub_state default_config 5 40
      (run script_env default_config example_lib level_run
         (Bridge_init default_config level_run_net))
    = run script_env default_config example_lib level_run
        (Bridge_init default_config level_run_net).
Proof.
  assert (H : last (levels_published default_config 5
                (trace (run script_env default_config example_lib level_run
                          (Bridge_init default_config level_run_net))))
              = Some (Py.str (clamp 0 BRIGHTNESS_SCALE 40)))
    by (vm_compute; reflexivity).
  split; [exact H|].
  destruct (published_levels_never_repeat script_env default_config example_lib
              level_run_net level_run 5) as (_ & Hsame & _).
  apply Hsame, H.
Defined.

(** ** Ingress *)

Section Ingress.
Context {Net : Type} (E : Env Net) (cfg : Config) (L : PyLib).
Implicit Types (b : Bridge Net) (did : Z).

Lemma decode_did_not_status topic did :
  decode_did cfg topic = Some did → topic ≠ "homeassistant/status".
Proof. intros Hd ->. by vm_compute in Hd. Qed.

(** What [on_message] does with a message once its topic is decoded. *)
Lemma on_message_decoded topic payload now b did :
  decode_did cfg topic = Some did →
  on_message cfg L topic payload now b
  = if Py.endswith "/brightness/set" topic then
      match _to_int L (Py.strip payload) with
      | None => b
      | Some raw =>
          put ("level", did, Some (scale_brightness raw))
              (with_last_level_ts (<[did := now]> (last_level_ts b)) b)
      end
    else if Py.endswith "/set" topic then
      if bool_decide (Py.upper (Py.strip payload) = "OFF")
      then put ("off", did, None) b
      else if bool_decide (Py.upper (Py.strip payload) = "ON") then
        if Qle_bool (now - default 0%Q (last_level_ts b !! did))
                    (LEVEL_ON_WINDOW_SEC cfg)
        then b else put ("on", did, None) b
      else b
    else b.
Proof.
  intros Hd. pose proof (decode_did_not_status _ _ Hd) as Hns.
  unfold on_message. rewrite (bool_decide_eq_false_2 _ Hns). simpl.
  unfold decode_did in Hd.
  destruct (length (Py.split "/" topic) <? 4)%nat; [done|].
  destruct (Py.strip_prefix (UID_PREFIX cfg) (nth 2 (Py.split "/" topic) ""))
    as [rest|]; [|done].
  by rewrite Hd.
Qed.

Lemma on_message_undecoded topic payload now b :
  decode_did cfg topic = None →
  last_level_ts (on_message cfg L topic payload now b) = last_level_ts b.
Proof.
  intros Hd. unfold on_message, decode_did in *.
  repeat case_match; simplify_eq; done.
Qed.

Lemma on_message_level_ts topic payload now b did :
  last_level_ts (on_message cfg L topic payload now b) !! did
  = if level_message_for cfg L did topic payload then Some now
    else last_level_ts b !! did.
Proof.
  unfold level_message_for.
  destruct (decode_did cfg topic) as [did'|] eqn:Hd.
  - rewrite (on_message_decoded _ _ _ _ _ Hd).
    destruct (Py.endswith "/brightness/set" topic).
    + destruct (_to_int L (Py.strip payload)) as [raw|]; simpl.
      * rewrite andb_true_r. destruct (decide (did' = did)) as [->|Hne].
        -- rewrite !bool_decide_eq_true_2 by eauto. simpl.
           by rewrite lookup_insert_eq.
        -- rewrite (bool_decide_eq_false_2 (Some did' = Some did)) by congruence.
           simpl. by rewrite lookup_insert_ne.
      * by rewrite andb_false_r.
    + rewrite andb_false_r. simpl. repeat case_match; done.
  - rewrite (on_message_undecoded _ _ _ _ Hd).
    by rewrite (bool_decide_eq_false_2 (None = Some did)).
Qed.

Lemma drain_level_ts n b : last_level_ts (drain n b) = last_level_ts b.
Proof.
  revert b. induction n as [|n IH]; intros b; simpl; [done|].
  destruct (cmd_q b) as [|[[kind did] val] q]; [done|]. by rewrite IH.
Qed.

Lemma run_op_level_ts b o did :
  last_level_ts (run_op E cfg L b o) !! did
  = match o with
    | OpMessage topic payload now =>
        if level_message_for cfg L did topic payload then Some now
        else last_level_ts b !! did
    | _ => last_level_ts b !! did
    end.
Proof.
  destruct o as [|topic payload now| |late]; simpl.
  - done.
  - apply on_message_level_ts.
  - unfold poller_tick. by destruct (known b).
  - destruct (worker_dead b); [done|].
    unfold worker_round. destruct (cmd_q b) as [|[[kind d] val] q]; [done|].
    match goal with
    | |- context [_execute E cfg L ?b1] =>
        destruct (execute_frame E cfg L b1) as (_ & _ & -> & _)
    end.
    unfold _drain. by rewrite drain_level_ts.
Qed.

(** The timestamp on record for a device is the clock reading of its most
    recent Level intent. *)
Lemma run_level_ts ops b did :
  last_level_ts (run E cfg L ops b) !! did
  = foldl (fun acc o =>
             match o with
             | OpMessage topic payload now =>
                 if level_message_for cfg L did topic payload then Some now
                 else acc
             | _ => acc
             end) (last_level_ts b !! did) ops.
Proof.
  revert b. induction ops as [|o ops IH]; intros b; [done|].
  unfold run in *. simpl. rewrite IH, run_op_level_ts. by destruct o.
Qed.

End Ingress.

(** C8.  Let [ts] be the clock reading of the most recent Level intent that
    the bridge received for a device in the run so far.  An ON command for
    that device arriving at time [now] is dropped, the queue and the rest of
    the state staying as they are, when [now - ts] is within the suppression
    window, and is enqueued as an 'on' intent for the device when [now - ts]
    exceeds the window. *)
Theorem on_after_level_suppressed
    {Net : Type} (E : Env Net) (cfg : Config) (L : PyLib) (n : Net)
    (ops : list bridge_op) (did : Z) (ts now : Q) (topic payload : string) :
  last_level_time cfg L did ops = Some ts →
  on_message_for cfg did topic payload = true →
  ((now - ts <= LEVEL_ON_WINDOW_SEC cfg)%Q →
   on_message cfg L topic payload now (run E cfg L ops (Bridge_init cfg n))
   = run E cfg L ops (Bridge_init cfg n))
  ∧ (¬ (now - ts <= LEVEL_ON_WINDOW_SEC cfg)%Q →
     on_message cfg L topic payload now (run E cfg L ops (Bridge_init cfg n))
     = put ("on", did, None) (run E cfg L ops (Bridge_init cfg n))).
Proof.
  intros Hts Hon. unfold on_message_for in Hon.
  apply andb_true_iff in Hon as [Hon Hup].
  apply andb_true_iff in Hon as [Hon Hset].
  apply andb_true_iff in Hon as [Hd Hb].
  apply bool_decide_eq_true in Hd, Hup. apply negb_true_iff in Hb.
  rewrite (on_message_decoded cfg L _ _ _ _ _ Hd), Hb, Hset, Hup.
  simpl bool_decide.
  rewrite (run_level_ts E cfg L ops (Bridge_init cfg n) did).
  simpl last_level_ts. rewrite lookup_empty.
  unfold last_level_time in Hts. rewrite Hts. simpl default.
  destruct (Qle_bool (now - ts) (LEVEL_ON_WINDOW_SEC cfg)) eqn:Hle.
  - apply Qle_bool_iff in Hle. split; [done|]. by intros [].
  - split; [|done]. intros Hle'. apply Qle_bool_iff in Hle'. congruence.
Qed.

Lemma on_after_level_suppressed_witness :
  last_level_time default_config example_lib 5 level_run = Some 100%Q
  ∧ on_message_for default_config 5
      "homeassistant/zense_bridge/zensebridge_5/set" "on" = true
  ∧ (100.5 - 100 <= LEVEL_ON_WINDOW_SEC default_config)%Q
  ∧ on_message default_config example_lib
      "homeassistant/zense_bridge/zensebridge_5/set" "on" 100.5
      (run script_env default_config example_lib level_run
         (Bridge_init default_config level_run_net))
    = run script_env default_config example_lib level_run
        (Bridge_init default_config level_run_net).
Proof.
  assert (H1 : last_level_time default_config example_lib 5 level_run
               = Some 100%Q) by (vm_compute; reflexivity).
  assert (H2 : on_message_for default_config 5
                 "homeassistant/zense_bridge/zensebridge_5/set" "on" = true)
    by (vm_compute; reflexivity).
  assert (H3 : (100.5 - 100 <= LEVEL_ON_WINDOW_SEC default_config)%Q)
    by (unfold Qle; simpl; lia).
  split; [exact H1|]. split; [exact H2|]. split; [exact H3|].
  destruct (on_after_level_suppressed script_env default_config example_lib
              level_run_net level_run 5 100 100.5 _ _ H1 H2) as [Hdrop _].
  apply Hdrop, H3.
Defined.

(** * Further properties of the code *)

(** ** Receiving *)

Lemma recv_from buf0 script buf :
  _recv buf0 script = Ret buf →
  ∃ parts rest,
    script = map Chunk parts ++ rest
    ∧ buf = buf0 +:+ concat_str parts
    ∧ Forall (fun p => p ≠ "") parts
    ∧ (Py.contains "<<" buf = true ∧ parts ≠ []
       ∨ rest = [] ∨ ∃ rest', rest = Chunk "" :: rest')
    ∧ (∀ k, (1 ≤ k < length parts)%nat →
         Py.contains "<<" (buf0 +:+ concat_str (take k parts)) = false).
Proof.
  revert buf0. induction script as [|item script IH]; intros buf0; simpl.
  - intros [= <-]. exists [], []. simpl. rewrite str_app_nil_r.
    split; [done|]. split; [done|]. split; [constructor|].
    split; [by right; left|]. intros k Hk; simpl in Hk; lia.
  - destruct item as [part|e]; [|done].
    case_bool_decide as Hpart.
    { intros [= <-]. exists [], (Chunk part :: script). simpl.
      rewrite str_app_nil_r. split; [done|]. split; [done|].
      split; [constructor|]. split; [right; right; subst part; eauto|].
      intros k Hk; simpl in Hk; lia. }
    destruct (Py.contains "<<" (buf0 +:+ part)) eqn:Hc.
    { intros [= <-]. exists [part], script. simpl. rewrite str_app_nil_r.
      split; [done|]. split; [done|]. split; [by repeat constructor|].
      split; [by left|]. intros k Hk; simpl in Hk; lia. }
    intros Hrec. destruct (IH _ Hrec) as (parts & rest & -> & -> & Hne & Hstop & Hearly).
    exists (part :: parts), rest. simpl.
    split; [done|]. split; [by rewrite str_app_assoc|].
    split; [by constructor|]. split.
    { destruct Hstop as [[Hm Hp]|Hstop]; [left|by right].
      split; [done|done]. }
    intros k Hk. destruct k as [|k]; [lia|]. simpl.
    rewrite <-str_app_assoc. destruct k as [|k].
    + simpl. by rewrite str_app_nil_r.
    + apply Hearly. simpl in Hk. lia.
Qed.

(** X1.  When [_recv] returns a buffer, the buffer is the concatenation of
    the first parts received, all of them non-empty; reading stopped either
    because the buffer now holds the end marker, and it did not hold it
    before the last part arrived, or because the peer closed the connection
    (an empty read).  Parts that arrive later are left unread. *)
Theorem recv_reads_up_to_marker (script : list recv_item) (buf : string) :
  _recv "" script = Ret buf →
  ∃ parts rest,
    script = map Chunk parts ++ rest
    ∧ buf = concat_str parts
    ∧ Forall (fun p => p ≠ "") parts
    ∧ (Py.contains "<<" buf = true ∧ parts ≠ []
       ∨ rest = [] ∨ ∃ rest', rest = Chunk "" :: rest')
    ∧ (∀ k, (k < length parts)%nat →
         Py.contains "<<" (concat_str (take k parts)) = false).
Proof.
  intros Hrecv.
  destruct (recv_from "" script buf Hrecv)
    as (parts & rest & Hs & Hb & Hne & Hstop & Hearly).
  exists parts, rest. rewrite str_app_nil_l in Hb.
  do 4 (split; [done|]).
  intros k Hk. destruct k as [|k]; [by destruct parts|].
  specialize (Hearly (S k)). rewrite str_app_nil_l in Hearly.
  apply Hearly. lia.
Qed.

Lemma recv_reads_up_to_marker_witness :
  _recv "" piecewise_script = Ret ">>Get 42<<>>"
  ∧ ∃ parts rest,
      piecewise_script = map Chunk parts ++ rest
      ∧ ">>Get 42<<>>" = concat_str parts.
Proof.
  assert (H : _recv "" piecewise_script = Ret ">>Get 42<<>>") by reflexivity.
  split; [exact H|].
  destruct (recv_reads_up_to_marker _ _ H) as (parts & rest & Hs & Hb & _).
  by exists parts, rest.
Defined.

(** ** The cost and the outcome of client operations *)

Section ClientEffort.
Context {Net : Type} (E : Env Net).
Implicit Types (c : ZenseClient Net) (cmd : string).

Lemma connects_in_app ev1 ev2 :
  connects_in (ev1 ++ ev2) = (connects_in ev1 + connects_in ev2)%nat.
Proof. unfold connects_in. by rewrite filter_app, length_app. Qed.

Lemma sends_in_app ev1 ev2 : sends_in (ev1 ++ ev2) = sends_in ev1 ++ sends_in ev2.
Proof. apply omap_app. Qed.

Lemma wire_effort_refl c : wire_effort c c 0 0.
Proof. split; [done|]. exists []. by rewrite app_nil_r. Qed.

Lemma wire_effort_trans c1 c2 c3 n1 s1 n2 s2 :
  wire_effort c1 c2 n1 s1 → wire_effort c2 c3 n2 s2 →
  wire_effort c1 c3 (n1 + n2) (s1 + s2).
Proof.
  intros (Hc1 & ev1 & Hw1 & Hn1 & Hs1) (Hc2 & ev2 & Hw2 & Hn2 & Hs2).
  split; [congruence|]. exists (ev1 ++ ev2).
  rewrite Hw2, Hw1, <-(assoc_L (++)), connects_in_app, sends_in_app, length_app.
  split; [done|]. lia.
Qed.

Lemma wire_effort_mono c c' n s n' s' :
  wire_effort c c' n s → (n ≤ n')%nat → (s ≤ s')%nat → wire_effort c c' n' s'.
Proof.
  intros (Hc & ev & Hw & Hn & Hs) ? ?. split; [done|]. exists ev.
  split; [done|]. lia.
Qed.

Lemma close_effort c :
  wire_effort c (_close c) 0 0 ∧ sock (_close c) = false
  ∧ logged_in (_close c) = false.
Proof.
  split; [|done]. split; [done|]. simpl.
  exists (if sock c then [WClose] else []). split; [done|].
  by destruct (sock c).
Qed.

Lemma connect_effort c :
  wire_effort c (_connect E c).2 1 0
  ∧ logged_in (_connect E c).2 = false
  ∧ sock (_connect E c).2 = (_connect E c).1.
Proof.
  unfold _connect.
  destruct (net_connect E (net (_close c))) as [[|] n]; simpl.
  - split; [|done]. split; [done|]. simpl.
    exists ((if sock c then [WClose] else []) ++ [WConnect true]).
    rewrite (assoc_L (++)). split; [done|]. by destruct (sock c).
  - split; [|done]. split; [done|]. simpl. rewrite app_nil_r.
    exists ((if sock c then [WClose] else []) ++ [WConnect false]).
    rewrite (assoc_L (++)). split; [done|]. by destruct (sock c).
Qed.

Lemma send_raw_effort cmd c :
  wire_effort c (_send_raw E cmd c).2 0 1
  ∧ sock (_send_raw E cmd c).2 = sock c
  ∧ logged_in (_send_raw E cmd c).2 = logged_in c
  ∧ (sock c = false → (_send_raw E cmd c).1 = Raise OtherError).
Proof.
  unfold _send_raw. destruct (sock c) eqn:Hs.
  - destruct (net_exchange E cmd (net c)) as [ex n].
    assert (Hw : ∀ o : outcome,
      wire_effort c (o, {| code := code c; sock := true;
                           logged_in := logged_in c; net := n;
                           wire := wire c ++ [WSend cmd] |}).2 0 1).
    { intros o. split; [done|]. exists [WSend cmd]. simpl.
      split; [done|]. split; [by vm_compute|lia]. }
    destruct (sendall_raises ex); simpl;
      (split; [apply (Hw (Ret ""))|done]).
  - simpl. split; [apply wire_effort_mono with 0%nat 0%nat;
                   [apply wire_effort_refl|lia|lia]|].
    by rewrite Hs.
Qed.

Lemma login_effort c :
  wire_effort c (_login E c).2 1 1
  ∧ sock (_login E c).2 = (_login E c).1
  ∧ logged_in (_login E c).2 = (_login E c).1.
Proof.
  unfold _login.
  destruct (connect_effort c) as (He & Hl & Hs).
  destruct (_connect E c) as [ok c1]. simpl in *.
  destruct ok; simpl;
    [|split; [eapply wire_effort_mono; [done|lia|lia]|by rewrite Hl, Hs]].
  destruct (send_raw_effort (login_cmd c1) c1) as (He2 & Hs2 & Hl2 & _).
  destruct (_send_raw E (login_cmd c1) c1) as [r c2]. simpl in *.
  pose proof (wire_effort_trans _ _ _ _ _ _ _ He He2) as He12. simpl in He12.
  destruct (close_effort c2) as (He3 & Hs3 & Hl3).
  pose proof (wire_effort_trans _ _ _ _ _ _ _ He12 He3) as He123.
  simpl in He123.
  destruct r as [resp|e]; [|done].
  destruct (Py.contains ">>Login Ok<<" resp); [|done].
  simpl. split; [|by rewrite Hs2, Hs]. destruct He12 as (Hc & ev & Hw & Hn).
  split; [done|]. by exists ev.
Qed.

(** X2.  [_login] makes exactly as much of the network as one connection
    attempt and at most one exchange, and it ends in one of two states: it
    returns [True] with socket and login both in place, or it returns [False]
    with the session fully closed, whatever state it started from.  It
    returns [True] only when the connection attempt succeeded. *)
Theorem login_all_or_nothing (c : ZenseClient Net) :
  wire_effort c (_login E c).2 1 1
  ∧ sock (_login E c).2 = (_login E c).1
  ∧ logged_in (_login E c).2 = (_login E c).1
  ∧ ((_login E c).1 = true → (_connect E c).1 = true).
Proof.
  destruct (login_effort c) as (He & Hs & Hl).
  do 3 (split; [done|]).
  unfold _login. destruct (_connect E c) as [[|] c1]; [done|]. simpl. done.
Qed.

Lemma attempt_effort cmd c :
  wire_effort c (attempt E cmd c).2 1 2
  ∧ session_settled (attempt E cmd c).2
  ∧ (∀ resp, (attempt E cmd c).1 = Return resp → resp ≠ "" →
     sock (attempt E cmd c).2 = true)
  ∧ ((attempt E cmd c).1 = Continue → sock (attempt E cmd c).2 = false).
Proof.
  unfold attempt, session_settled.
  assert (Hsend : ∀ c1 : ZenseClient Net,
    wire_effort c c1 1 1 → sock c1 = true → logged_in c1 = true →
    let r := (let '(r, c2) := _send_raw E cmd c1 in
              match r with
              | Ret resp => (Return resp, c2)
              | Raise OSError => (Continue, _close c2)
              | Raise OtherError => (Return "", _close c2)
              end) in
    wire_effort c r.2 1 2 ∧ sock r.2 = logged_in r.2
    ∧ (∀ resp, r.1 = Return resp → resp ≠ "" → sock r.2 = true)
    ∧ (r.1 = Continue → sock r.2 = false)).
  { intros c1 He Hs Hl.
    destruct (send_raw_effort cmd c1) as (He2 & Hs2 & Hl2 & _).
    destruct (_send_raw E cmd c1) as [r c2]. simpl in *.
    pose proof (wire_effort_trans _ _ _ _ _ _ _ He He2) as He12.
    simpl in He12.
    destruct (close_effort c2) as (He3 & Hs3 & Hl3).
    pose proof (wire_effort_trans _ _ _ _ _ _ _ He12 He3) as He123.
    simpl in He123.
    destruct r as [resp|[|]]; simpl.
    - split; [done|]. split; [congruence|]. split; [intros; congruence|done].
    - split; [done|]. split; [done|]. split; [done|done].
    - split; [done|]. split; [done|]. split; [|done]. intros resp [= <-]. done. }
  destruct (negb (logged_in c) || negb (sock c)) eqn:Hneed.
  - destruct (login_effort c) as (He & Hs & Hl).
    destruct (_login E c) as [ok c1]. simpl in *. destruct ok; simpl.
    + by apply Hsend.
    + split; [eapply wire_effort_mono; [done|lia|lia]|]. split; [congruence|].
      split; [|done]. intros resp [= <-]. done.
  - apply orb_false_iff in Hneed as [Hl Hs].
    apply negb_false_iff in Hl, Hs.
    apply Hsend; [|done|done].
    eapply wire_effort_mono; [apply wire_effort_refl|lia|lia].
Qed.

Lemma attempts_effort n cmd c :
  wire_effort c (attempts E n cmd c).2 n (2 * n)
  ∧ ((0 < n)%nat → session_settled (attempts E n cmd c).2)
  ∧ ((attempts E n cmd c).1 ≠ "" → sock (attempts E n cmd c).2 = true).
Proof.
  revert c. induction n as [|n IH]; intros c; simpl.
  - split; [apply wire_effort_refl|]. split; [lia|done].
  - destruct (attempt_effort cmd c) as (He & Hset & Hok & Hcont).
    destruct (attempt E cmd c) as [[resp|] c1]; simpl in *.
    + split; [eapply wire_effort_mono; [done|lia|lia]|].
      split; [done|]. intros Hne. by apply (Hok resp).
    + destruct (IH c1) as (He2 & Hset2 & Hok2).
      pose proof (wire_effort_trans _ _ _ _ _ _ _ He He2) as He12.
      split; [eapply wire_effort_mono; [done|lia|lia]|].
      split; [|done]. intros _. destruct n as [|n]; [|apply Hset2; lia].
      simpl. done.
Qed.

(** X3.  Whatever the controller and the network do, and whatever state the
    client starts from, [send_command] with retry count [retry] makes at
    most [retry + 1] connection attempts and at most [2 * (retry + 1)] sends
    (a login and the command in each pass).  When it returns, the session is
    either fully open or fully closed, never a socket without a login; and a
    non-empty response is only ever returned with the session open. *)
Theorem send_command_bounded_and_settled
    (cmd : string) (retry : nat) (c : ZenseClient Net) :
  wire_effort c (send_command E cmd retry c).2 (retry + 1) (2 * (retry + 1))
  ∧ session_settled (send_command E cmd retry c).2
  ∧ ((send_command E cmd retry c).1 ≠ "" →
     sock (send_command E cmd retry c).2 = true
     ∧ logged_in (send_command E cmd retry c).2 = true).
Proof.
  unfold send_command.
  destruct (attempts_effort (retry + 1) cmd c) as (He & Hset & Hok).
  split; [done|]. assert (Hs := Hset ltac:(lia)). split; [done|].
  intros Hne. split; [by apply Hok|]. rewrite <-Hs. by apply Hok.
Qed.

End ClientEffort.

(** ** Numbers as text *)

Section NumberText.
Implicit Types (s a b : string) (c : ascii) (x : N) (n : Z).

Lemma chars_app a b : chars (a +:+ b) = chars a ++ chars b.
Proof. induction a as [|c a IH]; [done|]. rewrite str_app_cons. simpl. by rewrite IH. Qed.

(** The first occurrence of a marker is where it stands when the text before
    it lacks the marker's first character. *)
Lemma find_first_fresh c sep a b :
  c ∉ chars a →
  Py.find_first (String c sep) (a +:+ String c sep +:+ b) = Some (a, b).
Proof.
  induction a as [|d a IH]; intros Hc.
  - rewrite str_app_nil_l.
    assert (H : Py.find_first (String c sep) (String c sep +:+ b)
                = match Py.strip_prefix (String c sep) (String c sep +:+ b) with
                  | Some r => Some ("", r)
                  | None => None
                  end).
    { rewrite strip_prefix_app. rewrite str_app_cons. simpl.
      rewrite decide_True by done.
      change (Py.strip_prefix sep (sep +:+ b)) with
        (Py.strip_prefix sep (sep +:+ b)).
      by rewrite strip_prefix_app. }
    by rewrite H, strip_prefix_app.
  - simpl in Hc. apply not_elem_of_cons in Hc as [Hne Hc].
    rewrite str_app_cons. simpl. rewrite decide_False by done.
    by rewrite (IH Hc).
Qed.

Lemma find_first_lacking c sep s :
  c ∉ chars s → Py.find_first (String c sep) s = None.
Proof.
  induction s as [|d s IH]; intros Hc; [done|].
  simpl in Hc. apply not_elem_of_cons in Hc as [Hne Hc].
  simpl. rewrite decide_False by done. by rewrite (IH Hc).
Qed.

Lemma digit_val_pretty_char x :
  (x < 10)%N → Py.digit_val (pretty_N_char x) = Some (Z.of_N x).
Proof.
  intros Hx.
  assert (x = 0 ∨ x = 1 ∨ x = 2 ∨ x = 3 ∨ x = 4 ∨ x = 5 ∨ x = 6 ∨ x = 7
          ∨ x = 8 ∨ x = 9)%N as Hcases by lia.
  repeat destruct Hcases as [->|Hcases]; try reflexivity. by subst.
Qed.

Lemma all_digits_pretty_go x s :
  Py.all_digits s = true → Py.all_digits (pretty_N_go x s) = true.
Proof.
  revert s. induction (N.lt_wf_0 x) as [x _ IH]; intros s Hs.
  destruct (decide (x = 0)%N) as [->|Hx]; [by rewrite pretty_N_go_0|].
  rewrite pretty_N_go_step by lia. apply IH; [apply N.div_lt; lia|].
  simpl. rewrite Hs, andb_true_r. apply bool_decide_eq_true.
  rewrite digit_val_pretty_char; [eauto|]. by apply N.mod_lt.
Qed.

Lemma int_digits_pretty_go x s after :
  (0 < x)%N →
  Py.int_digits 0 after (pretty_N_go x s) = Py.int_digits (Z.of_N x) true s.
Proof.
  revert s after. induction (N.lt_wf_0 x) as [x _ IH]; intros s after Hx.
  rewrite pretty_N_go_step by done.
  assert (Hd : Py.digit_val (pretty_N_char (x `mod` 10)) = Some (Z.of_N (x `mod` 10)))
    by (apply digit_val_pretty_char; by apply N.mod_lt).
  assert (Hx10 : (Z.of_N (x `div` 10) * 10 + Z.of_N (x `mod` 10) = Z.of_N x)%Z).
  { pose proof (N.div_mod x 10 ltac:(done)) as Hdm.
    apply (f_equal Z.of_N) in Hdm.
    rewrite N2Z.inj_add, N2Z.inj_mul in Hdm. lia. }
  destruct (decide (x `div` 10 = 0)%N) as [Hz|Hnz].
  - rewrite Hz, pretty_N_go_0. simpl. rewrite Hd. f_equal.
    rewrite Hz in Hx10. lia.
  - rewrite IH; [|apply N.div_lt; lia|by apply N.neq_0_lt_0].
    simpl. rewrite Hd. by rewrite Hx10.
Qed.

Lemma pretty_N_all_digits x : Py.all_digits (pretty x) = true.
Proof.
  unfold pretty, pretty_N. case_decide; [done|]. by apply all_digits_pretty_go.
Qed.

Lemma pretty_N_nonempty x : pretty x ≠ "".
Proof.
  destruct (pretty_N_last x) as (c & Hc & _). intros E. by rewrite E in Hc.
Qed.

(** A number below [10 ^ k] is written with at most [k] digits. *)
Lemma pretty_N_go_length (k : nat) x s :
  (x < 10 ^ N.of_nat k)%N →
  (String.length (pretty_N_go x s) ≤ k + String.length s)%nat.
Proof.
  revert x s. induction k as [|k IH]; intros x s Hx.
  - assert (x = 0%N) as -> by (simpl in Hx; lia). by rewrite pretty_N_go_0.
  - destruct (decide (x = 0)%N) as [->|Hx0]; [rewrite pretty_N_go_0; lia|].
    rewrite pretty_N_go_step by lia.
    etrans; [apply IH|simpl; lia].
    rewrite Nat2N.inj_succ, N.pow_succ_r' in Hx.
    by apply N.Div0.div_lt_upper_bound.
Qed.

Lemma pretty_N_length (k : nat) x :
  (0 < k)%nat → (x < 10 ^ N.of_nat k)%N → (String.length (pretty x) ≤ k)%nat.
Proof.
  intros Hk Hx. unfold pretty, pretty_N. case_decide; [simpl; lia|].
  etrans; [by apply (pretty_N_go_length k)|]. simpl. lia.
Qed.

Lemma fits_digits n :
  Py.fits n →
  Z.of_nat (String.length (pretty (Z.abs_N n))) ≤ Py.int_max_str_digits.
Proof.
  unfold Py.fits, Py.int_max_str_digits. intros Hn.
  change 4300 with (Z.of_nat 4300). apply inj_le.
  apply pretty_N_length; [apply Nat.ltb_lt; by vm_compute|].
  apply N2Z.inj_lt. rewrite N2Z.inj_abs_N, N2Z.inj_pow.
  change (Z.of_N (N.of_nat 4300)) with 4300. exact Hn.
Qed.

Lemma int_pretty_N x :
  Z.of_nat (String.length (pretty x)) ≤ Py.int_max_str_digits →
  Py.int (pretty x) = Some (Z.of_N x).
Proof.
  intros Hlen.
  pose proof (pretty_N_all_digits x) as Hall.
  pose proof (pretty_N_nonempty x) as Hne.
  rewrite (int_all_digits _ Hall Hne).
  destruct (Z.ltb_spec Py.int_max_str_digits
              (Z.of_nat (String.length (pretty x)))) as [Hlt|_];
    [exfalso; revert Hlen Hlt; generalize Py.int_max_str_digits; lia|].
  unfold pretty, pretty_N. case_decide as Hx; [by subst|].
  rewrite int_digits_pretty_go by lia. done.
Qed.

Lemma int_of_str n : Py.fits n → Py.int (Py.str n) = Some n.
Proof.
  intros Hfit%fits_digits. unfold Py.str. destruct n as [|p|p].
  - reflexivity.
  - apply (int_pretty_N (N.pos p)). exact Hfit.
  - change (pretty (Z.neg p)) with (String "-" (pretty (N.pos p))).
    change (Z.abs_N (Z.neg p)) with (N.pos p) in Hfit.
    pose proof (pretty_N_all_digits (N.pos p)) as Hall.
    pose proof (pretty_N_nonempty (N.pos p)) as Hne.
    assert (Hstrip : Py.rstrip Py.int_space
                       (Py.lstrip Py.int_space (String "-" (pretty (N.pos p))))
                     = String "-" (pretty (N.pos p))).
    { apply (rstrip_keeps Py.int_space (String "-" (pretty (N.pos p)))).
      intros c [->|Hin]%elem_of_cons; [done|].
      by apply digit_not_int_space, (all_digits_chars (pretty (N.pos p))). }
    unfold Py.int. rewrite Hstrip.
    pose proof (int_pretty_N (N.pos p) Hfit) as Hint.
    rewrite (int_all_digits _ Hall Hne) in Hint.
    unfold Py.int_body. rewrite (digit_count_all_digits _ Hall).
    by rewrite Hint.
Qed.

End NumberText.

(** ** Decoding what the controller answers *)

Section Decoding.
Implicit Types (s a b body : string) (c : ascii) (n did : Z).

Lemma str_chars n c : c ∈ chars (Py.str n) → is_digit_char c ∨ c = "-"%char.
Proof.
  unfold Py.str. destruct n as [|p|p].
  - intros [->|[]%elem_of_nil]%elem_of_cons. left. vm_compute. eauto.
  - intros Hin. left.
    by apply (all_digits_chars _ _ (pretty_N_all_digits (N.pos p))).
  - change (pretty (Z.neg p)) with (String "-" (pretty (N.pos p))). simpl.
    intros [->|Hin]%elem_of_cons; [by right|left].
    by apply (all_digits_chars _ _ (pretty_N_all_digits (N.pos p))).
Qed.

Lemma str_lacks n c : ¬ is_digit_char c → c ≠ "-"%char → c ∉ chars (Py.str n).
Proof. intros Hd Hm Hin. by destruct (str_chars n c Hin). Qed.

Lemma strip_str n : Py.strip (Py.str n) = Py.str n.
Proof.
  unfold Py.str. destruct n as [|p|p].
  - reflexivity.
  - apply strip_digits, (pretty_N_all_digits (N.pos p)).
  - change (pretty (Z.neg p)) with (String "-" (pretty (N.pos p))).
    unfold Py.strip. simpl.
    rewrite (rstrip_digits _ (pretty_N_all_digits (N.pos p))).
    rewrite bool_decide_eq_false_2; [done|]. apply pretty_N_nonempty.
Qed.

(** The text between a prefix and an end marker is read back exactly when
    neither marker's first character occurs where it should not. *)
Lemma between_framed c1 p c2 e body :
  c1 ∉ chars (body +:+ String c2 e) → c2 ∉ chars body →
  between (String c1 p) (String c2 e) (String c1 p +:+ body +:+ String c2 e)
  = body.
Proof.
  intros H1 H2.
  apply (between_cut _ _ _ "" (body +:+ String c2 e) (body +:+ String c2 e) body);
    try done.
  - apply find_first_Some.
    rewrite <-(str_app_nil_l (String c1 p +:+ body +:+ String c2 e)).
    apply find_first_fresh. by intros ?%elem_of_nil.
  - right. split; [|done]. apply find_first_None. by apply find_first_lacking.
  - left. exists "". apply find_first_Some.
    pose proof (find_first_fresh c2 e body "" H2) as Hf.
    by rewrite str_app_nil_r in Hf.
Qed.

Lemma contains_prefixed c p rest :
  Py.contains (String c p) (String c p +:+ rest) = true.
Proof.
  apply contains_occurs. exists "", rest. by rewrite str_app_nil_l.
Qed.

Lemma digits_lack s c :
  Py.all_digits s = true → ¬ is_digit_char c → c ∉ chars s.
Proof. intros Hs Hc Hin. by apply Hc, (all_digits_chars s). Qed.

(** X4.  [get_level] reads back the level that the controller reports: on
    the reply [>>Get n<<] the parser returns [n], for every integer [n] of
    at most 4300 digits.  On a numeral of more digits [int] raises, the
    handler in [get_level] catches it, and the level is unknown. *)
Theorem parse_level_roundtrip (n : Z) (s : string) :
  (Py.fits n → parse_level (">>Get " +:+ Py.str n +:+ "<<") = Some n)
  ∧ (Py.all_digits s = true →
     Py.int_max_str_digits < Z.of_nat (String.length s) →
     parse_level (">>Get " +:+ s +:+ "<<") = None).
Proof.
  split.
  - intros Hfit. unfold parse_level. rewrite contains_prefixed.
    rewrite between_framed.
    + by rewrite strip_str, int_of_str.
    + rewrite chars_app. intros [Hin|Hin]%elem_of_app.
      * revert Hin. apply str_lacks; [|done]. by intros [? [=]].
      * by repeat (apply elem_of_cons in Hin as [Hin|Hin]; [done|]);
          apply elem_of_nil in Hin.
    + apply str_lacks; [|done]. by intros [? [=]].
  - intros Hall Hlong. unfold parse_level. rewrite contains_prefixed.
    rewrite between_framed.
    + rewrite (strip_digits _ Hall), int_all_digits; [|done|].
      * by rewrite (proj2 (Z.ltb_lt _ _) Hlong).
      * intros ->. revert Hlong. by vm_compute.
    + rewrite chars_app. intros [Hin|Hin]%elem_of_app.
      * revert Hin. apply digits_lack; [done|]. by intros [? [=]].
      * by repeat (apply elem_of_cons in Hin as [Hin|Hin]; [done|]);
          apply elem_of_nil in Hin.
    + apply digits_lack; [done|]. by intros [? [=]].
Qed.

Lemma strip_space_led s : Py.strip (" " +:+ s) = Py.strip s.
Proof. done. Qed.

Lemma isdigit_all_digits s :
  Py.all_digits s = true → s ≠ "" → Py.isdigit s = true.
Proof.
  intros Hall Hne. unfold Py.isdigit.
  rewrite bool_decide_eq_false_2 by done. simpl.
  induction s as [|c s IH]; [done|]. simpl in *.
  apply andb_true_iff in Hall as [Hc Hs]. unfold Py.isdigit_char.
  rewrite Hc. simpl. destruct s as [|c' s']; [done|]. by apply IH.
Qed.

Lemma isdigit_str n : Py.isdigit (Py.str n) = bool_decide (0 ≤ n).
Proof.
  unfold Py.str. destruct n as [|p|p].
  - reflexivity.
  - rewrite (isdigit_all_digits (pretty (Z.pos p)));
      [|apply (pretty_N_all_digits (N.pos p))|apply (pretty_N_nonempty (N.pos p))].
    by rewrite bool_decide_eq_true_2.
  - change (pretty (Z.neg p)) with (String "-" (pretty (N.pos p))).
    unfold Py.isdigit. rewrite (bool_decide_eq_false_2 (0 ≤ Z.neg p)) by lia.
    apply andb_false_iff. right. done.
Qed.

(** X5.  What [uid] writes, [on_message] reads back: stripping the uid
    prefix from the uid of a device and applying [int] gives the device id,
    for every prefix and every id of at most 4300 digits (the ids that [int]
    can have produced), because [int(str(n)) == n] for these.  The text of
    [n] has no white space for [strip] to remove, and it passes [isdigit]
    exactly when [n] is not negative. *)
Theorem uid_decodes_to_device (cfg : Config) (n : Z) :
  (Py.fits n →
   Py.strip_prefix (UID_PREFIX cfg) (uid cfg n) ≫= Py.int = Some n
   ∧ Py.int (Py.str n) = Some n)
  ∧ Py.strip (Py.str n) = Py.str n
  ∧ Py.isdigit (Py.str n) = bool_decide (0 ≤ n).
Proof.
  split; [|split; [apply strip_str|apply isdigit_str]].
  intros Hfit.
  split; [unfold uid; rewrite strip_prefix_app; by apply int_of_str|].
  by apply int_of_str.
Qed.

Lemma join_cons sep t t' ts :
  join sep (t :: t' :: ts) = t +:+ sep +:+ join sep (t' :: ts).
Proof. done. Qed.

Lemma split_join_comma pre t ts :
  ","%char ∉ chars pre → Forall (fun x => ","%char ∉ chars x) (t :: ts) →
  Py.split "," (pre +:+ join ", " (t :: ts))
  = (pre +:+ t) :: map (fun x => " " +:+ x) ts.
Proof.
  revert pre t. induction ts as [|t' ts IH]; intros pre t Hpre Hall.
  - simpl. apply split_absent, find_first_None, find_first_lacking.
    rewrite chars_app. apply Forall_cons in Hall as [Ht _].
    by intros [?|?]%elem_of_app.
  - apply Forall_cons in Hall as [Ht Hall]. rewrite join_cons.
    assert (Hcut : first_cut "," (pre +:+ t +:+ ", " +:+ join ", " (t' :: ts))
                     (pre +:+ t) (" " +:+ join ", " (t' :: ts))).
    { apply find_first_Some.
      change (", " +:+ join ", " (t' :: ts))
        with ("," +:+ (" " +:+ join ", " (t' :: ts))).
      rewrite <-(str_app_assoc pre t).
      apply find_first_fresh. rewrite chars_app.
      by intros [?|?]%elem_of_app. }
    rewrite (split_cut "," _ _ _ ltac:(done) Hcut).
    rewrite (IH " " t'); [done| |done].
    by intros [[=]|[]%elem_of_nil]%elem_of_cons.
Qed.

(** X6.  [get_devices] reads back a device list: on the reply
    [>>Get Devices i1, i2, ...<<], with ids of at most 4300 digits, the
    parser returns the ids in the order sent, leaving out the negative ones
    (a token with a sign does not pass [isdigit]); on an empty list it
    returns no id.  On a list whose one id is a numeral of more than 4300
    digits the token passes [isdigit], [int] raises, and so does
    [get_devices]. *)
Theorem parse_devices_roundtrip (ids : list Z) (s : string) :
  (Forall Py.fits ids →
   parse_devices (">>Get Devices " +:+ join ", " (map Py.str ids) +:+ "<<")
   = Some (filter (fun id => 0 ≤ id) ids))
  ∧ (Py.all_digits s = true →
     Py.int_max_str_digits < Z.of_nat (String.length s) →
     parse_devices (">>Get Devices " +:+ s +:+ "<<") = None).
Proof.
  split; [|intros Hall Hlong].
  2:{ assert (Hne : s ≠ "") by (intros ->; revert Hlong; by vm_compute).
      unfold parse_devices. rewrite contains_prefixed.
      rewrite between_framed.
      - rewrite (split_absent "," s).
        2:{ apply find_first_None, find_first_lacking.
            apply digits_lack; [done|]. by intros [? [=]]. }
        simpl. rewrite (strip_digits _ Hall), filter_cons_True
          by by apply isdigit_all_digits.
        rewrite filter_nil. simpl. rewrite int_all_digits by done.
        by rewrite (proj2 (Z.ltb_lt _ _) Hlong).
      - rewrite chars_app. intros [Hin|Hin]%elem_of_app.
        + revert Hin. apply digits_lack; [done|]. by intros [? [=]].
        + by repeat (apply elem_of_cons in Hin as [Hin|Hin]; [done|]);
            apply elem_of_nil in Hin.
      - apply digits_lack; [done|]. by intros [? [=]]. }
  intros Hfits.
  unfold parse_devices. rewrite contains_prefixed.
  assert (Hjoin : ∀ c, ¬ is_digit_char c → c ≠ "-"%char → c ≠ ","%char →
                       c ≠ " "%char → c ∉ chars (join ", " (map Py.str ids))).
  { intros c Hd Hm Hc Hs. clear Hfits.
    induction ids as [|i ids IH]; [by intros ?%elem_of_nil|].
    destruct ids as [|i' ids]; [by apply str_lacks|].
    change (map Py.str (i :: i' :: ids))
      with (Py.str i :: Py.str i' :: map Py.str ids).
    rewrite join_cons, !chars_app.
    intros [Hin|[Hin|Hin]%elem_of_app]%elem_of_app.
    - by apply (str_lacks i c).
    - by repeat (apply elem_of_cons in Hin as [Hin|Hin]; [done|]);
        apply elem_of_nil in Hin.
    - by apply IH. }
  rewrite between_framed.
  2:{ rewrite chars_app. intros [Hin|Hin]%elem_of_app.
      - revert Hin. apply Hjoin; try done. by intros [? [=]].
      - by repeat (apply elem_of_cons in Hin as [Hin|Hin]; [done|]);
          apply elem_of_nil in Hin. }
  2:{ apply Hjoin; try done. by intros [? [=]]. }
  destruct ids as [|i ids]; [reflexivity|].
  rewrite <-(str_app_nil_l (join ", " (map Py.str (i :: ids)))).
  change (map Py.str (i :: ids)) with (Py.str i :: map Py.str ids).
  rewrite split_join_comma.
  2:{ by intros ?%elem_of_nil. }
  2:{ apply Forall_forall. intros x Hx.
      change (Py.str i :: map Py.str ids) with (map Py.str (i :: ids)) in Hx.
      apply list_elem_of_In, in_map_iff in Hx as (j & <- & _).
      apply str_lacks; [|done]. by intros [? [=]]. }
  rewrite str_app_nil_l.
  assert (Htoks : map Py.strip (Py.str i :: map (fun x => " " +:+ x) (map Py.str ids))
                  = map Py.str (i :: ids)).
  { simpl. rewrite strip_str. f_equal. clear.
    induction ids as [|j l IH]; [done|].
    simpl map. rewrite strip_space_led, strip_str. by f_equal. }
  rewrite Htoks. clear Htoks Hjoin. revert Hfits.
  induction (i :: ids) as [|j l IH]; [done|].
  intros [Hj Hl]%Forall_cons.
  simpl. rewrite filter_cons, (filter_cons (fun id => 0 ≤ id)).
  rewrite isdigit_str.
  destruct (decide (0 ≤ j)) as [Hpos|Hneg].
  - rewrite bool_decide_eq_true_2 by done. rewrite decide_True by done.
    simpl. rewrite (int_of_str j Hj). simpl. by rewrite (IH Hl).
  - rewrite bool_decide_eq_false_2 by done. rewrite decide_False by done.
    by apply IH.
Qed.

(** X7.  [get_name] never hands back an empty name, nor the sentinel
    "Timeout" in any letter case: whatever the controller answered, the
    result is fit to be shown as a device name. *)
Theorem parse_name_presentable (did : Z) (resp : string) :
  parse_name did resp ≠ "" ∧ Py.lower (parse_name did resp) ≠ "timeout".
Proof.
  assert (Hfb : "Device_" +:+ Py.str did ≠ ""
                ∧ Py.lower ("Device_" +:+ Py.str did) ≠ "timeout").
  { split; [done|]. unfold Py.lower. simpl. discriminate. }
  unfold parse_name. destruct (Py.contains ">>Get Name " resp); [|done].
  set (nm := Py.strip_quote (Py.strip (between ">>Get Name " "<<" resp))).
  destruct (decide (nm = "")) as [E1|E1].
  { by rewrite (bool_decide_eq_true_2 _ E1). }
  rewrite (bool_decide_eq_false_2 _ E1). simpl.
  destruct (decide (Py.lower nm = "timeout")) as [E2|E2].
  { by rewrite (bool_decide_eq_true_2 _ E2). }
  by rewrite (bool_decide_eq_false_2 _ E2).
Qed.

End Decoding.

Lemma parse_level_roundtrip_witness :
  Py.fits 42
  ∧ parse_level ">>Get 42<<" = Some 42
  ∧ Py.all_digits long_numeral = true
  ∧ Py.int_max_str_digits < Z.of_nat (String.length long_numeral)
  ∧ parse_level (">>Get " +:+ long_numeral +:+ "<<") = None.
Proof.
  assert (Hfit : Py.fits 42) by (vm_compute; reflexivity).
  assert (Hall : Py.all_digits long_numeral = true) by (vm_compute; reflexivity).
  assert (Hlong : Py.int_max_str_digits < Z.of_nat (String.length long_numeral))
    by (vm_compute; reflexivity).
  destruct (parse_level_roundtrip 42 long_numeral) as [H1 H2].
  split; [exact Hfit|]. split; [exact (H1 Hfit)|].
  split; [exact Hall|]. split; [exact Hlong|]. exact (H2 Hall Hlong).
Defined.

Lemma uid_decodes_to_device_witness :
  Py.fits 5
  ∧ Py.strip_prefix (UID_PREFIX default_config) (uid default_config 5) ≫= Py.int
    = Some 5.
Proof.
  assert (Hfit : Py.fits 5) by (vm_compute; reflexivity).
  destruct (uid_decodes_to_device default_config 5) as [H _].
  split; [exact Hfit|]. exact (proj1 (H Hfit)).
Defined.

Lemma parse_devices_roundtrip_witness :
  Forall Py.fits [3; -4; 5]
  ∧ parse_devices ">>Get Devices 3, -4, 5<<" = Some [3; 5]
  ∧ Py.all_digits long_numeral = true
  ∧ Py.int_max_str_digits < Z.of_nat (String.length long_numeral)
  ∧ parse_devices (">>Get Devices " +:+ long_numeral +:+ "<<") = None.
Proof.
  assert (Hfit : Forall Py.fits [3; -4; 5])
    by (repeat (constructor; [vm_compute; reflexivity|]); constructor).
  assert (Hall : Py.all_digits long_numeral = true) by (vm_compute; reflexivity).
  assert (Hlong : Py.int_max_str_digits < Z.of_nat (String.length long_numeral))
    by (vm_compute; reflexivity).
  destruct (parse_devices_roundtrip [3; -4; 5] long_numeral) as [H1 H2].
  split; [exact Hfit|]. split; [exact (H1 Hfit)|].
  split; [exact Hall|]. split; [exact Hlong|]. exact (H2 Hall Hlong).
Defined.

(** ** Brightness scaling *)

Lemma scale_brightness_upper_bounds :
  Forall (fun r => 40 ≤ scale_brightness r ≤ 100) (seqZ 101 155).
Proof. apply (bool_decide_unpack _). vm_compute. reflexivity. Qed.

Lemma scale_brightness_cases raw :
  raw < 0 ∧ scale_brightness raw = 0
  ∨ 0 ≤ raw ≤ 100 ∧ scale_brightness raw = raw
  ∨ 100 < raw ∧ 40 ≤ scale_brightness raw ≤ 100.
Proof.
  destruct (Z.ltb_spec raw 0) as [Hneg|Hnn].
  - left. split; [done|]. unfold scale_brightness.
    by destruct (Z.ltb_spec raw 0); [|lia].
  - destruct (Z.leb_spec raw 100) as [Hle|Hgt].
    + right. left. split; [done|]. unfold scale_brightness, BRIGHTNESS_SCALE.
      destruct (Z.ltb_spec raw 0); [lia|].
      by destruct (Z.leb_spec raw 100); [|lia].
    + right. right. split; [done|].
      set (r := Z.min raw 255).
      assert (Heq : scale_brightness raw = scale_brightness r).
      { unfold scale_brightness, BRIGHTNESS_SCALE.
        destruct (Z.ltb_spec raw 0); [lia|].
        destruct (Z.leb_spec raw 100); [lia|].
        destruct (Z.ltb_spec r 0); [unfold r in *; lia|].
        destruct (Z.leb_spec r 100); [unfold r in *; lia|].
        fold r. by replace (Z.min r 255) with r by (unfold r; lia). }
      rewrite Heq. pose proof scale_brightness_upper_bounds as Hall.
      rewrite Forall_forall in Hall. apply Hall, elem_of_seqZ.
      unfold r. lia.
Qed.

Lemma scale_brightness_bounds raw : 0 ≤ scale_brightness raw ≤ 100.
Proof. destruct (scale_brightness_cases raw) as [[? ->]|[[? ->]|[? ?]]]; lia. Qed.

(** X8.  [scale_brightness] always lands in [0, 100], so the clamp in
    [_accumulate] never changes what it produced, and applying it twice is
    the same as applying it once.  Its result is 0 exactly for inputs that
    are 0 or negative, and an input above 100 never gives less than 40. *)
Theorem scale_brightness_range (raw : Z) :
  0 ≤ scale_brightness raw ≤ 100
  ∧ clamp 0 BRIGHTNESS_SCALE (scale_brightness raw) = scale_brightness raw
  ∧ scale_brightness (scale_brightness raw) = scale_brightness raw
  ∧ (scale_brightness raw = 0 ↔ raw ≤ 0)
  ∧ (100 < raw → 40 ≤ scale_brightness raw).
Proof.
  pose proof (scale_brightness_cases raw) as Hcases.
  assert (Hid : ∀ v, 0 ≤ v ≤ 100 → scale_brightness v = v).
  { intros v Hv. unfold scale_brightness, BRIGHTNESS_SCALE.
    destruct (Z.ltb_spec v 0); [lia|]. by destruct (Z.leb_spec v 100); [|lia]. }
  pose proof (scale_brightness_bounds raw) as Hrange.
  split; [done|]. split; [unfold clamp, BRIGHTNESS_SCALE; lia|].
  split; [by apply Hid|]. split; [|destruct Hcases as [[? ?]|[[? ?]|[? ?]]]; lia].
  destruct Hcases as [[? ->]|[[? ->]|[? ?]]]; lia.
Qed.

Lemma scale_brightness_range_witness :
  (100 < 101) ∧ 40 ≤ scale_brightness 101 ∧ scale_brightness 100 = 100.
Proof.
  destruct (scale_brightness_range 101) as (_ & _ & _ & _ & Hup).
  split; [lia|]. split; [apply Hup; lia|reflexivity].
Defined.

(** ** Publishing a state *)

Section PublishState.
Context {Net : Type} (cfg : Config).
Implicit Types (b : Bridge Net) (did : Z).

(** X9.  After [pub_state(did, level)] the record of published levels
    holds the clamped level for that device and is unchanged for every other
    device; the call changes nothing but that record and the events; what it
    publishes is either nothing or the pair of state and brightness, the
    state being "OFF" exactly when the brightness is 0; and a second call
    with the same arguments does nothing at all. *)
Theorem pub_state_records_level (b : Bridge Net) (did lvl : Z) :
  last_level_pub (pub_state cfg did lvl b) !! uid cfg did
  = Some (clamp 0 BRIGHTNESS_SCALE lvl)
  ∧ (∀ did', did' ≠ did →
       last_level_pub (pub_state cfg did lvl b) !! uid cfg did'
       = last_level_pub b !! uid cfg did')
  ∧ pub_state cfg did lvl (pub_state cfg did lvl b) = pub_state cfg did lvl b
  ∧ (events_since (trace b) (trace (pub_state cfg did lvl b)) = []
     ∨ ∃ st, events_since (trace b) (trace (pub_state cfg did lvl b))
             = [EvPublish (t_state (topics cfg (uid cfg did))) st true;
                EvPublish (t_b_state (topics cfg (uid cfg did)))
                  (Py.str (clamp 0 BRIGHTNESS_SCALE lvl)) true]
           ∧ (st = "OFF" ↔ clamp 0 BRIGHTNESS_SCALE lvl = 0)
           ∧ (st = "ON" ↔ 0 < clamp 0 BRIGHTNESS_SCALE lvl))
  ∧ cmd_q (pub_state cfg did lvl b) = cmd_q b
  ∧ pending (pub_state cfg did lvl b) = pending b
  ∧ known (pub_state cfg did lvl b) = known b
  ∧ z (pub_state cfg did lvl b) = z b.
Proof.
  destruct (pub_state_events cfg did lvl b)
    as (Hq & Hp & _ & Hz & Hk & Hcase).
  assert (Hrec : last_level_pub (pub_state cfg did lvl b) !! uid cfg did
                 = Some (clamp 0 BRIGHTNESS_SCALE lvl)).
  { destruct Hcase as [[Hl ->]|(_ & -> & _)]; [done|].
    by rewrite lookup_insert_eq. }
  split; [done|]. split.
  { intros did' Hne. destruct Hcase as [[_ ->]|(_ & -> & _)]; [done|].
    rewrite lookup_insert_ne; [done|]. intros Heq. by apply uid_inj in Heq. }
  split.
  { unfold pub_state at 1. by rewrite (bool_decide_eq_true_2 _ Hrec). }
  split; [|done].
  destruct Hcase as [[_ ->]|(_ & _ & ->)].
  - left. rewrite <-(app_nil_r (trace b)) at 2. apply events_since_app.
  - right. rewrite events_since_app. eexists. split; [done|].
    destruct (Z.ltb_spec 0 (clamp 0 BRIGHTNESS_SCALE lvl)) as [Hpos|Hz0].
    + split; split; intros; first [done|lia|exfalso; lia].
    + assert (clamp 0 BRIGHTNESS_SCALE lvl = 0)
        by (unfold clamp, BRIGHTNESS_SCALE in *; lia).
      split; split; intros; first [done|lia|exfalso; lia].
Qed.

End PublishState.

(** ** Topics *)

Section Topics.
Variable cfg : Config.
Implicit Types (did d : Z) (r : role).

Lemma cmd_last u : str_last (t_cmd (topics cfg u)) = Some "t"%char.
Proof. simpl. by do 3 apply str_last_suffix. Qed.

Lemma b_cmd_last u : str_last (t_b_cmd (topics cfg u)) = Some "t"%char.
Proof. simpl. by do 3 apply str_last_suffix. Qed.

Lemma topic_last r did :
  str_last (topic_of cfg r did)
  = Some (match r with
          | RCmd | RBCmd => "t" | RState | RBState => "e" | RDisc => "g"
          end%char).
Proof.
  destruct r; unfold topic_of.
  - apply cmd_last.
  - apply state_last.
  - apply b_cmd_last.
  - apply b_state_last.
  - apply disc_last.
Qed.

(** A uid never ends in the word "brightness": it ends in a digit. *)
Lemma uid_not_brightness d d' : uid cfg d' ≠ uid cfg d +:+ "/brightness".
Proof.
  unfold uid. rewrite str_app_assoc. intros H.
  apply (inj (String.append _)) in H. apply (f_equal str_last) in H.
  rewrite (str_last_suffix _ "/brightness" "s"%char) in H by done.
  destruct (str_last_digit d') as (c & Hc & Hd). rewrite Hc in H.
  injection H as ->. by destruct Hd as [? [=]].
Qed.

(** X10.  No two topics of the bridge coincide: the topic of a device in a
    role determines both the device and the role, and none of them is the
    availability topic.  So a message on one topic is never taken for
    another device or for another kind of message. *)
Theorem topic_of_injective (r r' : role) (d d' : Z) :
  (topic_of cfg r d = topic_of cfg r' d' → r = r' ∧ d = d')
  ∧ topic_of cfg r d ≠ AVAIL_TOPIC cfg.
Proof.
  split.
  - intros H. pose proof (f_equal str_last H) as Hl.
    rewrite !topic_last in Hl.
    destruct r, r'; try discriminate Hl; unfold topic_of in H; simpl in H.
    + split; [done|]. do 2 apply (inj (String.append _)) in H.
      apply str_app_inv_r in H. by apply uid_inj in H.
    + exfalso. do 2 apply (inj (String.append _)) in H.
      change "/brightness/set" with ("/brightness" +:+ "/set") in H.
      rewrite <-str_app_assoc in H. apply str_app_inv_r in H.
      by apply uid_not_brightness in H.
    + split; [done|]. do 2 apply (inj (String.append _)) in H.
      apply str_app_inv_r in H. by apply uid_inj in H.
    + exfalso. do 2 apply (inj (String.append _)) in H.
      change "/brightness/state" with ("/brightness" +:+ "/state") in H.
      rewrite <-str_app_assoc in H. apply str_app_inv_r in H.
      by apply uid_not_brightness in H.
    + exfalso. do 2 apply (inj (String.append _)) in H.
      change "/brightness/set" with ("/brightness" +:+ "/set") in H.
      rewrite <-str_app_assoc in H. apply str_app_inv_r in H. symmetry in H.
      by apply uid_not_brightness in H.
    + split; [done|]. do 2 apply (inj (String.append _)) in H.
      apply str_app_inv_r in H. by apply uid_inj in H.
    + exfalso. do 2 apply (inj (String.append _)) in H.
      change "/brightness/state" with ("/brightness" +:+ "/state") in H.
      rewrite <-str_app_assoc in H. apply str_app_inv_r in H. symmetry in H.
      by apply uid_not_brightness in H.
    + split; [done|]. by apply (b_state_inj cfg).
    + split; [done|]. by apply (disc_inj cfg).
  - intros H. apply (f_equal str_last) in H. rewrite topic_last in H.
    unfold AVAIL_TOPIC in H.
    rewrite (str_last_suffix _ "/availability" "y"%char) in H by done.
    by destruct r.
Qed.

End Topics.

Lemma topic_of_injective_witness :
  topic_of default_config RBCmd 5 = topic_of default_config RBCmd 5
  ∧ RBCmd = RBCmd ∧ 5 = 5.
Proof.
  split; [reflexivity|].
  apply (topic_of_injective default_config RBCmd RBCmd 5 5). reflexivity.
Defined.

(** ** Ingress: what [on_message] does and does not do *)

Section IngressMore.
Context {Net : Type} (cfg : Config) (L : PyLib).
Implicit Types (b : Bridge Net) (did : Z) (topic payload : string).

(** X11.  [on_message] does one of three things: nothing at all; or it
    enqueues exactly one intent (a discovery, or an Off or On for the device
    named by the topic) and touches nothing else; or it enqueues exactly one
    Level intent whose brightness lies in [0, 100] and stamps the time for
    that device.  It never publishes, and never touches the pending map, the
    client, the known devices or the record of published levels. *)
Theorem on_message_only_enqueues (topic payload : string) (now : Q)
    (b : Bridge Net) :
  on_message cfg L topic payload now b = b
  ∨ on_message cfg L topic payload now b = put ("discover", 0, None) b
  ∨ (∃ did, decode_did cfg topic = Some did
       ∧ (on_message cfg L topic payload now b = put ("off", did, None) b
          ∨ on_message cfg L topic payload now b = put ("on", did, None) b))
  ∨ (∃ did br, decode_did cfg topic = Some did ∧ 0 ≤ br ≤ 100
       ∧ on_message cfg L topic payload now b
         = put ("level", did, Some br)
               (with_last_level_ts (<[did := now]> (last_level_ts b)) b)).
Proof.
  destruct (decode_did cfg topic) as [did|] eqn:Hd.
  - rewrite (on_message_decoded cfg L _ _ _ _ _ Hd).
    destruct (Py.endswith "/brightness/set" topic).
    + destruct (_to_int L (Py.strip payload)) as [raw|]; [|by left].
      right. right. right. exists did, (scale_brightness raw).
      split; [done|]. split; [|done]. apply scale_brightness_bounds.
    + destruct (Py.endswith "/set" topic); [|by left].
      case_bool_decide; [right; right; left; exists did; by split; [|left]|].
      case_bool_decide; [|by left].
      destruct (Qle_bool _ _); [by left|].
      right; right; left; exists did; by split; [|right].
  - unfold on_message, decode_did in *.
    repeat case_match; simplify_eq; auto.
Qed.

Lemma on_message_undecodable topic payload now b :
  decode_did cfg topic = None →
  ¬ (topic = "homeassistant/status" ∧ Py.strip payload = "online") →
  on_message cfg L topic payload now b = b.
Proof.
  intros Hd Hns. unfold on_message, decode_did in *.
  case_bool_decide as Ht; [case_bool_decide as Hp; [tauto|]|]; simpl;
    repeat case_match; simplify_eq; done.
Qed.

(** X12.  A message whose topic does not name a device is dropped without
    a trace, unless it is the announcement that the MQTT side came online,
    which is answered by a discovery request whatever the topic decodes
    to. *)
Theorem on_message_drops_undecodable (topic payload : string) (now : Q)
    (b : Bridge Net) :
  (decode_did cfg topic = None →
   ¬ (topic = "homeassistant/status" ∧ Py.strip payload = "online") →
   on_message cfg L topic payload now b = b)
  ∧ (topic = "homeassistant/status" → Py.strip payload = "online" →
     on_message cfg L topic payload now b = put ("discover", 0, None) b).
Proof.
  split; [apply on_message_undecodable|].
  intros -> Hp. unfold on_message.
  by rewrite bool_decide_eq_true_2, (bool_decide_eq_true_2 _ Hp).
Qed.

End IngressMore.

Lemma on_message_drops_undecodable_witness :
  decode_did default_config "homeassistant/zense_bridge/lamp_5/set" = None
  ∧ on_message default_config example_lib
      "homeassistant/zense_bridge/lamp_5/set" "ON" 10
      (Bridge_init default_config level_run_net)
    = Bridge_init default_config level_run_net.
Proof.
  assert (H : decode_did default_config "homeassistant/zense_bridge/lamp_5/set"
              = None) by (vm_compute; reflexivity).
  split; [exact H|].
  apply (on_message_drops_undecodable default_config example_lib _ "ON" 10
           (Bridge_init default_config level_run_net)); [exact H|].
  intros [Ht _]. discriminate Ht.
Defined.

(** ** The topics that discovery advertises *)

Section Advertised.
Implicit Types (s a suf : string) (c : ascii) (did : Z).

Lemma endswith_app suf a : Py.endswith suf (a +:+ suf) = true.
Proof.
  induction a as [|c a IH].
  - rewrite str_app_nil_l. destruct suf; unfold Py.endswith; by case_decide.
  - rewrite str_app_cons. cbn [Py.endswith]. rewrite IH. by case_decide.
Qed.

Lemma endswith_inv suf s : Py.endswith suf s = true → ∃ a, s = a +:+ suf.
Proof.
  induction s as [|c s IH]; cbn [Py.endswith].
  - case_decide as H; [|done]. intros _. exists "". by rewrite <-H.
  - case_decide as H.
    + intros _. exists "". by rewrite str_app_nil_l.
    + intros [a ->]%IH. exists (String c a). by rewrite str_app_cons.
Qed.

Lemma join_slash_cons t t' ts :
  join "/" (t :: t' :: ts) = t +:+ "/" +:+ join "/" (t' :: ts).
Proof. done. Qed.

(** Splitting undoes joining when no part holds the separator. *)
Lemma split_join_slash parts :
  parts ≠ [] → Forall (fun x => "/"%char ∉ chars x) parts →
  Py.split "/" (join "/" parts) = parts.
Proof.
  induction parts as [|t ts IH]; [done|]. intros _ Hall.
  apply Forall_cons in Hall as [Ht Hall].
  destruct ts as [|t' ts].
  - simpl. by apply split_absent, find_first_None, find_first_lacking.
  - rewrite join_slash_cons.
    assert (Hcut : first_cut "/" (t +:+ "/" +:+ join "/" (t' :: ts)) t
                     (join "/" (t' :: ts))).
    { apply find_first_Some. by apply find_first_fresh. }
    rewrite (split_cut "/" _ _ _ ltac:(done) Hcut). f_equal. by apply IH.
Qed.

Lemma uid_no_slash cfg did :
  "/"%char ∉ chars (UID_PREFIX cfg) → "/"%char ∉ chars (uid cfg did).
Proof.
  intros Hp. unfold uid. rewrite chars_app. intros [Hin|Hin]%elem_of_app; [done|].
  revert Hin. apply str_lacks; [|done]. by intros [? [=]].
Qed.

Lemma uid_last_digit cfg did :
  ∃ c, str_last (uid cfg did) = Some c ∧ is_digit_char c.
Proof.
  destruct (str_last_digit did) as (c & Hc & Hd). exists c. split; [|done].
  unfold uid. rewrite str_last_app; [done|]. apply str_nonempty.
Qed.

Lemma cmd_topic_not_brightness cfg did :
  Py.endswith "/brightness/set" (topic_of cfg RCmd did) = false.
Proof.
  destruct (Py.endswith _ _) eqn:He; [|done]. exfalso.
  apply endswith_inv in He as [a Ha]. unfold topic_of in Ha. simpl in Ha.
  change "/brightness/set" with ("/brightness" +:+ "/set") in Ha.
  rewrite <-!str_app_assoc in Ha. apply str_app_inv_r in Ha.
  apply (f_equal str_last) in Ha.
  rewrite (str_last_suffix a "/brightness" "s"%char) in Ha by done.
  destruct (uid_last_digit cfg did) as (c & Hc & Hd).
  rewrite (str_last_suffix _ (uid cfg did) c) in Ha by done.
  injection Ha as ->. by destruct Hd as [? [=]].
Qed.

Lemma decode_advertised cfg did (tail : list string) :
  Py.fits did → two_part_base cfg → tail ≠ [] →
  Forall (fun x => "/"%char ∉ chars x) tail →
  decode_did cfg (BASE cfg +:+ "/" +:+ uid cfg did +:+ "/" +:+ join "/" tail)
  = Some did.
Proof.
  intros Hfit (a & b0 & HB & Ha & Hb & Hp) Hne Htail. unfold decode_did.
  assert (Hj : BASE cfg +:+ "/" +:+ uid cfg did +:+ "/" +:+ join "/" tail
               = join "/" (a :: b0 :: uid cfg did :: tail)).
  { rewrite HB. destruct tail as [|t ts]; [done|].
    rewrite !join_slash_cons. by rewrite !str_app_assoc. }
  rewrite Hj, split_join_slash; [|done|].
  2:{ repeat (constructor; [done || by apply uid_no_slash|]). done. }
  destruct tail as [|t ts]; [done|]. simpl.
  unfold uid. by rewrite strip_prefix_app, int_of_str.
Qed.

(** X13.  With a base topic of exactly two parts and a uid prefix without
    [/], the bridge understands the command topics it advertises for a
    device whose id has at most 4300 digits (the ids that [int] can have
    produced): the command topic and the brightness command topic that the
    discovery payload of a device names decode to that device; an OFF on the
    command topic enqueues Off for it, an ON is recognised as an ON command
    for it, and a numeric payload on the brightness topic enqueues a Level
    intent with the scaled value and stamps the time. *)
Theorem advertised_topics_understood
    {Net : Type} (cfg : Config) (L : PyLib) (did : Z) (payload : string)
    (now : Q) (b : Bridge Net) :
  two_part_base cfg → Py.fits did →
  (∀ nm, ("command_topic", JStr (topic_of cfg RCmd did))
           ∈ discovery_payload cfg (uid cfg did) nm
         ∧ ("brightness_command_topic", JStr (topic_of cfg RBCmd did))
             ∈ discovery_payload cfg (uid cfg did) nm)
  ∧ decode_did cfg (topic_of cfg RCmd did) = Some did
  ∧ decode_did cfg (topic_of cfg RBCmd did) = Some did
  ∧ (Py.upper (Py.strip payload) = "OFF" →
     on_message cfg L (topic_of cfg RCmd did) payload now b
     = put ("off", did, None) b)
  ∧ (Py.upper (Py.strip payload) = "ON" →
     on_message_for cfg did (topic_of cfg RCmd did) payload = true)
  ∧ (∀ raw, _to_int L (Py.strip payload) = Some raw →
     on_message cfg L (topic_of cfg RBCmd did) payload now b
     = put ("level", did, Some (scale_brightness raw))
           (with_last_level_ts (<[did := now]> (last_level_ts b)) b)).
Proof.
  intros Hcfg Hfit.
  assert (Hc : decode_did cfg (topic_of cfg RCmd did) = Some did).
  { apply (decode_advertised cfg did ["set"] Hfit Hcfg); [done|].
    repeat constructor; intros Hin%list_elem_of_In; simpl in Hin;
      repeat destruct Hin as [[=]|Hin]; done. }
  assert (Hb : decode_did cfg (topic_of cfg RBCmd did) = Some did).
  { apply (decode_advertised cfg did ["brightness"; "set"] Hfit Hcfg); [done|].
    repeat constructor; intros Hin%list_elem_of_In; simpl in Hin;
      repeat destruct Hin as [[=]|Hin]; done. }
  pose proof (cmd_topic_not_brightness cfg did) as Hnb.
  assert (Hset : Py.endswith "/set" (topic_of cfg RCmd did) = true).
  { unfold topic_of. simpl. rewrite <-!str_app_assoc. apply endswith_app. }
  assert (Hbset : Py.endswith "/brightness/set" (topic_of cfg RBCmd did) = true).
  { unfold topic_of. simpl. rewrite <-!str_app_assoc. apply endswith_app. }
  split.
  { intros nm. unfold discovery_payload, topic_of.
    split; [do 2 apply list_elem_of_further; apply list_elem_of_here|
            do 4 apply list_elem_of_further; apply list_elem_of_here]. }
  split; [done|]. split; [done|]. split; [|split].
  - intros Hoff. rewrite (on_message_decoded cfg L _ _ _ _ _ Hc), Hnb, Hset.
    by rewrite (bool_decide_eq_true_2 _ Hoff).
  - intros Hon. unfold on_message_for.
    rewrite Hnb, Hset, (bool_decide_eq_true_2 _ Hc).
    by rewrite (bool_decide_eq_true_2 _ Hon).
  - intros raw Hraw.
    by rewrite (on_message_decoded cfg L _ _ _ _ _ Hb), Hbset, Hraw.
Qed.

Lemma brightness_not_uid pre rest :
  Py.strip_prefix pre "brightness" = Some rest → Py.int rest = None.
Proof.
  intros H%strip_prefix_Some.
  do 11 (destruct pre as [|? pre];
         rewrite ?str_app_nil_l, ?str_app_cons in H;
         [subst rest; by vm_compute|];
         first [discriminate H | injection H as _ H]).
Qed.

(** X14.  With a base topic of a single part the bridge is deaf to the
    command topics that it advertises.  The topic for ON and OFF has only
    three parts; the topic for the brightness has four, and its third part is
    the word brightness, not the uid.  Every message on either topic is
    dropped. *)
Theorem flat_base_drops_commands
    {Net : Type} (cfg : Config) (L : PyLib) (did : Z) (payload : string)
    (now : Q) (b : Bridge Net) :
  "/"%char ∉ chars (BASE cfg) → "/"%char ∉ chars (UID_PREFIX cfg) →
  on_message cfg L (topic_of cfg RCmd did) payload now b = b
  ∧ on_message cfg L (topic_of cfg RBCmd did) payload now b = b.
Proof.
  intros HB HP.
  assert (Hset : "/"%char ∉ chars "set").
  { intros Hin%list_elem_of_In; simpl in Hin.
    repeat destruct Hin as [[=]|Hin]; done. }
  assert (Hbr : "/"%char ∉ chars "brightness").
  { intros Hin%list_elem_of_In; simpl in Hin.
    repeat destruct Hin as [[=]|Hin]; done. }
  assert (Hd : decode_did cfg (topic_of cfg RCmd did) = None).
  { unfold decode_did, topic_of. simpl.
    change (BASE cfg +:+ "/" +:+ uid cfg did +:+ "/set")
      with (join "/" [BASE cfg; uid cfg did; "set"]).
    rewrite split_join_slash; [done|done|].
    repeat (constructor; [done || by apply uid_no_slash|]). done. }
  assert (Hdb : decode_did cfg (topic_of cfg RBCmd did) = None).
  { unfold decode_did, topic_of. simpl.
    change (BASE cfg +:+ "/" +:+ uid cfg did +:+ "/brightness/set")
      with (join "/" [BASE cfg; uid cfg did; "brightness"; "set"]).
    rewrite split_join_slash; [|done|].
    2:{ repeat (constructor; [done || by apply uid_no_slash|]). done. }
    simpl. destruct (Py.strip_prefix _ _) as [rest|] eqn:Hp; [|done].
    by apply (brightness_not_uid _ _ Hp). }
  split.
  - apply on_message_undecodable; [done|].
    intros [Ht _]. apply (f_equal str_last) in Ht.
    by rewrite (topic_last cfg RCmd did) in Ht.
  - apply on_message_undecodable; [done|].
    intros [Ht _]. apply (f_equal str_last) in Ht.
    by rewrite (topic_last cfg RBCmd did) in Ht.
Qed.

End Advertised.

Lemma advertised_topics_understood_witness :
  two_part_base default_config
  ∧ Py.fits 5
  ∧ on_message default_config example_lib (topic_of default_config RCmd 5)
      " off " 10 (Bridge_init default_config level_run_net)
    = put ("off", 5, None) (Bridge_init default_config level_run_net).
Proof.
  assert (H : two_part_base default_config).
  { exists "homeassistant", "zense_bridge". split; [reflexivity|].
    repeat split; intros Hin%list_elem_of_In; simpl in Hin;
      repeat destruct Hin as [[=]|Hin]; done. }
  assert (Hfit : Py.fits 5) by (vm_compute; reflexivity).
  split; [exact H|]. split; [exact Hfit|].
  destruct (advertised_topics_understood default_config example_lib 5 " off "
              10 (Bridge_init default_config level_run_net) H Hfit)
    as (_ & _ & _ & Hoff & _).
  apply Hoff. reflexivity.
Defined.

Lemma flat_base_drops_commands_witness :
  ("/"%char ∉ chars (BASE flat_config))
  ∧ ("/"%char ∉ chars (UID_PREFIX flat_config))
  ∧ on_message flat_config example_lib (topic_of flat_config RCmd 5) "OFF" 10
      (Bridge_init flat_config level_run_net)
    = Bridge_init flat_config level_run_net.
Proof.
  assert (H1 : "/"%char ∉ chars (BASE flat_config)).
  { intros Hin%list_elem_of_In; simpl in Hin.
    repeat destruct Hin as [[=]|Hin]; done. }
  assert (H2 : "/"%char ∉ chars (UID_PREFIX flat_config)).
  { intros Hin%list_elem_of_In; simpl in Hin.
    repeat destruct Hin as [[=]|Hin]; done. }
  split; [exact H1|]. split; [exact H2|].
  apply (flat_base_drops_commands flat_config example_lib 5 "OFF" 10
           (Bridge_init flat_config level_run_net) H1 H2).
Defined.

(** ** The aggregator over a batch *)

Section DictMore.
Context {K V : Type} `{EqDecision K}.
Implicit Types (k : K) (v : V) (d : list (K * V)).

Lemma dict_set_elem k v d k' v' :
  (k', v') ∈ dict_set k v d → (k', v') = (k, v) ∨ (k', v') ∈ d.
Proof.
  induction d as [|[k0 v0] d IH]; simpl.
  - intros ->%list_elem_of_singleton. by left.
  - case_decide as Hk.
    + intros [->|Hin]%elem_of_cons; [by left|]. right. by right.
    + intros [->|Hin]%elem_of_cons; [right; by left|].
      destruct (IH Hin) as [->|Hin']; [by left|]. right. by right.
Qed.

Lemma dict_get_Some_elem k v d : dict_get k d = Some v → (k, v) ∈ d.
Proof.
  induction d as [|[k0 v0] d IH]; simpl; [done|].
  case_decide as Hk; [intros [= ->]; subst; by left|]. intros Hg. right. auto.
Qed.

Lemma dict_get_None_keys k d : dict_get k d = None → k ∉ d.*1.
Proof.
  induction d as [|[k0 v0] d IH]; simpl; [intros _ []%elem_of_nil|].
  case_decide as Hk; [done|]. intros Hg [->|Hin]%elem_of_cons; [done|].
  by apply IH.
Qed.


End DictMore.

Section Batch.
Implicit Types (did : Z) (p : Pending) (pd : list (Z * Pending))
  (batch : list (string * Z * option Z)) (kind : string) (val : option Z).

Lemma accumulate_batch_snoc batch item pd :
  accumulate_batch (batch ++ [item]) pd
  = accumulate_pending item.1.1 item.1.2 item.2 (accumulate_batch batch pd).
Proof. unfold accumulate_batch. by rewrite foldl_app. Qed.

Lemma accumulate_batch_app batch1 batch2 pd :
  accumulate_batch (batch1 ++ batch2) pd
  = accumulate_batch batch2 (accumulate_batch batch1 pd).
Proof. unfold accumulate_batch. by rewrite foldl_app. Qed.

(** What one [_accumulate] writes: the fleet entry for the two fleet kinds,
    the entry of [did] otherwise. *)
Lemma accumulate_pending_writes kind did val pd :
  ∃ k p, accumulate_pending kind did val pd = dict_set k p pd
         ∧ (bool_decide (kind = "discover" ∨ kind = "refresh") = true → k = 0)
         ∧ (bool_decide (kind = "discover" ∨ kind = "refresh") = false →
            k = did).
Proof.
  unfold accumulate_pending.
  destruct (bool_decide (kind = "discover" ∨ kind = "refresh")) eqn:Hk;
    eexists _, _; (split; [reflexivity|]); split; done.
Qed.

Lemma accumulate_pending_keys kind did val pd :
  NoDup (pd.*1) → NoDup ((accumulate_pending kind did val pd).*1).
Proof.
  destruct (accumulate_pending_writes kind did val pd) as (k & p & -> & _).
  apply dict_set_keys_NoDup.
Qed.

Lemma accumulate_batch_keys batch pd :
  NoDup (pd.*1) → NoDup ((accumulate_batch batch pd).*1).
Proof.
  revert pd. induction batch as [|item batch IH]; intros pd Hnd; [done|].
  simpl. by apply IH, accumulate_pending_keys.
Qed.

Lemma Pending_new_exclusive : exclusive Pending_new.
Proof. by left. Qed.

Lemma accumulate_pending_ok kind did val pd :
  pending_ok pd → pending_ok (accumulate_pending kind did val pd).
Proof.
  intros [Hnd Hex]. split; [by apply accumulate_pending_keys|].
  intros d p Hin Hd.
  assert (Hold : exclusive (default Pending_new (dict_get did pd)) ∨ did = 0).
  { destruct (decide (did = 0)) as [|Hne]; [by right|]. left.
    destruct (dict_get did pd) as [p0|] eqn:Hg; [|apply Pending_new_exclusive].
    apply (Hex did p0); [by apply dict_get_Some_elem|done]. }
  unfold accumulate_pending in Hin.
  case_bool_decide as Hfleet.
  - apply dict_set_elem in Hin as [[= -> ->]|Hin]; [done|]. by apply (Hex d p).
  - apply dict_set_elem in Hin as [[= -> Hp]|Hin]; [|by apply (Hex d p)].
    destruct Hold as [Hold|?]; [|done].
    destruct (default Pending_new (dict_get did pd)) as [o n lv].
    unfold exclusive in *. simpl in *.
    destruct (decide (kind = "level")) as [->|Hlevel].
    { subst p. simpl.
      destruct (Z.eqb_spec (clamp 0 BRIGHTNESS_SCALE (default 0 val)) 0) as [|Hz];
        simpl; [by right|].
      split; [unfold clamp, BRIGHTNESS_SCALE in *; lia|done]. }
    rewrite (bool_decide_eq_false_2 (kind = "level")) in Hp by done.
    subst p. repeat case_bool_decide; simpl;
      destruct o, n, lv as [l|]; simpl in *;
      first [done | by left | by right | naive_solver].
Qed.

(** X15.  The pending map stays well formed under every batch of queue
    tuples, whatever their kinds and values: it keeps one entry per device,
    and for every concrete device at most one of off, on and level is
    pending, a pending level lying between 1 and 100.  This is what makes the
    order of the tests in [_execute] immaterial. *)
Theorem pending_stays_exclusive
    (batch : list (string * Z * option Z)) (pd : list (Z * Pending)) :
  pending_ok pd → pending_ok (accumulate_batch batch pd).
Proof.
  revert pd. induction batch as [|item batch IH]; intros pd Hok; [done|].
  simpl. by apply IH, accumulate_pending_ok.
Qed.

End Batch.

Lemma pending_stays_exclusive_witness :
  pending_ok []
  ∧ pending_ok (accumulate_batch
                  [("level", 5, Some 300); ("on", 5, None); ("discover", 0, None);
                   ("off", 7, None); ("level", 7, None); ("bogus", 9, Some 1)]
                  []).
Proof.
  assert (H : pending_ok []).
  { split; [constructor|]. by intros did p ?%elem_of_nil. }
  split; [exact H|]. apply (pending_stays_exclusive _ [] H).
Defined.

Section BatchIntents.
Implicit Types (did : Z) (p : Pending) (pd : list (Z * Pending))
  (batch : list (string * Z * option Z)) (i : intent).






(** The fleet entry decides the two flags of a flush. *)
Lemma do_discover_get pd :
  NoDup (pd.*1) →
  do_discover pd = match dict_get 0 pd with Some p => on p | None => false end.
Proof.
  unfold do_discover.
  induction pd as [|[d p] pd IH]; simpl; [done|].
  intros [Hnotin Hnd]%NoDup_cons. case_decide as Hd.
  - subst d. simpl. rewrite IH by done.
    destruct (dict_get 0 pd) as [p'|] eqn:Hg; [|by rewrite orb_false_r].
    destruct Hnotin. apply list_elem_of_fmap. exists (0, p'). split; [done|].
    by apply dict_get_Some_elem.
  - destruct (Z.eqb_spec d 0) as [|_]; [done|]. simpl. by apply IH.
Qed.

Lemma do_refresh_get pd :
  NoDup (pd.*1) →
  do_refresh pd = match dict_get 0 pd with Some p => off p | None => false end.
Proof.
  unfold do_refresh.
  induction pd as [|[d p] pd IH]; simpl; [done|].
  intros [Hnotin Hnd]%NoDup_cons. case_decide as Hd.
  - subst d. simpl. rewrite IH by done.
    destruct (dict_get 0 pd) as [p'|] eqn:Hg; [|by rewrite orb_false_r].
    destruct Hnotin. apply list_elem_of_fmap. exists (0, p'). split; [done|].
    by apply dict_get_Some_elem.
  - destruct (Z.eqb_spec d 0) as [|_]; [done|]. simpl. by apply IH.
Qed.

Lemma spared_discovery_stays item pd :
  spares_discovery item →
  (∃ p, dict_get 0 pd = Some p ∧ on p = true) →
  ∃ p, dict_get 0 (accumulate_pending item.1.1 item.1.2 item.2 pd) = Some p
       ∧ on p = true.
Proof.
  destruct item as [[kind d] val]. unfold spares_discovery. simpl.
  intros Hsp (p & Hg & Hon). unfold accumulate_pending. rewrite ?Hg.
  case_bool_decide as Hfleet.
  - rewrite dict_get_set_eq. eexists. split; [done|].
    simpl. by case_bool_decide.
  - destruct (decide (d = 0)) as [->|Hd]; [|rewrite dict_get_set_ne by done; eauto].
    destruct (Hsp eq_refl) as [Hoff Hlv].
    rewrite dict_get_set_eq. eexists. split; [done|].
    rewrite ?Hg. simpl. rewrite !(bool_decide_eq_false_2 _ Hoff).
    rewrite !(bool_decide_eq_false_2 _ Hlv).
    case_bool_decide; [|done]. by destruct (negb (off p) && _).
Qed.

Lemma discover_flag_set pre d v post pd :
  NoDup (pd.*1) → Forall spares_discovery post →
  do_discover (accumulate_batch (pre ++ ("discover", d, v) :: post) pd) = true.
Proof.
  intros Hnd Hpost. rewrite do_discover_get by by apply accumulate_batch_keys.
  rewrite accumulate_batch_app. simpl.
  set (pd1 := accumulate_batch pre pd).
  assert (Hstart : ∃ p, dict_get 0 (accumulate_pending "discover" d v pd1)
                        = Some p ∧ on p = true).
  { unfold accumulate_pending. simpl. rewrite dict_get_set_eq. by eexists. }
  revert Hstart. generalize (accumulate_pending "discover" d v pd1).
  induction Hpost as [|item post Hitem Hpost IH]; intros pd2 Hpd2; simpl.
  - by destruct Hpd2 as (p & -> & ->).
  - apply IH. by apply spared_discovery_stays.
Qed.

End BatchIntents.

(** ** The worker: drain, then flush *)

Section Worker.
Context {Net : Type} (E : Env Net) (cfg : Config) (L : PyLib).
Implicit Types (b : Bridge Net) (did : Z) (p : Pending)
  (item : string * Z * option Z) (q late : list (string * Z * option Z)).

Lemma drain_eq n b :
  drain n b
  = {| cmd_q := drop n (cmd_q b);
       pending := accumulate_batch (take n (cmd_q b)) (pending b);
       last_level_pub := last_level_pub b; last_level_ts := last_level_ts b;
       z := z b; known := known b; trace := trace b |}.
Proof.
  revert b. induction n as [|n IH]; intros b; [by destruct b|].
  destruct b as [q pd lp lt c k tr]. simpl.
  destruct q as [|[[kind did] val] q]; [done|]. by rewrite IH.
Qed.

(** X16.  [_drain] merges the first 200 tuples of the queue into the
    pending map, in arrival order, and leaves the rest of the queue where it
    is, in order; it sends, publishes and records nothing. *)
Theorem drain_takes_at_most_200 (b : Bridge Net) :
  pending (_drain b) = accumulate_batch (take 200 (cmd_q b)) (pending b)
  ∧ cmd_q (_drain b) = drop 200 (cmd_q b)
  ∧ (length (cmd_q (_drain b)) = length (cmd_q b) - 200)%nat
  ∧ trace (_drain b) = trace b
  ∧ z (_drain b) = z b
  ∧ known (_drain b) = known b
  ∧ last_level_pub (_drain b) = last_level_pub b
  ∧ last_level_ts (_drain b) = last_level_ts b.
Proof.
  unfold _drain. rewrite drain_eq. simpl.
  do 2 (split; [done|]). split; [apply length_drop|]. done.
Qed.

Lemma worker_round_eq late b item q :
  cmd_q b = item :: q →
  worker_round E cfg L late b = _execute E cfg L (after_drain item q late b).
Proof.
  intros Hq. unfold worker_round. rewrite Hq.
  destruct item as [[kind did] val]. unfold _drain. by rewrite drain_eq.
Qed.

Lemma segments_ops_idle did items segs :
  Forall2 (item_segment cfg) items segs →
  (∀ p, (did, p) ∈ items → did ≠ 0 → ¬ has_directive p) →
  ops_for did (concat segs) = [].
Proof.
  induction 1 as [|[d p] seg items segs Hseg Hrest IH]; intros Hidle; [done|].
  simpl. rewrite ops_for_app, IH; [|intros p' Hin; apply Hidle; by right].
  rewrite app_nil_r. destruct (decide (d = did)) as [->|Hd].
  - unfold item_segment in Hseg. case_decide as Hdir; [|by subst seg].
    destruct Hdir as [Hz Hdir]. by destruct (Hidle p (list_elem_of_here _ _) Hz).
  - by apply (item_segment_ops cfg did (d, p) seg Hseg).
Qed.

(** The events of a flush, returning or not: the control operations are
    those of the segments. *)
Lemma flush_events b :
  ∃ fleet segs,
    events_since (trace b) (trace (_execute E cfg L b)) = fleet ++ concat segs
    ∧ Forall (fun e => op_target e = None) fleet
    ∧ (flush_raises E b = true → fleet = [EvGetDevicesRaised] ∧ segs = [])
    ∧ (flush_raises E b = false →
       Forall2 (item_segment cfg) (pending b) segs
       ∧ trace (execute_fleet E cfg L (pending b) (with_pending [] b)).2
         = trace b ++ fleet).
Proof.
  destruct (flush_raises E b) eqn:Hr.
  - rewrite (execute_raised E cfg L b Hr). simpl. rewrite events_since_app.
    exists [EvGetDevicesRaised], []. split; [done|].
    split; [by repeat constructor|]. split; [done|]. intros [=].
  - destruct (execute_shape E cfg L b Hr)
      as (disc & refr & segs & Ht & _ & _ & _ & _ & _ & Hdisc & Hrefr & Hsegs).
    destruct (execute_fleet_shape E cfg L b Hr)
      as (_ & disc' & refr' & Htf & _).
    destruct (device_phase E cfg (pending b)
                (execute_fleet E cfg L (pending b) (with_pending [] b)).2)
      as (_ & _ & segs' & Ht' & Hsegs').
    rewrite <-(execute_returns E cfg L b Hr) in Ht'.
    exists (disc' ++ refr'), segs'.
    rewrite Ht', Htf, <-!(assoc_L (++)), events_since_app.
    split; [done|]. split; [|split; [intros [=]|by intros _]].
    destruct (execute_fleet_shape E cfg L b Hr)
      as (_ & d2 & r2 & Htf2 & _ & _ & _ & _ & _ & Hd2 & Hr2).
    rewrite Htf in Htf2. apply (inj (app _)) in Htf2. rewrite Htf2.
    apply Forall_app. split; [done|].
    eapply Forall_impl; [done|]. intros e He.
    by apply (refresh_event_facts cfg e He).
Qed.

Lemma flush_no_ops did b :
  (flush_raises E b = false →
   ∀ p, (did, p) ∈ pending b → did ≠ 0 → ¬ has_directive p) →
  ops_for did (events_since (trace b) (trace (_execute E cfg L b))) = [].
Proof.
  intros Hidle.
  destruct (flush_events b) as (fleet & segs & -> & Hquiet & Hraised & Hret).
  rewrite ops_for_app, (ops_for_none did _ Hquiet), app_nil_l.
  destruct (flush_raises E b) eqn:Hr.
  - by destruct (Hraised eq_refl) as [_ ->].
  - destruct (Hret eq_refl) as [Hsegs _].
    by apply (segments_ops_idle did _ _ Hsegs), Hidle.
Qed.

(** *** The flush against the plan *)














(** X18.  A discovery request is taken up by the round that takes it from
    the queue: the flush of that round begins with the query for the device
    list.  When the query returns, the known devices become the answer if
    it is not empty; when it raises, the known devices stay as they were,
    nothing else happens in the round, and the worker is gone.  The one thing
    that cancels the request is an Off or a Level for device 0 arriving after
    it in the same batch. *)
Theorem discovery_request_honoured
    (late : list (string * Z * option Z)) (b : Bridge Net)
    (item : string * Z * option Z) (q pre post : list (string * Z * option Z))
    (d : Z) (v : option Z) :
  cmd_q b = item :: q → pending b = [] →
  item :: take 200 (q ++ late) = pre ++ ("discover", d, v) :: post →
  Forall spares_discovery post →
  match (get_devices E (z b)).1 with
  | Some ids =>
      ∃ rest,
        events_since (trace b) (trace (worker_round E cfg L late b))
        = EvGetDevices ids :: rest
        ∧ known (worker_round E cfg L late b)
          = match ids with
            | [] => known b
            | _ :: _ => ids
            end
  | None =>
      events_since (trace b) (trace (worker_round E cfg L late b))
      = [EvGetDevicesRaised]
      ∧ known (worker_round E cfg L late b) = known b
      ∧ worker_dead (worker_round E cfg L late b) = true
  end.
Proof.
  intros Hq Hpd Hbatch Hpost. rewrite (worker_round_eq late b item q Hq).
  set (b1 := after_drain item q late b).
  assert (Hflag : do_discover (pending b1) = true).
  { change (pending b1)
      with (accumulate_batch (item :: take 200 (q ++ late)) (pending b)).
    rewrite Hbatch, Hpd.
    apply discover_flag_set; [constructor|done]. }
  change (trace b) with (trace b1). change (known b) with (known b1).
  change (z b) with (z b1).
  destruct (get_devices E (z b1)).1 as [ids|] eqn:Hget.
  - assert (Hr : flush_raises E b1 = false).
    { unfold flush_raises. by rewrite Hget, Hflag. }
    destruct (execute_shape E cfg L b1 Hr)
      as (disc & refr & segs & Ht & _ & _ & _ & _ & Hd & _).
    rewrite Hflag in Hd. destruct Hd as (ids' & evs & Hget' & -> & _ & _ & Hk).
    assert (ids' = ids) as -> by congruence.
    exists (evs ++ refr ++ concat segs). split; [|done].
    by rewrite Ht, events_since_app.
  - assert (Hr : flush_raises E b1 = true).
    { apply flush_raises_true. by split. }
    rewrite (execute_raised E cfg L b1 Hr). simpl.
    rewrite events_since_app. do 2 (split; [done|]).
    unfold worker_dead. simpl. rewrite existsb_app. simpl.
    by rewrite orb_true_r.
Qed.

(** X19.  Device 0 is the fleet entry, not a device.  No flush sends a
    control operation to device 0, whatever is pending.  An Off addressed to
    device 0 cancels a discovery requested earlier in the batch and asks for
    a refresh of the known devices instead; a Level addressed to device 0
    cancels the discovery too, and asks for the refresh when it clamps
    to 0. *)
Theorem device_zero_is_reserved
    (b : Bridge Net) (batch : list (string * Z * option Z)) (v : option Z) :
  ops_for 0 (events_since (trace b) (trace (_execute E cfg L b))) = []
  ∧ do_discover (accumulate_batch (batch ++ [("off", 0, v)]) []) = false
  ∧ do_refresh (accumulate_batch (batch ++ [("off", 0, v)]) []) = true
  ∧ do_discover (accumulate_batch (batch ++ [("level", 0, v)]) []) = false
  ∧ do_refresh (accumulate_batch (batch ++ [("level", 0, v)]) [])
    = (clamp 0 BRIGHTNESS_SCALE (default 0 v) =? 0).
Proof.
  split; [by apply flush_no_ops|].
  assert (Hnd : ∀ it, NoDup ((accumulate_batch (batch ++ [it]) []).*1)).
  { intros it. apply accumulate_batch_keys. constructor. }
  rewrite !do_discover_get, !do_refresh_get by apply Hnd.
  rewrite !accumulate_batch_snoc. simpl.
  unfold accumulate_pending. simpl. rewrite !dict_get_set_eq.
  do 2 (split; [done|]). by destruct (_ =? 0).
Qed.









End Worker.



Lemma discovery_request_honoured_witness :
  Forall spares_discovery [("level", 5, Some 40); ("on", 5, None)]
  ∧ ∃ rest,
      events_since (trace queue_example)
        (trace (worker_round script_env default_config example_lib
                  [] queue_example))
      = EvGetDevices [5] :: rest.
Proof.
  assert (H : Forall spares_discovery [("level", 5, Some 40); ("on", 5, None)]).
  { repeat (constructor; [unfold spares_discovery; simpl; intros [=]|]).
    constructor. }
  split; [exact H|].
  pose proof (discovery_request_honoured script_env default_config example_lib
                [] queue_example ("discover", 0, None)
                [("level", 5, Some 40); ("on", 5, None)] [] _ 0 None
                eq_refl eq_refl eq_refl H) as Hd.
  assert (Hget : (get_devices script_env (z queue_example)).1 = Some [5])
    by (vm_compute; reflexivity).
  rewrite Hget in Hd. destruct Hd as (rest & Hev & _).
  by exists rest.
Defined.

Lemma login_all_or_nothing_witness :
  (_login script_env fresh_client).1 = true
  ∧ (_connect script_env fresh_client).1 = true.
Proof.
  assert (H : (_login script_env fresh_client).1 = true) by reflexivity.
  split; [exact H|].
  destruct (login_all_or_nothing script_env fresh_client) as (_ & _ & _ & Hc).
  exact (Hc H).
Defined.

Lemma send_command_bounded_and_settled_witness :
  (send_command script_env (fade_cmd 5 40) default_retry fresh_client).1 ≠ ""
  ∧ sock (send_command script_env (fade_cmd 5 40) default_retry
            fresh_client).2 = true.
Proof.
  assert (H : (send_command script_env (fade_cmd 5 40) default_retry
                 fresh_client).1 ≠ "") by (vm_compute; discriminate).
  split; [exact H|].
  destruct (send_command_bounded_and_settled script_env (fade_cmd 5 40)
              default_retry fresh_client) as (_ & _ & Hopen).
  exact (proj1 (Hopen H)).
Defined.

Lemma pub_state_records_level_witness :
  (7 : Z) ≠ 5
  ∧ last_level_pub
      (pub_state default_config 5 40
         (Bridge_init default_config level_run_net)) !! uid default_config 7
    = None.
Proof.
  assert (H : (7 : Z) ≠ 5) by discriminate.
  split; [exact H|].
  destruct (pub_state_records_level default_config
              (Bridge_init default_config level_run_net) 5 40)
    as (_ & Hother & _).
  rewrite (Hother 7 H). reflexivity.
Defined.

(** ** Runs: what each thread touches *)

Section Threads.
Context {Net : Type} (E : Env Net) (cfg : Config) (L : PyLib).
Implicit Types (b : Bridge Net) (o : bridge_op) (ops : list bridge_op).

Lemma only_enqueues_refl b : only_enqueues b b.
Proof. do 4 (split; [done|]). exists []. by rewrite app_nil_r. Qed.

Lemma only_enqueues_trans b1 b2 b3 :
  only_enqueues b1 b2 → only_enqueues b2 b3 → only_enqueues b1 b3.
Proof.
  intros (Hz & Hk & Hp & Hl & i1 & Hq) (Hz' & Hk' & Hp' & Hl' & i2 & Hq').
  do 4 (split; [congruence|]). exists (i1 ++ i2).
  by rewrite Hq', Hq, <-(assoc_L (++)).
Qed.

Lemma put_only_enqueues item b : only_enqueues b (put item b).
Proof. do 4 (split; [done|]). by exists [item]. Qed.

Lemma message_enqueues_frame topic payload now b :
  only_enqueues b (on_message cfg L topic payload now b).
Proof.
  unfold on_message.
  repeat case_match;
    first [apply only_enqueues_refl | apply put_only_enqueues
          | by do 4 (split; [done|]); eexists [_]].
Qed.

Lemma callback_only_enqueues b o :
  is_worker_op o = false → only_enqueues b (run_op E cfg L b o).
Proof.
  destruct o as [|topic payload now| |late]; simpl; [| | |done]; intros _.
  - unfold on_connect. do 4 (split; [done|]). by eexists [_].
  - apply message_enqueues_frame.
  - unfold poller_tick. destruct (known b);
      [apply only_enqueues_refl|apply put_only_enqueues].
Qed.

Lemma run_op_trace b o : ∃ evs, trace (run_op E cfg L b o) = trace b ++ evs.
Proof.
  destruct o as [|topic payload now| |late]; simpl.
  - unfold on_connect. simpl. eexists (_ ++ _). by rewrite <-(assoc_L (++)).
  - rewrite (proj1 (on_message_quiet cfg L topic payload now b)).
    exists []. by rewrite app_nil_r.
  - unfold poller_tick. exists []. rewrite app_nil_r. by destruct (known b).
  - destruct (worker_dead b); [exists []; by rewrite app_nil_r|].
    unfold worker_round. destruct (cmd_q b) as [|[[kind did] val] q] eqn:Hq.
    { exists []. by rewrite app_nil_r. }
    match goal with |- context [_execute E cfg L ?b1] =>
      destruct (execute_frame E cfg L b1) as (_ & _ & _ & _ & evs & Ht);
      rewrite Ht end.
    unfold _drain. rewrite (proj1 (drain_quiet _ _)). simpl. by eexists.
Qed.

Lemma run_op_pending b o :
  pending b = [] → pending (run_op E cfg L b o) = [].
Proof.
  intros Hp. destruct (is_worker_op o) eqn:Hw.
  - destruct o as [| | |late]; try done. simpl.
    destruct (worker_dead b); [done|]. unfold worker_round.
    destruct (cmd_q b) as [|[[kind did] val] q]; [done|].
    apply execute_frame.
  - destruct (callback_only_enqueues b o Hw) as (_ & _ & -> & _). done.
Qed.

(** X21.  In every state that a run of the bridge reaches from its start,
    nothing is pending: what a round of the worker merges it also flushes.
    The record of events only ever grows, from whatever state a run
    starts. *)
Theorem nothing_pending_between_rounds
    (n : Net) (b : Bridge Net) (ops : list bridge_op) :
  pending (run E cfg L ops (Bridge_init cfg n)) = []
  ∧ ∃ evs, trace (run E cfg L ops b) = trace b ++ evs.
Proof.
  split.
  - assert (H : pending (Bridge_init cfg n) = []) by done.
    revert H. generalize (Bridge_init cfg n). clear b.
    induction ops as [|o ops IH]; intros b Hp; [done|].
    apply IH. by apply run_op_pending.
  - revert b. induction ops as [|o ops IH]; intros b.
    + exists []. by rewrite app_nil_r.
    + destruct (run_op_trace b o) as (evs1 & Ht1).
      destruct (IH (run_op E cfg L b o)) as (evs2 & Ht2).
      exists (evs1 ++ evs2). unfold run in *. simpl.
      by rewrite Ht2, Ht1, <-(assoc_L (++)).
Qed.

(** X22.  The MQTT callbacks and the poller only ever add to the queue.
    Over any run without a round of the worker, the client, the known
    devices, the pending map and the record of published levels stay as they
    were, and the queue keeps what it held, in order, in front of what was
    added. *)
Theorem callbacks_only_enqueue (b : Bridge Net) (ops : list bridge_op) :
  Forall (fun o => is_worker_op o = false) ops →
  z (run E cfg L ops b) = z b
  ∧ known (run E cfg L ops b) = known b
  ∧ pending (run E cfg L ops b) = pending b
  ∧ last_level_pub (run E cfg L ops b) = last_level_pub b
  ∧ ∃ items, cmd_q (run E cfg L ops b) = cmd_q b ++ items.
Proof.
  intros Hops. change (only_enqueues b (run E cfg L ops b)).
  revert b. induction Hops as [|o ops Ho _ IH]; intros b.
  - apply only_enqueues_refl.
  - eapply only_enqueues_trans; [by apply callback_only_enqueues|apply IH].
Qed.

End Threads.

Lemma callbacks_only_enqueue_witness :
  Forall (fun o => is_worker_op o = false)
    [OpConnect;
     OpMessage "homeassistant/zense_bridge/zensebridge_5/set" "OFF" 100;
     OpPoll]
  ∧ z (run script_env default_config example_lib
         [OpConnect;
          OpMessage "homeassistant/zense_bridge/zensebridge_5/set" "OFF" 100;
          OpPoll]
         (Bridge_init default_config level_run_net))
    = z (Bridge_init default_config level_run_net).
Proof.
  assert (H : Forall (fun o => is_worker_op o = false)
                [OpConnect;
                 OpMessage "homeassistant/zense_bridge/zensebridge_5/set"
                   "OFF" 100;
                 OpPoll]) by (repeat constructor).
  split; [exact H|].
  apply (callbacks_only_enqueue script_env default_config example_lib
           (Bridge_init default_config level_run_net) _ H).
Defined.

(** ** A controller that cannot be reached *)

Section Unreachable.
Context {Net : Type} (E : Env Net).
Implicit Types (c : ZenseClient Net) (cmd : string) (did : Z).

Lemma send_command_unreachable cmd retry c :
  (net_connect E (net c)).1 = false →
  logged_in c = false ∨ sock c = false →
  send_command E cmd retry c
  = ("", {| code := code c; sock := false; logged_in := false;
            net := (net_connect E (net c)).2;
            wire := (wire c ++ (if sock c then [WClose] else []))
                    ++ [WConnect false] |}).
Proof.
  intros Hconn Hclosed. unfold send_command. rewrite Nat.add_1_r. simpl.
  unfold attempt.
  assert (negb (logged_in c) || negb (sock c) = true) as ->.
  { destruct Hclosed as [-> | ->]; [done|]. by rewrite orb_true_r. }
  unfold _login, _connect. simpl.
  destruct (net_connect E (net c)) as [ok n]. simpl in *. subst ok. simpl.
  unfold _close. simpl. by rewrite app_nil_r.
Qed.

(** X23.  When no session is open and the controller refuses the
    connection, [send_command] gives up after that one connection attempt,
    whatever its retry count: it sends nothing, leaves the session closed and
    returns the empty response.  The queries then report that they know
    nothing: no level, no devices, and the fallback name of the device. *)
Theorem unreachable_controller_gives_unknown
    (cmd : string) (retry : nat) (did : Z) (c : ZenseClient Net) :
  (net_connect E (net c)).1 = false →
  logged_in c = false ∨ sock c = false →
  (send_command E cmd retry c).1 = ""
  ∧ wire (send_command E cmd retry c).2
    = (wire c ++ (if sock c then [WClose] else [])) ++ [WConnect false]
  ∧ sock (send_command E cmd retry c).2 = false
  ∧ logged_in (send_command E cmd retry c).2 = false
  ∧ (get_level E did c).1 = None
  ∧ (get_devices E c).1 = Some []
  ∧ (get_name E did c).1 = "Device_" +:+ Py.str did.
Proof.
  intros Hconn Hclosed.
  rewrite (send_command_unreachable cmd retry c Hconn Hclosed). simpl.
  do 4 (split; [done|]).
  unfold get_level, get_devices, get_name.
  by rewrite !(send_command_unreachable _ _ c Hconn Hclosed).
Qed.

End Unreachable.

Lemma unreachable_controller_gives_unknown_witness :
  (net_connect script_env (net (z unreachable_example))).1 = false
  ∧ (get_level script_env 7 (z unreachable_example)).1 = None.
Proof.
  assert (H : (net_connect script_env (net (z unreachable_example))).1 = false)
    by reflexivity.
  split; [exact H|].
  destruct (unreachable_controller_gives_unknown script_env "" 1 7
              (z unreachable_example) H (or_introl eq_refl))
    as (_ & _ & _ & _ & Hl & _).
  exact Hl.
Defined.
